(** * AIrsenal: the squad constraint model and the transfer-search helpers

    A shallow embedding of
      - [airsenal/framework/squad.py]              (class [Squad]),
      - [airsenal/framework/optimization_utils.py] (points hits, leaf count,
        single-transfer search, [apply_strategy]),
      - [airsenal/scripts/fill_transfersuggestion_table.py]
        ([find_best_strat_from_json]).

    Conventions.
      - Python integers are [Z]; Python floats (predicted points, scores) are
        read as the rationals they denote, [Q], and compared as such; their
        arithmetic goes through the operations of [PyFloat], which round,
        in the order the source applies them.
      - A Python object that the source mutates in place is a record value
        here, and a method returns the new value next to its result.
      - An exception is a value of [exn]; a computation that may raise has
        type [result A]. *)

From Stdlib Require Import ZArith QArith List String Ascii Bool Lia Sorted.
Import ListNotations.
Local Open Scope string_scope.
Local Open Scope Z_scope.

(* ================================================================== *)
(** ** Data model *)
(* ================================================================== *)

(** The four position codes, the keys of [TOTAL_PER_POSITION] and of
    [Squad.num_position]. *)
Inductive Position : Type := GK | DEF | MID | FWD.

Definition Position_eqb (a b : Position) : bool :=
  match a, b with
  | GK, GK | DEF, DEF | MID, MID | FWD, FWD => true
  | _, _ => false
  end.

Definition position_name (pos : Position) : string :=
  match pos with GK => "GK" | DEF => "DEF" | MID => "MID" | FWD => "FWD" end.

(** [predicted_points] of a candidate: {tag -> {gameweek -> points}}. *)
Definition Predictions : Type := list (string * list (Z * Q)).

(** [CandidatePlayer] as [Squad] uses it: the attributes the squad code reads
    and the flags it writes. *)
Record CandidatePlayer : Type := mkCandidate {
  player_id : Z;
  name : string;
  team : string;
  position : Position;
  purchase_price : Z;
  is_starting : bool;
  is_captain : bool;
  is_vice_captain : bool;
  sub_position : Z;
  predicted_points : Predictions
}.

Definition set_purchase_price (p : CandidatePlayer) (v : Z) : CandidatePlayer :=
  mkCandidate (player_id p) (name p) (team p) (position p) v
    (is_starting p) (is_captain p) (is_vice_captain p) (sub_position p)
    (predicted_points p).

Definition set_is_starting (p : CandidatePlayer) (b : bool) : CandidatePlayer :=
  mkCandidate (player_id p) (name p) (team p) (position p) (purchase_price p)
    b (is_captain p) (is_vice_captain p) (sub_position p) (predicted_points p).

Definition set_captaincy (p : CandidatePlayer) (c vc : bool) : CandidatePlayer :=
  mkCandidate (player_id p) (name p) (team p) (position p) (purchase_price p)
    (is_starting p) c vc (sub_position p) (predicted_points p).

Definition set_sub_position (p : CandidatePlayer) (k : Z) : CandidatePlayer :=
  mkCandidate (player_id p) (name p) (team p) (position p) (purchase_price p)
    (is_starting p) (is_captain p) (is_vice_captain p) k (predicted_points p).

(** A dict keyed by the four positions. *)
Record PerPosition (A : Type) : Type := mkPerPosition {
  at_GK : A; at_DEF : A; at_MID : A; at_FWD : A
}.
Arguments mkPerPosition {A} _ _ _ _.
Arguments at_GK {A} _.
Arguments at_DEF {A} _.
Arguments at_MID {A} _.
Arguments at_FWD {A} _.

Definition pp_get {A} (d : PerPosition A) (pos : Position) : A :=
  match pos with
  | GK => at_GK d | DEF => at_DEF d | MID => at_MID d | FWD => at_FWD d
  end.

Definition pp_set {A} (d : PerPosition A) (pos : Position) (v : A)
  : PerPosition A :=
  match pos with
  | GK => mkPerPosition v (at_DEF d) (at_MID d) (at_FWD d)
  | DEF => mkPerPosition (at_GK d) v (at_MID d) (at_FWD d)
  | MID => mkPerPosition (at_GK d) (at_DEF d) v (at_FWD d)
  | FWD => mkPerPosition (at_GK d) (at_DEF d) (at_MID d) v
  end.

(** [TOTAL_PER_POSITION = {"GK": 2, "DEF": 5, "MID": 5, "FWD": 3}] *)
Definition TOTAL_PER_POSITION : PerPosition Z := mkPerPosition 2 5 5 3.

(** [FORMATIONS]: (defenders, midfielders, forwards). *)
Definition FORMATIONS : list (Z * Z * Z) :=
  [ (3, 4, 3); (3, 5, 2); (4, 3, 3); (4, 4, 2); (4, 5, 1); (5, 4, 1);
    (5, 3, 2) ].

Record Squad : Type := mkSquad {
  players : list CandidatePlayer;
  budget : Z;
  num_position : PerPosition Z;
  free_subs : Z;
  subs_this_week : Z;
  verbose : bool
}.

(** [Squad.__init__(budget=1000)] *)
Definition Squad_init (b : Z) : Squad :=
  mkSquad [] b (mkPerPosition 0 0 0 0) 0 0 false.

Definition Squad_default : Squad := Squad_init 1000.

(** Exceptions the modelled code can raise. *)
Inductive exn : Type :=
| RuntimeError (msg : string)
| IndexError
| KeyError
| TypeError
| ValueError
| AttributeError
| UnboundLocalError (var : string)
| RecursionError
| ZeroDivisionError
| Exception (msg : string).

Definition result (A : Type) : Type := (exn + A)%type.

Definition ret {A} (a : A) : result A := inr a.
Definition raise {A} (e : exn) : result A := inl e.
Definition bind {A B} (m : result A) (k : A -> result B) : result B :=
  match m with
  | inl e => inl e
  | inr a => k a
  end.

Notation "x <- m ;; k" := (bind m (fun x => k))
  (at level 61, m at next level, right associativity).
Notation "' pat <- m ;; k" := (bind m (fun x => match x with pat => k end))
  (at level 61, pat pattern, m at next level, right associativity).

(** Python's float arithmetic.  A (finite) float is read as the rational it
    denotes, and floats are compared as these rationals; but [+], [-], [*],
    [/] and [**] on floats round their result, so they are not the
    operations of [Q].  They are taken as they come: [float_div] is the
    true division that gives the default discount [14 / 15], [float_pow]
    is [x ** n] for a float [x] and an integer [n], which may raise.  Of
    the rounding, only two facts about the sign of a sum are relied on:
    a sum of values that are not negative is not negative, and the sum of
    a value that is not positive and a negative one is negative. *)
Class PyFloat : Type := {
  float_add : Q -> Q -> Q;
  float_sub : Q -> Q -> Q;
  float_mul : Q -> Q -> Q;
  float_div : Q -> Q -> Q;
  float_pow : Q -> Z -> result Q;
  float_add_nonneg :
    forall a b : Q, (0 <= a)%Q -> (0 <= b)%Q -> (0 <= float_add a b)%Q;
  float_add_neg :
    forall a b : Q, (a <= 0)%Q -> (b < 0)%Q -> (float_add a b < 0)%Q
}.

(** Python truthiness of an optional integer ([None] and [0] are false). *)
Definition truthy (o : option Z) : bool :=
  match o with
  | Some z => negb (z =? 0)
  | None => false
  end.

(* ================================================================== *)
(** ** squad.py: constraints, [add_player], [remove_player] *)
(* ================================================================== *)

(** [Squad.is_complete] *)
Definition is_complete (sq : Squad) : bool :=
  let np := num_position sq in
  (at_GK np + at_DEF np + at_MID np + at_FWD np) =? 15.

(** [Squad.check_no_duplicate_player] *)
Fixpoint no_duplicate_in (l : list CandidatePlayer) (pid : Z) : bool :=
  match l with
  | [] => true
  | p :: l' => if player_id p =? pid then false else no_duplicate_in l' pid
  end.

Definition check_no_duplicate_player (sq : Squad) (player : CandidatePlayer)
  : bool :=
  no_duplicate_in (players sq) (player_id player).

(** [Squad.check_num_in_position] *)
Definition check_num_in_position (sq : Squad) (player : CandidatePlayer)
  : bool :=
  pp_get (num_position sq) (position player)
  <? pp_get TOTAL_PER_POSITION (position player).

(** [Squad.check_num_per_team]: the loop with its counter; it answers
    [False] at the moment the counter reaches 3. *)
Fixpoint num_per_team_loop (l : list CandidatePlayer) (new_player_team : string)
  (num_same_team : Z) : bool :=
  match l with
  | [] => true
  | p :: l' =>
      if String.eqb (team p) new_player_team then
        if (num_same_team + 1) =? 3 then false
        else num_per_team_loop l' new_player_team (num_same_team + 1)
      else num_per_team_loop l' new_player_team num_same_team
  end.

Definition check_num_per_team (sq : Squad) (player : CandidatePlayer) : bool :=
  num_per_team_loop (players sq) (team player) 0.

(** [Squad.check_cost] *)
Definition check_cost (sq : Squad) (player : CandidatePlayer) : bool :=
  purchase_price player <=? budget sq.

(** The branch [add_player] leaves by: one per [return]. *)
Inductive AddOutcome : Type :=
| AlreadyInTeam
| TooManyInPosition
| CannotAfford
| TooManyFromTeam
| Added.

(** [if price: player.purchase_price = price] *)
Definition with_price (p : CandidatePlayer) (price : option Z)
  : CandidatePlayer :=
  match price with
  | Some v => if truthy price then set_purchase_price p v else p
  | None => p
  end.

(** The cascade of checks of [add_player], in source order. *)
Definition add_player_outcome (sq : Squad) (player : CandidatePlayer)
  (check_budget check_team : bool) : AddOutcome :=
  if negb (check_no_duplicate_player sq player) then AlreadyInTeam
  else if negb (check_num_in_position sq player) then TooManyInPosition
  else if check_budget && negb (check_cost sq player) then CannotAfford
  else if check_team && negb (check_num_per_team sq player) then TooManyFromTeam
  else Added.

(** What [add_player] prints on the way out when [self.verbose] is set. *)
Definition add_player_message (sq : Squad) (player : CandidatePlayer)
  (o : AddOutcome) : option string :=
  if verbose sq then
    match o with
    | AlreadyInTeam => Some ("Already have " ++ name player ++ " in team")
    | TooManyInPosition =>
        Some ("Unable to add player " ++ name player ++ " - too many "
              ++ position_name (position player))
    | CannotAfford => Some ("Cannot afford player " ++ name player)
    | TooManyFromTeam =>
        Some ("Cannot add " ++ name player ++ " - too many players from "
              ++ team player)
    | Added => None
    end
  else None.

(** The three updates at the end of [add_player]. *)
Definition commit_player (sq : Squad) (player : CandidatePlayer) : Squad :=
  mkSquad (players sq ++ [player])
          (budget sq - purchase_price player)
          (pp_set (num_position sq) (position player)
                  (pp_get (num_position sq) (position player) + 1))
          (free_subs sq) (subs_this_week sq) (verbose sq).

(** [Squad.add_player(p, price, ..., check_budget, check_team)], for [p] a
    candidate (the construction of a candidate from an id, a name or a
    [Player] row belongs to the player module).  The result is the returned
    boolean and the squad afterwards.  The candidate is an object of its
    own, as every caller passes it: the price override, which the source
    writes into the candidate before the checks, then touches no member of
    the squad. *)
Definition add_player (sq : Squad) (p : CandidatePlayer) (price : option Z)
  (check_budget check_team : bool) : bool * Squad :=
  let player := with_price p price in
  match add_player_outcome sq player check_budget check_team with
  | Added => (true, commit_player sq player)
  | _ => (false, sq)
  end.

Section SalePrice.

(** The price sources of [get_sell_price_for_player], which live outside
    the squad module: the live API ([fetcher]) and the database
    ([get_player(...).price(season, gameweek)]).  [None] stands for a
    failed call, a missing row or a [None] price. *)
Variable CURRENT_SEASON : string.
Variable NEXT_GAMEWEEK : Z.
Variable api_now_cost : Z -> option Z.
Variable db_price : Z -> string -> Z -> option Z.

(** [price_now] after the API attempt and the database fallback, before the
    purchase price is substituted for a missing value. *)
Definition current_price (pid : Z) (use_api : bool) (season : string)
  (gameweek : Z) : option Z :=
  let price_now :=
    if use_api && String.eqb season CURRENT_SEASON
               && (NEXT_GAMEWEEK <=? gameweek)
    then api_now_cost pid else None in
  if negb (truthy price_now) then db_price pid season gameweek
  else price_now.

(** [Squad.get_sell_price_for_player] *)
Definition get_sell_price_for_player (player : CandidatePlayer)
  (use_api : bool) (season : string) (gameweek : Z) : Z :=
  let price_bought := purchase_price player in
  let price_now := current_price (player_id player) use_api season gameweek in
  let price_now :=
    match price_now with
    | Some v => if truthy price_now then v else price_bought
    | None => price_bought
    end in
  if price_bought <? price_now then (price_now + price_bought) / 2
  else price_now.

(** The first player with the given id, as the [for] loop of
    [remove_player] finds it. *)
Fixpoint find_player (l : list CandidatePlayer) (pid : Z)
  : option CandidatePlayer :=
  match l with
  | [] => None
  | p :: l' => if player_id p =? pid then Some p else find_player l' pid
  end.

(** [self.players.remove(p)] for the [p] found above: the first entry with
    that id goes. *)
Fixpoint remove_first (l : list CandidatePlayer) (pid : Z)
  : list CandidatePlayer :=
  match l with
  | [] => []
  | p :: l' => if player_id p =? pid then l' else p :: remove_first l' pid
  end.

(** [Squad.remove_player(player_id, price, season, gameweek, use_api)] *)
Definition remove_player (sq : Squad) (pid : Z) (price : option Z)
  (season : string) (gameweek : Z) (use_api : bool) : bool * Squad :=
  match find_player (players sq) pid with
  | Some p =>
      let credit :=
        match price with
        | Some v =>
            if truthy price then v
            else get_sell_price_for_player p use_api season gameweek
        | None => get_sell_price_for_player p use_api season gameweek
        end in
      (true,
       mkSquad (remove_first (players sq) pid)
               (budget sq + credit)
               (pp_set (num_position sq) (position p)
                       (pp_get (num_position sq) (position p) - 1))
               (free_subs sq) (subs_this_week sq) (verbose sq))
  | None => (false, sq)
  end.

End SalePrice.

(** Sequences of calls on a squad, for the statements about every reachable
    squad. *)
Inductive SquadOp : Type :=
| OpAdd (p : CandidatePlayer) (price : option Z) (check_budget check_team : bool)
| OpRemove (pid : Z) (price : option Z) (season : string) (gameweek : Z)
           (use_api : bool).

Section SquadOps.

Variable CURRENT_SEASON : string.
Variable NEXT_GAMEWEEK : Z.
Variable api_now_cost : Z -> option Z.
Variable db_price : Z -> string -> Z -> option Z.

Definition apply_op (sq : Squad) (op : SquadOp) : bool * Squad :=
  match op with
  | OpAdd p price cb ct => add_player sq p price cb ct
  | OpRemove pid price season gw use_api =>
      remove_player CURRENT_SEASON NEXT_GAMEWEEK api_now_cost db_price
        sq pid price season gw use_api
  end.

(** Runs the calls in order; gives the returned booleans and the final
    squad. *)
Fixpoint run_ops (sq : Squad) (ops : list SquadOp) : list bool * Squad :=
  match ops with
  | [] => ([], sq)
  | op :: ops' =>
      let '(ok, sq') := apply_op sq op in
      let '(oks, sq'') := run_ops sq' ops' in
      (ok :: oks, sq'')
  end.

End SquadOps.

(** Number of players of a list in a position / from a team. *)
Definition count_position (l : list CandidatePlayer) (pos : Position) : Z :=
  Z.of_nat (List.length (filter (fun p => Position_eqb (position p) pos) l)).

Definition team_count (l : list CandidatePlayer) (t : string) : Z :=
  Z.of_nat (List.length (filter (fun p => String.eqb (team p) t) l)).

(** Calls made with both optional checks on, as by default. *)
Definition default_checks (op : SquadOp) : Prop :=
  match op with
  | OpAdd _ _ cb ct => cb = true /\ ct = true
  | OpRemove _ _ _ _ _ => True
  end.

(** Prices handed to the calls are not negative. *)
Definition prices_nonneg (op : SquadOp) : Prop :=
  match op with
  | OpAdd p price _ _ => 0 <= purchase_price (with_price p price)
  | OpRemove _ (Some v) _ _ _ => 0 <= v
  | OpRemove _ None _ _ _ => True
  end.

(** The bookkeeping of a squad agrees with its player list, the quotas hold
    and ids are unique. *)
Definition squad_ok (sq : Squad) : Prop :=
  (forall pos, pp_get (num_position sq) pos = count_position (players sq) pos)
  /\ (forall pos,
        count_position (players sq) pos <= pp_get TOTAL_PER_POSITION pos)
  /\ NoDup (map player_id (players sq)).

(** Budget side of the invariant: every purchase price is non-negative,
    and the budget is non-negative unless nothing has been bought yet. *)
Definition budget_ok (sq : Squad) : Prop :=
  (forall p, In p (players sq) -> 0 <= purchase_price p) /\
  (players sq = [] \/ 0 <= budget sq).

(* ================================================================== *)
(** ** optimization_utils.py: points hits and the expected leaf count *)
(* ================================================================== *)

(** A transfer directive is an [int] or a [str]. *)
Inductive Directive : Type :=
| DInt (n : Z)
| DStr (s : string).

(** [int(c)] for a one-character ASCII string. *)
Definition int_of_char (c : ascii) : result Z :=
  let k := Z.of_nat (nat_of_ascii c) in
  if (48 <=? k) && (k <=? 57) then ret (k - 48) else raise ValueError.

(** [s[-1]] *)
Definition last_char (s : string) : result ascii :=
  match String.length s with
  | O => raise IndexError
  | S k => match String.get k s with
           | Some c => ret c
           | None => raise IndexError
           end
  end.

Definition startswith (s pre : string) : bool := String.prefix pre s.

(** [calc_points_hit(num_transfers, free_transfers)] *)
Definition calc_points_hit (num_transfers : Directive) (free_transfers : Z)
  : result Z :=
  match num_transfers with
  | DInt n => ret (Z.max 0 (4 * (n - free_transfers)))
  | DStr s =>
      if String.eqb s "W" || String.eqb s "F" then ret 0
      else if (startswith s "B" || startswith s "T")
              && Nat.eqb (String.length s) 2
      then
        c <- last_char s ;;
        n <- int_of_char c ;;
        ret (Z.max 0 (4 * (n - free_transfers)))
      else raise (RuntimeError "Unexpected argument for num_transfers")
  end.

(** [calc_free_transfers(num_transfers, prev_free_transfers)] *)
Definition calc_free_transfers (num_transfers : Directive)
  (prev_free_transfers : Z) : result Z :=
  match num_transfers with
  | DInt n => ret (Z.max 1 (Z.min 2 (1 + prev_free_transfers - n)))
  | DStr s =>
      if String.eqb s "W" || String.eqb s "F" then ret 1
      else if (startswith s "B" || startswith s "T")
              && Nat.eqb (String.length s) 2
      then
        c <- last_char s ;;
        n <- int_of_char c ;;
        ret (Z.max 1 (Z.min 2 (1 + prev_free_transfers - n)))
      else raise (RuntimeError "Unexpected argument for num_transfers")
  end.

(** The chip directives of the claim about points hits: ["W"], ["F"], and
    the two-character codes ["Tn"], ["Bn"] with [n] a decimal digit. *)
Definition digit_char (n : Z) : ascii := ascii_of_nat (Z.to_nat (48 + n)).

Definition chip_code (chip : ascii) (n : Z) : Directive :=
  DStr (String chip (String (digit_char n) EmptyString)).

(** The paid-transfer component of a directive, in the words of the
    specification: [n] for the integer [n] and for ["Tn"] / ["Bn"]. *)
Definition paid_transfers (d : Directive) : option Z :=
  match d with
  | DInt n => Some n
  | DStr (String c (String k EmptyString)) =>
      if (Ascii.eqb c "T" || Ascii.eqb c "B")%char then
        match int_of_char k with
        | inr n => Some n
        | inl _ => None
        end
      else None
  | DStr _ => None
  end.

Definition int_of_bool (b : bool) : Z := if b then 1 else 0.

(** [count_expected_outputs(week, max_week, can_play_wildcard,
    can_play_free_hit, can_play_triple_captain, can_play_bench_boost)].
    The recursion does not end when [week >= max_week] on entry, so the
    embedding carries the interpreter's remaining recursion depth. *)
Fixpoint count_expected_outputs (depth : nat) (week max_week : Z)
  (can_play_wildcard can_play_free_hit can_play_triple_captain
   can_play_bench_boost : bool) : result Z :=
  match depth with
  | O => raise RecursionError
  | S depth' =>
      let week := week + 1 in
      if week =? max_week then
        ret (3 + int_of_bool can_play_wildcard
               + int_of_bool can_play_free_hit
               + 3 * int_of_bool can_play_triple_captain
               + 3 * int_of_bool can_play_bench_boost)
      else
        let rec := count_expected_outputs depth' week max_week in
        (* one pass of [for _ in range(3)] *)
        let pass (total : Z) : result Z :=
          a <- rec can_play_wildcard can_play_free_hit
                   can_play_triple_captain can_play_bench_boost ;;
          let total := total + a in
          total <- (if can_play_triple_captain then
                      c <- rec can_play_wildcard can_play_free_hit
                               false can_play_bench_boost ;;
                      ret (total + c)
                    else ret total) ;;
          (if can_play_bench_boost then
             c <- rec can_play_wildcard can_play_free_hit
                      can_play_triple_captain false ;;
             ret (total + c)
           else ret total) in
        total <- pass 0 ;;
        total <- pass total ;;
        total <- pass total ;;
        total <- (if can_play_wildcard then
                    c <- rec false can_play_free_hit
                             can_play_triple_captain can_play_bench_boost ;;
                    ret (total + c)
                  else ret total) ;;
        (if can_play_free_hit then
           c <- rec can_play_wildcard false
                    can_play_triple_captain can_play_bench_boost ;;
           ret (total + c)
         else ret total)
  end.

(* ================================================================== *)
(** ** squad.py: line-up, captains and the expected points of a gameweek *)
(* ================================================================== *)

Definition Qltb (a b : Q) : bool := negb (Qle_bool b a).

Fixpoint assoc_string {A} (k : string) (l : list (string * A)) : option A :=
  match l with
  | [] => None
  | (k', v) :: l' => if String.eqb k' k then Some v else assoc_string k l'
  end.

Fixpoint assoc_Z {A} (k : Z) (l : list (Z * A)) : option A :=
  match l with
  | [] => None
  | (k', v) :: l' => if k' =? k then Some v else assoc_Z k l'
  end.

(** [p.predicted_points[tag][gameweek]] *)
Definition lookup_points (p : CandidatePlayer) (tag : string) (gameweek : Z)
  : result Q :=
  match assoc_string tag (predicted_points p) with
  | None => raise KeyError
  | Some per_gw =>
      match assoc_Z gameweek per_gw with
      | None => raise KeyError
      | Some v => ret v
      end
  end.

(** [enumerate(l)], counting from [k]. *)
Fixpoint enumerate_from {A} (k : nat) (l : list A) : list (nat * A) :=
  match l with
  | [] => []
  | x :: l' => (k, x) :: enumerate_from (S k) l'
  end.

(** One step of a stable sort: [x] stood before every element of [l] and is
    put behind exactly the elements that must come strictly before it. *)
Fixpoint insert_by {A} (before : A -> A -> bool) (x : A) (l : list A)
  : list A :=
  match l with
  | [] => [x]
  | y :: l' => if before y x then y :: insert_by before x l' else x :: l
  end.

Definition stable_sort {A} (before : A -> A -> bool) (l : list A) : list A :=
  fold_right (insert_by before) [] l.

(** [v.sort(key=itemgetter(1), reverse=True)]: descending, stable. *)
Definition sort_by_points_desc {A} (l : list (A * Q)) : list (A * Q) :=
  stable_sort (fun y x => Qltb (snd x) (snd y)) l.

(** [np.argsort(points)] on the few substitutes: ascending, stable. *)
Definition sort_by_points_asc {A} (l : list (A * Q)) : list (A * Q) :=
  stable_sort (fun y x => Qltb (snd y) (snd x)) l.

(** Writes through a reference to the [i]-th player of the squad. *)
Fixpoint set_at {A} (l : list A) (i : nat) (f : A -> A) : list A :=
  match l, i with
  | [], _ => []
  | x :: l', O => f x :: l'
  | x :: l', S i' => x :: set_at l' i' f
  end.

(** An entry of [player_dict]: the player, held by its index in
    [self.players], and its points prediction. *)
Definition Entry : Type := (nat * Q)%type.

(** [except KeyError: points_prediction = 0] *)
Definition prediction_or_zero (p : CandidatePlayer) (tag : string)
  (gameweek : Z) : Q :=
  match lookup_points p tag gameweek with
  | inr v => v
  | inl _ => 0%Q
  end.

(** [player_dict[pos]] before sorting: the players of that position in squad
    order. *)
Definition entries_for (l : list CandidatePlayer) (tag : string)
  (gameweek : Z) (pos : Position) : list Entry :=
  map (fun ip => (fst ip, prediction_or_zero (snd ip) tag gameweek))
      (filter (fun ip => Position_eqb (position (snd ip)) pos)
              (enumerate_from 0 l)).

(** [player_dict] after the sorting loop of [optimize_subs]. *)
Definition build_player_dict (l : list CandidatePlayer) (tag : string)
  (gameweek : Z) : PerPosition (list Entry) :=
  mkPerPosition (sort_by_points_desc (entries_for l tag gameweek GK))
                (sort_by_points_desc (entries_for l tag gameweek DEF))
                (sort_by_points_desc (entries_for l tag gameweek MID))
                (sort_by_points_desc (entries_for l tag gameweek FWD)).

(** [player_dict["GK"][0]] and [player_dict["GK"][1]] *)
Definition first_two_goalkeepers (d : PerPosition (list Entry))
  : result (nat * nat) :=
  match at_GK d with
  | (i, _) :: (j, _) :: _ => ret (i, j)
  | _ => raise IndexError
  end.

(** The inner loop of [apply_formation] for one position. *)
Definition apply_formation_position (l : list CandidatePlayer)
  (entries : list Entry) (limit : Z) : list CandidatePlayer :=
  fold_left
    (fun acc ie =>
       set_at acc (fst (snd ie))
              (fun p => set_is_starting p (Z.of_nat (fst ie) <? limit)))
    (enumerate_from 0 entries) l.

(** [Squad.apply_formation(player_dict, formation)].  [formation] is [None]
    when no formation was kept; [formation[i]] is then evaluated, and fails,
    as soon as a position has a player. *)
Definition apply_formation (l : list CandidatePlayer)
  (player_dict : PerPosition (list Entry)) (formation : option (Z * Z * Z))
  : result (list CandidatePlayer) :=
  match formation with
  | Some (nd, nm, nf) =>
      let l := apply_formation_position l (at_DEF player_dict) nd in
      let l := apply_formation_position l (at_MID player_dict) nm in
      ret (apply_formation_position l (at_FWD player_dict) nf)
  | None =>
      match at_DEF player_dict, at_MID player_dict, at_FWD player_dict with
      | [], [], [] => ret l
      | _, _, _ => raise TypeError
      end
  end.

Section ScoringArithmetic.

Context {F : PyFloat}.

(** [Squad.total_points_for_starting_11(gameweek, tag, triple_captain)] *)
Fixpoint total_points_loop (l : list CandidatePlayer) (gameweek : Z)
  (tag : string) (triple_captain : bool) (total : Q) : result Q :=
  match l with
  | [] => ret total
  | player :: l' =>
      if is_starting player then
        pts <- lookup_points player tag gameweek ;;
        let total := float_add total pts in
        let total :=
          if is_captain player then
            let total := float_add total pts in
            if triple_captain then float_add total pts else total
          else total in
        total_points_loop l' gameweek tag triple_captain total
      else total_points_loop l' gameweek tag triple_captain total
  end.

Definition total_points_for_starting_11 (l : list CandidatePlayer)
  (gameweek : Z) (tag : string) (triple_captain : bool) : result Q :=
  total_points_loop l gameweek tag triple_captain 0%Q.

(** The points of the listed players, failing on the first missing
    prediction. *)
Fixpoint entries_with_points (l : list (nat * CandidatePlayer)) (tag : string)
  (gameweek : Z) : result (list Entry) :=
  match l with
  | [] => ret []
  | (i, p) :: l' =>
      pts <- lookup_points p tag gameweek ;;
      rest <- entries_with_points l' tag gameweek ;;
      ret ((i, pts) :: rest)
  end.

(** [Squad.order_substitutes]: only [ValueError] is caught there, so a
    missing prediction propagates. *)
Definition order_substitutes (l : list CandidatePlayer) (gameweek : Z)
  (tag : string) : result (list CandidatePlayer) :=
  let subs := filter (fun ip => negb (is_starting (snd ip)))
                     (enumerate_from 0 l) in
  points <- entries_with_points subs tag gameweek ;;
  let ordered_sub_inds := rev (sort_by_points_asc points) in
  ret (fold_left
         (fun acc ke =>
            set_at acc (fst (snd ke))
                   (fun p => set_sub_position p (Z.of_nat (fst ke))))
         (enumerate_from 0 ordered_sub_inds) l).

(** The formation loop of [optimize_subs]. *)
Fixpoint formation_loop (l : list CandidatePlayer)
  (player_dict : PerPosition (list Entry)) (gameweek : Z) (tag : string)
  (formations : list (Z * Z * Z)) (best_score : Q)
  (best_formation : option (Z * Z * Z))
  : result (list CandidatePlayer * Q * option (Z * Z * Z)) :=
  match formations with
  | [] => ret (l, best_score, best_formation)
  | f :: formations' =>
      l <- apply_formation l player_dict (Some f) ;;
      score <- total_points_for_starting_11 l gameweek tag false ;;
      if Qle_bool best_score score then
        formation_loop l player_dict gameweek tag formations' score (Some f)
      else
        formation_loop l player_dict gameweek tag formations' best_score
                       best_formation
  end.

(** [Squad.optimize_subs(gameweek, tag)]: the players afterwards and the
    returned best score. *)
Definition optimize_subs (l : list CandidatePlayer) (gameweek : Z)
  (tag : string) : result (list CandidatePlayer * Q) :=
  let player_dict := build_player_dict l tag gameweek in
  '(first, second) <- first_two_goalkeepers player_dict ;;
  let l := set_at l first (fun p => set_is_starting p true) in
  let l := set_at l second (fun p => set_is_starting p false) in
  '(l, best_score, best_formation) <-
     formation_loop l player_dict gameweek tag FORMATIONS 0%Q None ;;
  l <- apply_formation l player_dict best_formation ;;
  l <- order_substitutes l gameweek tag ;;
  ret (l, best_score).

(** [Squad.pick_captains(gameweek, tag)] *)
Definition pick_captains (l : list CandidatePlayer) (gameweek : Z)
  (tag : string) : result (list CandidatePlayer) :=
  let l := map (fun p => set_captaincy p false false) l in
  player_list <- entries_with_points (enumerate_from 0 l) tag gameweek ;;
  match sort_by_points_desc player_list with
  | (c, _) :: (vc, _) :: _ =>
      let l := set_at l c (fun p => set_captaincy p true (is_vice_captain p)) in
      ret (set_at l vc (fun p => set_captaincy p (is_captain p) true))
  | _ => raise IndexError
  end.

(** [sorted(outfield_subs, key=lambda p: p.sub_position)] *)
Definition sort_by_sub_position (l : list CandidatePlayer)
  : list CandidatePlayer :=
  stable_sort (fun y x => sub_position y <? sub_position x) l.

(** [sub_weights["Outfield"][i]] for the default weights [(1, 1, 1)]. *)
Definition outfield_weight (i : nat) : result Q :=
  if (i <? 3)%nat then ret 1%Q else raise IndexError.

Fixpoint outfield_subs_loop (l : list (nat * CandidatePlayer)) (gameweek : Z)
  (tag : string) (total : Q) : result Q :=
  match l with
  | [] => ret total
  | (i, player) :: l' =>
      w <- outfield_weight i ;;
      pts <- lookup_points player tag gameweek ;;
      outfield_subs_loop l' gameweek tag (float_add total (float_mul w pts))
  end.

(** [Squad.total_points_for_subs(gameweek, tag)] with the default weights. *)
Definition total_points_for_subs (l : list CandidatePlayer) (gameweek : Z)
  (tag : string) : result Q :=
  let outfield_subs :=
    sort_by_sub_position
      (filter (fun p => negb (is_starting p)
                        && negb (Position_eqb (position p) GK)) l) in
  match filter (fun p => negb (is_starting p)
                         && Position_eqb (position p) GK) l with
  | [] => raise IndexError
  | gk_sub :: _ =>
      pts <- lookup_points gk_sub tag gameweek ;;
      outfield_subs_loop (enumerate_from 0 outfield_subs) gameweek tag
                         (float_mul 1 pts)
  end.

End ScoringArithmetic.

Definition set_players (sq : Squad) (l : list CandidatePlayer) : Squad :=
  mkSquad l (budget sq) (num_position sq) (free_subs sq) (subs_this_week sq)
          (verbose sq).

Section ExpectedPoints.

Context {F : PyFloat}.

(** [CandidatePlayer.calc_predicted_points(tag)] belongs to the player
    module: it loads the predictions of a player for [tag]. *)
Variable calc_predicted_points : string -> CandidatePlayer -> CandidatePlayer.

(** [Squad._calc_expected_points(tag)] *)
Definition _calc_expected_points (l : list CandidatePlayer) (tag : string)
  : list CandidatePlayer :=
  map (calc_predicted_points tag) l.

(** [Squad.get_expected_points(gameweek, tag, bench_boost, triple_captain)]:
    the score and the squad with its line-up flags rewritten. *)
Definition get_expected_points (sq : Squad) (gameweek : Z) (tag : string)
  (bench_boost triple_captain : bool) : result (Q * Squad) :=
  if negb (is_complete sq) then raise (RuntimeError "Squad is incomplete")
  else
    let l := _calc_expected_points (players sq) tag in
    '(l, _) <- optimize_subs l gameweek tag ;;
    l <- pick_captains l gameweek tag ;;
    total_score <- total_points_for_starting_11 l gameweek tag triple_captain ;;
    if bench_boost then
      subs <- total_points_for_subs l gameweek tag ;;
      ret (float_add total_score subs, set_players sq l)
    else ret (total_score, set_players sq l).

End ExpectedPoints.

(** A computation whose only failures are a missing prediction ([KeyError])
    or the use of a formation that was never set ([TypeError]). *)
Definition fails_only_on_key_or_type {A} (r : result A) : Prop :=
  forall e, r = inl e -> e = KeyError \/ e = TypeError.

(* ================================================================== *)
(** ** optimization_utils.py: discounting and the single-transfer search *)
(* ================================================================== *)

Definition Qmax (a b : Q) : Q := if Qle_bool b a then a else b.

(** [get_discount_factor(next_gw, pred_gw, discount_type, discount)] *)
Definition get_discount_factor {F : PyFloat} (next_gw pred_gw : Z)
  (discount_type : string) (discount : Q) : result Q :=
  if negb (String.eqb discount_type "exp" || String.eqb discount_type "const"
           || String.eqb discount_type "constant")
  then raise (Exception "unrecognised discount type, should be exp or const")
  else
    let n_ahead := pred_gw - next_gw in
    if String.eqb discount_type "exp" then float_pow discount n_ahead
    else
      ret (Qmax (float_sub 1 (float_mul (float_sub 1 discount)
                                        (inject_Z n_ahead)))
                0%Q).

(** The defaults every caller uses: ["exp"] and the float [14 / 15]. *)
Definition default_discount_factor {F : PyFloat} (next_gw pred_gw : Z)
  : result Q :=
  get_discount_factor next_gw pred_gw "exp" (float_div 14 15).

(** [gw == bench_boost_gw] for a value that may be [None]. *)
Definition is_gameweek (gw : Z) (o : option Z) : bool :=
  match o with
  | Some g => gw =? g
  | None => false
  end.

(** [min(gameweek_range)] of a non-empty list. *)
Definition list_min (first : Z) (rest : list Z) : Z := fold_left Z.min rest first.

Record BestTransfer : Type := mkBest {
  best_score : Q;
  best_pid_out : Z;
  best_pid_in : Z;
  best_squad : option Squad        (* [None]: not assigned yet *)
}.

Section SingleTransfer.

Variable CURRENT_SEASON : string.
Variable NEXT_GAMEWEEK : Z.
Variable api_now_cost : Z -> option Z.
Variable db_price : Z -> string -> Z -> option Z.
Variable calc_predicted_points : string -> CandidatePlayer -> CandidatePlayer.

(** [get_predicted_points(gameweek, position, tag)] of the utilities module:
    the players of a position with their summed predicted points, best
    first.  A row is held by its player id. *)
Variable get_predicted_points : list Z -> Position -> string -> list (Z * Q).

(** [CandidatePlayer(p, season, gameweek)] of the player module. *)
Variable CandidatePlayer_init : Z -> string -> Z -> CandidatePlayer.

Context {F : PyFloat}.

(** The scoring loop over [gameweek_range] that every search ends with:
    the discounted total and the squad as the scoring leaves it. *)
Fixpoint score_gameweeks (sq : Squad) (gws : list Z) (first_gw : Z)
  (tag : string) (bench_boost_gw triple_captain_gw : option Z) (total : Q)
  : result (Q * Squad) :=
  match gws with
  | [] => ret (total, sq)
  | gw :: gws' =>
      let bench_boost := is_gameweek gw bench_boost_gw in
      let triple_captain :=
        negb bench_boost && is_gameweek gw triple_captain_gw in
      '(pts, sq) <- get_expected_points calc_predicted_points sq gw tag
                      bench_boost triple_captain ;;
      d <- default_discount_factor first_gw gw ;;
      score_gameweeks sq gws' first_gw tag bench_boost_gw triple_captain_gw
                      (float_add total (float_mul pts d))
  end.

(** The discounted score of a squad over a range of gameweeks, in the words
    of the specification: for each gameweek of the range, the expected
    points of the squad in that gameweek (with the bench boost or the triple
    captain when it is the gameweek of that chip) times the discount factor
    of the gameweek counted from [first_gw]; these are added to [total] in
    the order of the range and give [total'].  [sq'] is the squad with the
    line-up of the last gameweek. *)
Inductive discounted_score (first_gw : Z) (tag : string)
  (bench_boost_gw triple_captain_gw : option Z)
  : Squad -> list Z -> Q -> Q -> Squad -> Prop :=
| score_of_no_gameweek (sq : Squad) (total : Q) :
    discounted_score first_gw tag bench_boost_gw triple_captain_gw
      sq [] total total sq
| score_of_gameweek (sq : Squad) (gw : Z) (gws : list Z) (total : Q)
    (points : Q) (sq1 : Squad) (factor total' : Q) (sq' : Squad) :
    get_expected_points calc_predicted_points sq gw tag
      (is_gameweek gw bench_boost_gw)
      (negb (is_gameweek gw bench_boost_gw)
       && is_gameweek gw triple_captain_gw) = ret (points, sq1) ->
    default_discount_factor first_gw gw = ret factor ->
    discounted_score first_gw tag bench_boost_gw triple_captain_gw
      sq1 gws (float_add total (float_mul points factor)) total' sq' ->
    discounted_score first_gw tag bench_boost_gw triple_captain_gw
      sq (gw :: gws) total total' sq'.

(** The [for p_in in ordered_player_lists[position]] loop: the squad
    afterwards and the id [p_in] was last bound to by this loop ([None] when
    the list is empty). *)
Fixpoint scan_replacements (new_squad : Squad) (candidates : list (Z * Q))
  (pid_out : Z) (season : string) (transfer_gw : Z) : Squad * option Z :=
  match candidates with
  | [] => (new_squad, None)
  | p_in :: rest =>
      let continue sq :=
        let '(sq', last) := scan_replacements sq rest pid_out season
                              transfer_gw in
        (sq', match last with Some _ => last | None => Some (fst p_in) end) in
      if fst p_in =? pid_out then continue new_squad
      else
        let '(added_ok, sq) :=
          add_player new_squad
            (CandidatePlayer_init (fst p_in) season transfer_gw)
            None true true in
        if added_ok then (sq, Some (fst p_in)) else continue sq
  end.

(** One pass of the outer loop up to the total: remove [p_out] from a copy,
    scan for a replacement, score. *)
Definition single_transfer_trial (squad : Squad) (p_out : CandidatePlayer)
  (tag : string) (first_gw : Z) (gameweek_range : list Z) (season : string)
  (bench_boost_gw triple_captain_gw : option Z)
  : result (Q * Squad * option Z) :=
  let transfer_gw := list_min first_gw (tl gameweek_range) in
  let new_squad := squad in
  let new_squad :=
    snd (remove_player CURRENT_SEASON NEXT_GAMEWEEK api_now_cost db_price
           new_squad (player_id p_out) None season transfer_gw false) in
  let '(new_squad, p_in) :=
    scan_replacements new_squad
      (get_predicted_points gameweek_range (position p_out) tag)
      (player_id p_out) season transfer_gw in
  '(total_points, new_squad) <-
     score_gameweeks new_squad gameweek_range first_gw tag bench_boost_gw
                     triple_captain_gw 0%Q ;;
  ret (total_points, new_squad, p_in).

(** The outer loop [for p_out in squad.players].  [p_in] is the function's
    variable of that name: it keeps its value from one pass to the next. *)
Fixpoint single_transfer_loop (squad : Squad) (outs : list CandidatePlayer)
  (tag : string) (first_gw : Z) (gameweek_range : list Z) (season : string)
  (bench_boost_gw triple_captain_gw : option Z)
  (best : BestTransfer) (p_in : option Z) : result BestTransfer :=
  match outs with
  | [] => ret best
  | p_out :: outs' =>
      '(total_points, new_squad, bound) <-
         single_transfer_trial squad p_out tag first_gw gameweek_range season
                               bench_boost_gw triple_captain_gw ;;
      let p_in := match bound with Some _ => bound | None => p_in end in
      if Qltb (best_score best) total_points then
        match p_in with
        | None => raise (UnboundLocalError "p_in")
        | Some pid_in =>
            single_transfer_loop squad outs' tag first_gw gameweek_range
              season bench_boost_gw triple_captain_gw
              (mkBest total_points (player_id p_out) pid_in (Some new_squad))
              p_in
        end
      else
        single_transfer_loop squad outs' tag first_gw gameweek_range season
          bench_boost_gw triple_captain_gw best p_in
  end.

(** [make_optimum_single_transfer(squad, tag, gameweek_range, season,
    bench_boost_gw=..., triple_captain_gw=...)] (the progress callback is
    left out). *)
Definition make_optimum_single_transfer (squad : Squad) (tag : string)
  (gameweek_range : list Z) (season : string)
  (bench_boost_gw triple_captain_gw : option Z)
  : result (Squad * list Z * list Z) :=
  let gameweek_range :=
    match gameweek_range with [] => [NEXT_GAMEWEEK] | _ => gameweek_range end in
  let first_gw := hd NEXT_GAMEWEEK gameweek_range in
  best <- single_transfer_loop squad (players squad) tag first_gw
            gameweek_range season bench_boost_gw triple_captain_gw
            (mkBest (-1)%Q 0 0 None) None ;;
  match best_squad best with
  | None => raise (UnboundLocalError "best_squad")
  | Some sq => ret (sq, [best_pid_out best], [best_pid_in best])
  end.

End SingleTransfer.

(** A candidate the replacement scan passes over: the removed player
    himself, or one [add_player] turns down. *)
Definition skipped_by_scan (CandidatePlayer_init : Z -> string -> Z -> CandidatePlayer)
  (sq : Squad) (pid_out : Z) (season : string) (transfer_gw : Z) (d : Z * Q)
  : Prop :=
  fst d = pid_out \/
  add_player sq (CandidatePlayer_init (fst d) season transfer_gw)
             None true true = (false, sq).

(* ================================================================== *)
(** ** Strategy records; [find_best_strat_from_json] *)
(* ================================================================== *)

(** [d[k] = v] on a dict kept as an association list. *)
Fixpoint dict_set {A} (d : list (Z * A)) (k : Z) (v : A) : list (Z * A) :=
  match d with
  | [] => [(k, v)]
  | (k', v') :: d' =>
      if k' =? k then (k, v) :: d' else (k', v') :: dict_set d' k v
  end.

(** The [strategy_output] dict of [apply_strategy], which is also what a
    leaf file holds. *)
Record StrategyOutput : Type := mkOutput {
  total_score : Q;
  points_per_gw : list (Z * Q);
  players_in : list (Z * list Z);
  players_out : list (Z * list Z);
  cards_played : list (Z * option string)
}.

(** [needle in haystack] for strings. *)
Fixpoint contains (haystack needle : string) : bool :=
  String.prefix needle haystack
  || match haystack with
     | EmptyString => false
     | String _ rest => contains rest needle
     end.

(** ["strategy_{}_".format(tag)] and the name [optimize] gives a leaf file. *)
Definition strategy_marker (tag : string) : string :=
  "strategy_" ++ tag ++ "_".

Definition leaf_filename (tag sid : string) : string :=
  strategy_marker tag ++ sid ++ ".json".

(** The loop of [find_best_strat_from_json] over [os.listdir(OUTPUT_DIR)],
    each file given with the record [json.load] reads from it. *)
Fixpoint best_strat_loop (tag : string) (files : list (string * StrategyOutput))
  (best_score : Q) (best_strat : option StrategyOutput)
  : option StrategyOutput :=
  match files with
  | [] => best_strat
  | (filename, strat) :: files' =>
      if negb (contains filename (strategy_marker tag)) then
        best_strat_loop tag files' best_score best_strat
      else if Qltb best_score (total_score strat) then
        best_strat_loop tag files' (total_score strat) (Some strat)
      else best_strat_loop tag files' best_score best_strat
  end.

(** [find_best_strat_from_json(tag)]; [None] is Python's [None]. *)
Definition find_best_strat_from_json (tag : string)
  (file_list : list (string * StrategyOutput)) : option StrategyOutput :=
  best_strat_loop tag file_list 0%Q None.

(* ================================================================== *)
(** ** optimization_utils.py: [get_starting_squad], [apply_strategy] *)
(* ================================================================== *)

(** A row of the [transaction] table (schema.py). *)
Record Transaction : Type := mkTransaction {
  t_id : Z;
  t_player_id : Z;
  t_gameweek : Z;
  t_bought_or_sold : Z;
  t_season : string;
  t_tag : string;
  t_price : Z;
  t_free_hit : Z
}.

Definition Directive_eqb (a b : Directive) : bool :=
  match a, b with
  | DInt n, DInt m => n =? m
  | DStr s, DStr t => String.eqb s t
  | _, _ => false
  end.

Definition directive_in (d : Directive) (l : list Directive) : bool :=
  existsb (Directive_eqb d) l.

(** [strat[0][gw][0] if isinstance(strat[0][gw], str) else None] *)
Definition card_of (d : Directive) : result (option string) :=
  match d with
  | DInt _ => ret None
  | DStr EmptyString => raise IndexError
  | DStr (String c _) => ret (Some (String c EmptyString))
  end.

(** The locals of [apply_strategy] that live across gameweeks.  [rp] is
    [None] while the variable is unbound. *)
Record LoopState (Rng : Type) : Type := mkLoopState {
  new_squad : Squad;
  squad_before_free_hit : option Squad;
  rp : option (list Z);
  strategy_output : StrategyOutput;
  rng : Rng
}.
Arguments mkLoopState {Rng} _ _ _ _ _.
Arguments new_squad {Rng} _.
Arguments squad_before_free_hit {Rng} _.
Arguments rp {Rng} _.
Arguments strategy_output {Rng} _.
Arguments rng {Rng} _.

(** Lines 649-651: go back to the squad remembered before a free hit. *)
Definition restore_after_free_hit {Rng} (st : LoopState Rng) : LoopState Rng :=
  match squad_before_free_hit st with
  | Some sq => mkLoopState sq None (rp st) (strategy_output st) (rng st)
  | None => st
  end.

Section ApplyStrategy.

Context {F : PyFloat}.

Variable CURRENT_SEASON : string.
Variable NEXT_GAMEWEEK : Z.
Variable api_now_cost : Z -> option Z.
Variable db_price : Z -> string -> Z -> option Z.
Variable calc_predicted_points : string -> CandidatePlayer -> CandidatePlayer.
Variable get_predicted_points : list Z -> Position -> string -> list (Z * Q).
Variable CandidatePlayer_init : Z -> string -> Z -> CandidatePlayer.

(** The [transaction] table, in the order of its ids. *)
Variable transactions : list Transaction.

(** The state of the random source the randomised searches draw from. *)
Variable Rng : Type.

(** [get_squad_value] of the utilities module; [apply_strategy] calls it
    with a squad and, on the free-hit path, with a list of player ids. *)
Variable get_squad_value : Squad + list Z -> result Z.

(** The searches [apply_strategy] delegates to and no claim depends on,
    taken as they come: [make_optimum_double_transfer(squad, tag, gw_range,
    bench_boost_gw, triple_captain_gw)], [make_new_squad(budget, num_iter,
    tag, gw_range, bench_boost_gw, triple_captain_gw)] (which returns [None]
    when no trial scored above 0) and [make_random_transfers(squad, tag,
    nsubs, gw_range, num_iter, bench_boost_gw, triple_captain_gw)]. *)
Variable make_optimum_double_transfer :
  Squad -> string -> list Z -> option Z -> option Z ->
  result (Squad * list Z * list Z).
Variable make_new_squad :
  Rng -> Z -> Z -> string -> list Z -> option Z -> option Z ->
  result (option Squad * Rng).
Variable make_random_transfers :
  Rng -> Squad -> string -> Directive -> list Z -> Z -> option Z -> option Z ->
  result (option Squad * list Z * list Z * Rng).

(** [get_starting_squad()] *)
Definition get_starting_squad : Squad :=
  fold_left
    (fun s trans =>
       if t_bought_or_sold trans =? -1 then
         snd (remove_player CURRENT_SEASON NEXT_GAMEWEEK api_now_cost db_price
                s (t_player_id trans) (Some (t_price trans))
                CURRENT_SEASON NEXT_GAMEWEEK false)
       else
         snd (add_player s
                (CandidatePlayer_init (t_player_id trans) (t_season trans)
                   (t_gameweek trans))
                (Some (t_price trans)) false false))
    (filter (fun trans => t_free_hit trans =? 0) transactions)
    Squad_default.

(** The loop that finds the chip gameweeks; the last matching item wins. *)
Definition chip_gameweek (plan : list (Z * Directive)) (codes : list Directive)
  : option Z :=
  fold_left
    (fun acc item => if directive_in (snd item) codes then Some (fst item)
                     else acc)
    plan None.

Definition player_ids (sq : Squad) : list Z := map player_id (players sq).

(** What a branch of the [if]/[elif] chain leaves in [new_squad], [rp],
    [ap], [squad_before_free_hit] and the random source.  [new_squad] may be
    [None] after the randomised search; [rp] may still be unbound. *)
Definition BranchResult : Type :=
  (option Squad * option (list Z) * list Z * option Squad * Rng)%type.

(** The [if]/[elif] chain of one gameweek (lines 654-733). *)
Definition apply_directive (st : LoopState Rng) (d : Directive) (tag : string)
  (gw : Z) (gw_range : list Z) (num_iter : Z)
  (bench_boost_gw triple_captain_gw : option Z) : result BranchResult :=
  let keep := squad_before_free_hit st in
  let single :=
    '(sq, out, inn) <-
       make_optimum_single_transfer CURRENT_SEASON NEXT_GAMEWEEK api_now_cost
         db_price calc_predicted_points get_predicted_points
         CandidatePlayer_init (new_squad st) tag gw_range CURRENT_SEASON
         bench_boost_gw triple_captain_gw ;;
     ret (Some sq, Some out, inn, keep, rng st) in
  if Directive_eqb d (DInt 0) then
    ret (Some (new_squad st), Some [], [], keep, rng st)
  else if Directive_eqb d (DInt 1) then single
  else if Directive_eqb d (DInt 2) then
    '(sq, out, inn) <-
       make_optimum_double_transfer (new_squad st) tag gw_range
         bench_boost_gw triple_captain_gw ;;
    ret (Some sq, Some out, inn, keep, rng st)
  else if Directive_eqb d (DStr "W") then
    let removed := player_ids (new_squad st) in
    budget <- get_squad_value (inl (new_squad st)) ;;
    '(made, g) <- make_new_squad (rng st) budget num_iter tag gw_range
                    bench_boost_gw triple_captain_gw ;;
    match made with
    | None => raise AttributeError
    | Some sq => ret (Some sq, Some removed, player_ids sq, keep, g)
    end
  else if Directive_eqb d (DStr "F") then
    let remembered := Some (new_squad st) in
    (* line 694 stores the id list in [new_squad], not in [rp] *)
    let ids := player_ids (new_squad st) in
    budget <- get_squad_value (inr ids) ;;
    '(made, g) <- make_new_squad (rng st) budget num_iter tag [gw]
                    bench_boost_gw triple_captain_gw ;;
    match made with
    | None => raise AttributeError
    | Some sq => ret (Some sq, rp st, player_ids sq, remembered, g)
    end
  else if directive_in d [DStr "B0"; DStr "T0"] then
    ret (Some (new_squad st), Some [], [], keep, rng st)
  else if directive_in d [DStr "B1"; DStr "T1"] then single
  else
    '(made, out, inn, g) <-
       make_random_transfers (rng st) (new_squad st) tag d gw_range num_iter
         bench_boost_gw triple_captain_gw ;;
    ret (made, Some out, inn, keep, g).

(** One pass of the gameweek loop.  The boolean is [true] when the pass
    ends in [break]. *)
Definition process_gameweek (plan : list (Z * Directive)) (tag : string)
  (baseline_dict : option (list (Z * Q))) (num_iter : Z)
  (bench_boost_gw triple_captain_gw : option Z)
  (st : LoopState Rng) (gw : Z) (gw_range : list Z)
  : result (bool * LoopState Rng) :=
  let st := restore_after_free_hit st in
  d <- match assoc_Z gw plan with
       | Some d => ret d
       | None => raise KeyError
       end ;;
  '(made, removed, added, keep, g) <-
     apply_directive st d tag gw gw_range num_iter bench_boost_gw
                     triple_captain_gw ;;
  sq <- match made with
        | Some sq => ret sq
        | None => raise AttributeError
        end ;;
  let bench_boost := is_gameweek gw bench_boost_gw in
  let triple_captain := negb bench_boost && is_gameweek gw triple_captain_gw in
  '(pts, sq) <- get_expected_points calc_predicted_points sq gw tag
                  bench_boost triple_captain ;;
  factor <- default_discount_factor (hd gw gw_range) gw ;;
  let score := float_mul pts factor in
  let out := strategy_output st in
  let total := float_add (total_score out) score in
  let out := mkOutput total (points_per_gw out) (players_in out)
                      (players_out out) (cards_played out) in
  too_low <- match baseline_dict with
             | None | Some [] => ret false
             | Some baseline =>
                 match assoc_Z gw baseline with
                 | None => raise KeyError
                 | Some b => ret (Qltb 5 (float_sub b total))
                 end
             end ;;
  if too_low : bool then ret (true, mkLoopState sq keep removed out g)
  else
    card <- card_of d ;;
    match removed with
    | None => raise (UnboundLocalError "rp")
    | Some out_ids =>
        ret (false,
             mkLoopState sq keep removed
               (mkOutput total
                  (dict_set (points_per_gw out) gw score)
                  (dict_set (players_in out) gw added)
                  (dict_set (players_out out) gw out_ids)
                  (dict_set (cards_played out) gw card))
               g)
    end.

(** [for igw, gw in enumerate(gameweeks)], with [gw_range = gameweeks[igw:]]. *)
Fixpoint gameweek_loop (plan : list (Z * Directive)) (tag : string)
  (baseline_dict : option (list (Z * Q))) (num_iter : Z)
  (bench_boost_gw triple_captain_gw : option Z)
  (st : LoopState Rng) (gw_range : list Z) : result (LoopState Rng) :=
  match gw_range with
  | [] => ret st
  | gw :: later =>
      '(stop, st) <- process_gameweek plan tag baseline_dict num_iter
                       bench_boost_gw triple_captain_gw st gw gw_range ;;
      if stop : bool then ret st
      else gameweek_loop plan tag baseline_dict num_iter bench_boost_gw
                         triple_captain_gw st later
  end.

(** [sorted(strat[0].keys())] *)
Definition sorted_gameweeks (plan : list (Z * Directive)) : list Z :=
  stable_sort (fun y x => y <? x) (map fst plan).

(** [apply_strategy(strat, tag, baseline_dict, num_iter)], for
    [strat = (plan, points_hit)]; [None] is the empty dict it returns when
    the total is not above 0. *)
Definition apply_strategy (strat : list (Z * Directive) * Q) (tag : string)
  (baseline_dict : option (list (Z * Q))) (num_iter : Z) (seed : Rng)
  : result (option StrategyOutput) :=
  let plan := fst strat in
  let starting_squad := get_starting_squad in
  let gameweeks := sorted_gameweeks plan in
  let initial_output := mkOutput (-1 * snd strat)%Q [] [] [] [] in
  let bench_boost_gw := chip_gameweek plan [DStr "B0"; DStr "B1"] in
  let triple_captain_gw := chip_gameweek plan [DStr "T0"; DStr "T1"] in
  st <- gameweek_loop plan tag baseline_dict num_iter bench_boost_gw
          triple_captain_gw
          (mkLoopState starting_squad None None initial_output seed)
          gameweeks ;;
  if Qltb 0 (total_score (strategy_output st)) then
    ret (Some (strategy_output st))
  else ret None.

End ApplyStrategy.

From Stdlib Require Import DecimalString Permutation.

(* ================================================================== *)
(** ** optimization_utils.py: progress increments *)
(* ================================================================== *)

(** [s[1]] *)
Definition second_char (s : string) : result ascii :=
  match String.get 1 s with
  | Some c => ret c
  | None => raise IndexError
  end.

(** [get_num_increments(num_transfers, num_iterations)]; the message it
    prints for an unrecognised value is left out. *)
Definition get_num_increments (num_transfers : Directive) (num_iterations : Z)
  : result Z :=
  num_transfers <-
    match num_transfers with
    | DStr s =>
        if (startswith s "B" || startswith s "T")
           && Nat.eqb (String.length s) 2
        then c <- second_char s ;; n <- int_of_char c ;; ret (DInt n)
        else ret num_transfers
    | DInt _ => ret num_transfers
    end ;;
  match num_transfers with
  | DStr s =>
      if String.eqb s "W" || String.eqb s "F" then ret num_iterations
      else ret 1
  | DInt n =>
      if 2 <? n then ret num_iterations
      else if n =? 1 then ret 15
      else if n =? 2 then ret 105
      else ret 1
  end.

(* ================================================================== *)
(** ** fill_transfersuggestion_table.py: the tree of strategies *)
(* ================================================================== *)

(** [str(n)] for an integer. *)
Definition str_int (n : Z) : string := NilZero.string_of_int (Z.to_int n).

(** [str(num_transfers)] *)
Definition str_directive (d : Directive) : string :=
  match d with
  | DInt n => str_int n
  | DStr s => s
  end.

(** Lines 156-158 of [optimize]: the path identifier of a node, from the
    identifier of its parent and the directive taken to reach it. *)
Definition node_sid (sid : string) (num_transfers : Directive) : string :=
  let sid := if (0 <? String.length sid)%nat then sid ++ "-" else sid in
  sid ++ str_directive num_transfers.

(** The list [cards] that [run_optimization] builds from its flags. *)
Definition cards_list (wildcard free_hit triple_captain bench_boost : bool)
  : list string :=
  ((if wildcard then ["wildcard"] else [])
   ++ (if free_hit then ["free_hit"] else [])
   ++ (if triple_captain then ["triple_captain"] else [])
   ++ (if bench_boost then ["bench_boost"] else []))%list.

(** [name in cards_allowed] *)
Definition in_list (s : string) (l : list string) : bool :=
  existsb (String.eqb s) l.

(** [name in cards_allowed and not letter in sid] *)
Definition card_available (cards_allowed : list string) (card letter : string)
  (sid : string) : bool :=
  in_list card cards_allowed && negb (contains sid letter).

(** Lines 233-260 of [optimize]: the directives of the children a node puts
    on the queue, in the order it puts them. *)
Definition child_directives (cards_allowed : list string) (sid : string)
  : list Directive :=
  (flat_map
     (fun num_transfers =>
        DInt num_transfers
        :: (if card_available cards_allowed "triple_captain" "T" sid
            then [DStr ("T" ++ str_int num_transfers)] else [])
        ++ (if card_available cards_allowed "bench_boost" "B" sid
            then [DStr ("B" ++ str_int num_transfers)] else []))
     [0; 1; 2]
   ++ (if card_available cards_allowed "wildcard" "W" sid
       then [DStr "W"] else [])
   ++ (if card_available cards_allowed "free_hit" "F" sid
       then [DStr "F"] else []))%list.

(** The path identifiers of the leaves below a node that has [levels]
    gameweeks left: a node with none left is a leaf and is written to a
    file; any other node puts its children on the queue. *)
Fixpoint leaf_sids (cards_allowed : list string) (levels : nat) (sid : string)
  : list string :=
  match levels with
  | O => [sid]
  | S levels' =>
      flat_map (fun d => leaf_sids cards_allowed levels' (node_sid sid d))
               (child_directives cards_allowed sid)
  end.

(** The number of leaves below a node, by the chips still to play: the
    recurrence that both the tree and [count_expected_outputs] follow. *)
Fixpoint leaf_count (levels : nat) (w f t b : bool) : Z :=
  match levels with
  | O => 1
  | S levels' =>
      3 * leaf_count levels' w f t b
      + (if t then 3 * leaf_count levels' w f false b else 0)
      + (if b then 3 * leaf_count levels' w f t false else 0)
      + (if w then leaf_count levels' false f t b else 0)
      + (if f then leaf_count levels' w false t b else 0)
  end.

(** [s * n] for a string. *)
Fixpoint repeat_string (s : string) (n : nat) : string :=
  match n with
  | O => ""
  | S n' => s ++ repeat_string s n'
  end.

(** [s[:-1]] *)
Fixpoint drop_last (s : string) : string :=
  match s with
  | EmptyString => EmptyString
  | String c rest =>
      match rest with
      | EmptyString => EmptyString
      | String _ _ => String c (drop_last rest)
      end
  end.

(** [("0-" * num_gameweeks)[:-1]] *)
Definition baseline_sid (num_gameweeks : Z) : string :=
  drop_last (repeat_string "0-" (Z.to_nat num_gameweeks)).

(** The file of a given name in the output directory, when there is one. *)
Fixpoint lookup_file (filename : string)
  (files : list (string * StrategyOutput)) : option StrategyOutput :=
  match files with
  | [] => None
  | (name', strat) :: files' =>
      if String.eqb name' filename then Some strat
      else lookup_file filename files'
  end.

(** [find_baseline_score_from_json(tag, num_gameweeks)] over the content of
    the output directory. *)
Definition find_baseline_score_from_json (tag : string) (num_gameweeks : Z)
  (files : list (string * StrategyOutput)) : Q :=
  match lookup_file (leaf_filename tag (baseline_sid num_gameweeks)) files with
  | None => 0%Q
  | Some strat => total_score strat
  end.

(** The path identifier reached from [sid] by [levels] further gameweeks
    without transfer. *)
Fixpoint no_transfer_path (sid : string) (levels : nat) : string :=
  match levels with
  | O => sid
  | S levels' => no_transfer_path (node_sid sid (DInt 0)) levels'
  end.

(** The part of a path identifier before its first ["-"]. *)
Fixpoint first_token (s : string) : string :=
  match s with
  | EmptyString => EmptyString
  | String c rest =>
      if Ascii.eqb c "-" then EmptyString else String c (first_token rest)
  end.

(** A non-empty piece of a path identifier without ["-"]. *)
Definition is_token (t : string) : bool :=
  String.eqb (first_token t) t && negb (String.eqb t "").

(** Decides that no string occurs twice in a list. *)
Fixpoint all_different (l : list string) : bool :=
  match l with
  | [] => true
  | s :: l' => negb (existsb (String.eqb s) l') && all_different l'
  end.

(* ================================================================== *)
(** ** squad.py: what the scoring leaves alone *)
(* ================================================================== *)

(** A player with the line-up flags [is_starting], [is_captain],
    [is_vice_captain] and [sub_position] blanked: two players that differ
    only in these flags have the same image. *)
Definition without_line_up (p : CandidatePlayer) : CandidatePlayer :=
  mkCandidate (player_id p) (name p) (team p) (position p) (purchase_price p)
    false false false 0 (predicted_points p).

(** Entry [a] is ranked before entry [b] by a stable descending sort of
    entries taken in squad order: more points, or as many and an earlier
    place in the squad. *)
Definition ranked_before (a b : Entry) : Prop :=
  (snd b < snd a)%Q \/ (snd b == snd a /\ (fst a < fst b)%nat).

(* ================================================================== *)
(** ** squad.py: the line-up [optimize_subs] leaves *)
(* ================================================================== *)

(** The players of a position that start. *)
Definition starters (l : list CandidatePlayer) (pos : Position)
  : list CandidatePlayer :=
  filter (fun p => is_starting p && Position_eqb (position p) pos) l.

(** [self.players[j].is_starting], [false] out of range. *)
Definition starting_at (l : list CandidatePlayer) (j : nat) : bool :=
  match nth_error l j with
  | Some p => is_starting p
  | None => false
  end.

(** The places in the squad of the players of a position. *)
Definition places (l : list CandidatePlayer) (pos : Position) (k : nat)
  : list nat :=
  map fst (filter (fun ip => Position_eqb (position (snd ip)) pos)
                  (enumerate_from k l)).

(** The line-up a formation asks of the entries of one position: the first
    [limit] of them start, the others do not. *)
Definition follows_limit (l : list CandidatePlayer) (E : list Entry)
  (limit : Z) : Prop :=
  forall k e, nth_error E k = Some e ->
    starting_at l (fst e) = (Z.of_nat k <? limit).

(** Every player of the list has a prediction for the tag and the
    gameweek, and no prediction is negative. *)
Definition predictions_nonneg (l : list CandidatePlayer) (tag : string)
  (gw : Z) : Prop :=
  forall p, In p l -> exists v, lookup_points p tag gw = ret v /\ (0 <= v)%Q.

(** Every player of the list has a prediction for the tag and the
    gameweek, and every prediction is below 0. *)
Definition predictions_negative (l : list CandidatePlayer) (tag : string)
  (gw : Z) : Prop :=
  forall p, In p l -> exists v, lookup_points p tag gw = ret v /\ (v < 0)%Q.

(* ================================================================== *)
(** ** optimization_utils.py: [make_best_transfers] *)
(* ================================================================== *)

(** [gameweeks[0]] *)
Definition first_gameweek (gameweeks : list Z) : result Z :=
  match gameweeks with
  | gw :: _ => ret gw
  | [] => raise IndexError
  end.

(** [x != None] *)
Definition is_set {A} (o : option A) : bool :=
  match o with Some _ => true | None => false end.

Section BestTransfers.

Context {F : PyFloat}.

Variable CURRENT_SEASON : string.
Variable NEXT_GAMEWEEK : Z.
Variable api_now_cost : Z -> option Z.
Variable db_price : Z -> string -> Z -> option Z.
Variable calc_predicted_points : string -> CandidatePlayer -> CandidatePlayer.
Variable get_predicted_points : list Z -> Position -> string -> list (Z * Q).
Variable CandidatePlayer_init : Z -> string -> Z -> CandidatePlayer.
Variable Rng : Type.
Variable get_squad_value : Squad + list Z -> result Z.

(** [make_optimum_double_transfer(squad, tag, gameweeks, season,
    bench_boost_gw, triple_captain_gw)] and [make_new_squad(budget,
    num_iter, tag, gameweeks)], taken as they come. *)
Variable make_optimum_double_transfer :
  Squad -> string -> list Z -> string -> option Z -> option Z ->
  result (Squad * list Z * list Z).
Variable make_new_squad :
  Rng -> Z -> Z -> string -> list Z -> option Z -> option Z ->
  result (option Squad * Rng).

(** The chip prefix of [make_best_transfers]: the directive with a leading
    ["T"] or ["B"] taken off, [triple_captain_gw] and [bench_boost_gw]. *)
Definition strip_chip (num_transfers : Directive) (gameweeks : list Z)
  : result (Directive * option Z * option Z) :=
  match num_transfers with
  | DStr s =>
      if startswith s "T" then
        c <- second_char s ;;
        n <- int_of_char c ;;
        gw <- first_gameweek gameweeks ;;
        ret (DInt n, Some gw, None)
      else if startswith s "B" then
        c <- second_char s ;;
        n <- int_of_char c ;;
        gw <- first_gameweek gameweeks ;;
        ret (DInt n, None, Some gw)
      else ret (num_transfers, None, None)
  | DInt _ => ret (num_transfers, None, None)
  end.

(** [make_best_transfers(num_transfers, squad, tag, gameweeks, season,
    num_iter)]: the squad returned, the transfer dict as the pair of its
    ["in"] and ["out"] lists, the points, and the random source. *)
Definition make_best_transfers (g : Rng) (num_transfers : Directive)
  (squad : Squad) (tag : string) (gameweeks : list Z) (season : string)
  (num_iter : Z) : result (Squad * (list Z * list Z) * Q * Rng) :=
  '(num_transfers, triple_captain_gw, bench_boost_gw) <-
     strip_chip num_transfers gameweeks ;;
  '(squad, transfer_dict, gameweeks, g) <-
     (if Directive_eqb num_transfers (DInt 0) then
        ret (squad, ([], []), gameweeks, g)
      else if Directive_eqb num_transfers (DInt 1) then
        '(sq, players_out, players_in) <-
           make_optimum_single_transfer CURRENT_SEASON NEXT_GAMEWEEK
             api_now_cost db_price calc_predicted_points get_predicted_points
             CandidatePlayer_init squad tag gameweeks season bench_boost_gw
             triple_captain_gw ;;
        ret (sq, (players_in, players_out), gameweeks, g)
      else if Directive_eqb num_transfers (DInt 2) then
        '(sq, players_out, players_in) <-
           make_optimum_double_transfer squad tag gameweeks season
             bench_boost_gw triple_captain_gw ;;
        ret (sq, (players_in, players_out), gameweeks, g)
      else if Directive_eqb num_transfers (DStr "W")
              || Directive_eqb num_transfers (DStr "F") then
        let players_out := map player_id (players squad) in
        budget <- get_squad_value (inl squad) ;;
        gameweeks <-
          (if Directive_eqb num_transfers (DStr "F") then
             gw <- first_gameweek gameweeks ;; ret [gw]
           else ret gameweeks) ;;
        '(new_squad, g) <- make_new_squad g budget num_iter tag gameweeks
                             None None ;;
        match new_squad with
        | None => raise AttributeError
        | Some new_squad =>
            ret (squad, (map player_id (players new_squad), players_out),
                 gameweeks, g)
        end
      else
        raise (RuntimeError ("Unrecognized value for num_transfers: "
                             ++ str_directive num_transfers))) ;;
  gw <- first_gameweek gameweeks ;;
  '(points, squad) <-
     get_expected_points calc_predicted_points squad gw tag
       (is_set bench_boost_gw) (is_set triple_captain_gw) ;;
  ret (squad, transfer_dict, points, g).

End BestTransfers.

(** The directives [make_best_transfers] has a branch for. *)
Definition recognised (d : Directive) : Prop :=
  match d with
  | DInt n => 0 <= n <= 2
  | DStr s =>
      s = "W" \/ s = "F" \/
      ((startswith s "T" = true \/ startswith s "B" = true) /\
       exists c n, second_char s = ret c /\ int_of_char c = ret n /\
                   0 <= n <= 2)
  end.

(* ================================================================== *)
(** ** schema.py: [Player.team] *)
(* ================================================================== *)

(** A row of the [player_attributes] table, as [Player.team] reads it. *)
Record PlayerAttributes : Type := mkAttributes {
  a_season : string;
  a_gameweek : Z;
  a_price : Z;
  a_team : string;
  a_position : string
}.

(** Python truthiness of a value that is [None] or a string. *)
Definition truthy_str (o : option string) : bool :=
  match o with
  | Some s => negb (String.eqb s "")
  | None => false
  end.

(** The loop of [Player.team] and the estimate after it; [None] is Python's
    [None]. *)
Fixpoint team_loop (attributes : list PlayerAttributes) (season : string)
  (gameweek gw_before gw_after : Z) (team_before team_after : option string)
  : option string :=
  match attributes with
  | [] =>
      if negb (truthy_str team_before) && negb (truthy_str team_after)
      then None
      else if negb (truthy_str team_after) then team_before
      else if negb (truthy_str team_before) then team_after
      else if gameweek - gw_before <=? gw_after - gameweek then team_before
      else team_after
  | attr :: rest =>
      if negb (String.eqb (a_season attr) season) then
        team_loop rest season gameweek gw_before gw_after team_before
                  team_after
      else if a_gameweek attr =? gameweek then Some (a_team attr)
      else if (a_gameweek attr <? gameweek) && (gw_before <? a_gameweek attr)
      then team_loop rest season gameweek (a_gameweek attr) gw_after
                     (Some (a_team attr)) team_after
      else if (gameweek <? a_gameweek attr) && (a_gameweek attr <? gw_after)
      then team_loop rest season gameweek gw_before (a_gameweek attr)
                     team_before (Some (a_team attr))
      else team_loop rest season gameweek gw_before gw_after team_before
                     team_after
  end.

(** [Player.team(season, gameweek)] on the player's [attributes]. *)
Definition Player_team (attributes : list PlayerAttributes) (season : string)
  (gameweek : Z) : option string :=
  team_loop attributes season gameweek 0 100 None None.

(** A slot of the loop is unset, or holds a team name that is not empty. *)
Definition slot_ok (o : option string) : Prop :=
  match o with Some s => s <> "" | None => True end.

(** The gameweeks [Player.team] takes an estimate from: after its initial
    [gw_before = 0] and before the gameweek asked for, or after it and
    before its initial [gw_after = 100]. *)
Definition in_reach (gameweek g : Z) : Prop :=
  0 < g < gameweek \/ gameweek < g < 100.

(* ================================================================== *)
(** ** Sample data for the concrete instances *)
(* ================================================================== *)

(** Arithmetic without rounding, which the examples are computed with:
    the sums and products of [Q], and [x ** n] raising [ZeroDivisionError]
    for a zero base and a negative exponent. *)
Definition exact_arithmetic : PyFloat.
Proof.
  refine {| float_add := Qplus;
            float_sub := Qminus;
            float_mul := Qmult;
            float_div := Qdiv;
            float_pow := fun x n =>
              if Qeq_bool x 0 && (n <? 0) then raise ZeroDivisionError
              else ret (Qpower x n) |}.
  - intros a b Ha Hb. rewrite <- (Qplus_0_r 0).
    apply Qplus_le_compat; assumption.
  - intros a b Ha Hb. rewrite <- (Qplus_0_r 0), (Qplus_comm a b).
    apply Qplus_lt_le_compat; assumption.
Defined.

(** A candidate with no predictions and cleared flags. *)
Definition sample_player (pid : Z) (nm tm : string) (pos : Position)
  (price : Z) : CandidatePlayer :=
  mkCandidate pid nm tm pos price false false false 0 [].

Definition no_api : Z -> option Z := fun _ => None.
Definition no_db : Z -> string -> Z -> option Z := fun _ _ _ => None.

(** Three adds, default flags, three different players of one team. *)
Definition three_from_one_team : list SquadOp :=
  [ OpAdd (sample_player 1 "Leno" "ARS" GK 50) None true true;
    OpAdd (sample_player 2 "Tierney" "ARS" DEF 55) None true true;
    OpAdd (sample_player 3 "Saka" "ARS" MID 60) None true true ].

(** One purchase made the way [get_starting_squad] makes them, with both
    optional checks off, at a price above the budget. *)
Definition unchecked_purchase : list SquadOp :=
  [ OpAdd (sample_player 1 "Kane" "TOT" FWD 1250) None false false ].

(** Three purchases of one team, followed by a sale at the database price. *)
Definition buy_three_sell_one : list SquadOp :=
  three_from_one_team ++ [ OpRemove 2 None "2021" 1 false ].

Definition sample_db : Z -> string -> Z -> option Z :=
  fun pid _ _ => if pid =? 2 then Some 58 else None.

(** A candidate with the same prediction for gameweeks 1 to 3 of tag ["t"]. *)
Definition predicted_player (pid : Z) (nm tm : string) (pos : Position)
  (price : Z) (pts : Q) : CandidatePlayer :=
  mkCandidate pid nm tm pos price false false false 0
    [("t", [(1, pts); (2, pts); (3, pts)])].

Definition buy (p : CandidatePlayer) : SquadOp := OpAdd p None true true.

(** Fifteen purchases that fill every quota. *)
Definition fifteen_purchases : list SquadOp :=
  [ buy (predicted_player 1 "g1" "A" GK 50 (4 # 1));
    buy (predicted_player 2 "g2" "B" GK 40 (3 # 1));
    buy (predicted_player 3 "d1" "A" DEF 50 (5 # 1));
    buy (predicted_player 4 "d2" "B" DEF 50 (4 # 1));
    buy (predicted_player 5 "d3" "C" DEF 50 (3 # 1));
    buy (predicted_player 6 "d4" "D" DEF 50 (2 # 1));
    buy (predicted_player 7 "d5" "E" DEF 40 (1 # 1));
    buy (predicted_player 8 "m1" "A" MID 80 (7 # 1));
    buy (predicted_player 9 "m2" "B" MID 70 (6 # 1));
    buy (predicted_player 10 "m3" "C" MID 60 (5 # 1));
    buy (predicted_player 11 "m4" "D" MID 50 (4 # 1));
    buy (predicted_player 12 "m5" "E" MID 45 (2 # 1));
    buy (predicted_player 13 "f1" "C" FWD 90 (8 # 1));
    buy (predicted_player 14 "f2" "D" FWD 70 (6 # 1));
    buy (predicted_player 15 "f3" "E" FWD 45 (3 # 1)) ].

Definition full_squad : Squad :=
  snd (run_ops "2021" 1 no_api no_db (Squad_init 1000) fifteen_purchases).

(** Predictions already loaded: nothing to fetch. *)
Definition keep_predictions : string -> CandidatePlayer -> CandidatePlayer :=
  fun _ p => p.

(** Players on the market besides the fifteen of [full_squad]. *)
Definition newcomers : list CandidatePlayer :=
  [ predicted_player 16 "g3" "F" GK 45 (5 # 1);
    predicted_player 17 "d6" "F" DEF 50 (9 # 2);
    predicted_player 18 "m6" "F" MID 900 (15 # 2);
    predicted_player 19 "m7" "G" MID 60 (11 # 2);
    predicted_player 20 "f4" "G" FWD 80 (7 # 1) ].

Definition bought (op : SquadOp) : list CandidatePlayer :=
  match op with
  | OpAdd p _ _ _ => [p]
  | OpRemove _ _ _ _ _ => []
  end.

Definition market : list CandidatePlayer :=
  flat_map bought fifteen_purchases ++ newcomers.

(** The candidate constructor, reading the market table. *)
Definition sample_candidate (pid : Z) (season : string) (gameweek : Z)
  : CandidatePlayer :=
  match find_player market pid with
  | Some p => p
  | None => sample_player pid "unknown" "none" GK 0
  end.

(** The ranking of a position: its market players, best prediction first. *)
Definition sample_ranking (gameweeks : list Z) (pos : Position) (tag : string)
  : list (Z * Q) :=
  sort_by_points_desc
    (map (fun p => (player_id p, prediction_or_zero p tag 1))
         (filter (fun p => Position_eqb (position p) pos) market)).

(** The transaction log that buys the fifteen of [full_squad] in gameweek 1. *)
Definition sample_transactions : list Transaction :=
  map (fun p => mkTransaction (player_id p) (player_id p) 1 1 "2021" "t"
                              (purchase_price p) 0)
      (flat_map bought fifteen_purchases).

(** A squad value that accepts whatever it is given. *)
Definition sample_squad_value : Squad + list Z -> result Z :=
  fun _ => ret 1000.

(** [full_squad] with its third forward exchanged for the newcomer f4. *)
Definition rebuilt_squad : Squad :=
  snd (run_ops "2021" 1 no_api no_db full_squad
         [ OpRemove 15 None "2021" 1 false;
           buy (predicted_player 20 "f4" "G" FWD 80 (7 # 1)) ]).

(** A squad builder without randomness: it always comes up with
    [rebuilt_squad]. *)
Definition sample_new_squad :
  unit -> Z -> Z -> string -> list Z -> option Z -> option Z ->
  result (option Squad * unit) :=
  fun g _ _ _ _ _ _ => ret (Some rebuilt_squad, g).

Definition no_double_transfer :
  Squad -> string -> list Z -> option Z -> option Z ->
  result (Squad * list Z * list Z) :=
  fun _ _ _ _ _ => raise (RuntimeError "not used").

Definition no_random_transfers :
  unit -> Squad -> string -> Directive -> list Z -> Z -> option Z ->
  option Z -> result (option Squad * list Z * list Z * unit) :=
  fun _ _ _ _ _ _ _ _ => raise (RuntimeError "not used").

Definition sample_apply_strategy (strat : list (Z * Directive) * Q)
  : result (option StrategyOutput) :=
  apply_strategy (F := exact_arithmetic) "2021" 1 no_api no_db
    keep_predictions sample_ranking
    sample_candidate sample_transactions unit sample_squad_value
    no_double_transfer sample_new_squad no_random_transfers strat "t" None 1 tt.

(** Reads a result up to the fraction its numbers are written as. *)
Definition summary (r : result (option StrategyOutput))
  : result (option (Q * list (Z * Q) * list (Z * list Z) * list (Z * list Z))) :=
  match r with
  | inl e => inl e
  | inr None => inr None
  | inr (Some o) =>
      inr (Some (Qred (total_score o),
                 map (fun kv => (fst kv, Qred (snd kv))) (points_per_gw o),
                 players_in o, players_out o))
  end.

(** A leaf record with the given total and nothing else. *)
Definition leaf_with_total (total : Q) : StrategyOutput :=
  mkOutput total [] [] [] [].

(* ================================================================== *)
(** ** Further sample data *)
(* ================================================================== *)

(** Three leaf files: two of tag ["t"], one of another tag. *)
Definition sample_leaf_files : list (string * StrategyOutput) :=
  [ (leaf_filename "t" "0", leaf_with_total 63);
    (leaf_filename "t" "1", leaf_with_total 67);
    (leaf_filename "u" "0", leaf_with_total 90) ].

(** The state of the gameweek loop of [sample_apply_strategy] after a first
    gameweek without transfer. *)
Definition state_after_first_gameweek : LoopState unit :=
  mkLoopState full_squad None (Some []) (mkOutput 63 [] [] [] []) tt.

(** Two goalkeepers and a defender nobody expects anything of. *)
Definition gloomy_players : list CandidatePlayer :=
  [ predicted_player 1 "g1" "A" GK 50 (-1 # 1);
    predicted_player 2 "g2" "B" GK 40 (-2 # 1);
    predicted_player 3 "d1" "A" DEF 50 (-1 # 2) ].

(** A double-transfer search no example reaches. *)
Definition sample_double_transfer :
  Squad -> string -> list Z -> string -> option Z -> option Z ->
  result (Squad * list Z * list Z) :=
  fun _ _ _ _ _ _ => raise (RuntimeError "not used").

(** The attribute rows of a player who changed clubs. *)
Definition sample_attributes : list PlayerAttributes :=
  [ mkAttributes "2021" 3 50 "ARS" "MID";
    mkAttributes "1920" 5 45 "LEE" "MID";
    mkAttributes "2021" 9 52 "CHE" "MID";
    mkAttributes "2021" 9 53 "EVE" "MID" ].

(* ================================================================== *)
(** * Properties *)
(* ================================================================== *)

(** ** Counting lemmas *)

Lemma Position_eqb_eq (a b : Position) : Position_eqb a b = true <-> a = b.
Proof. destruct a, b; simpl; split; congruence. Qed.

Lemma Position_eqb_refl (a : Position) : Position_eqb a a = true.
Proof. now destruct a. Qed.

Lemma count_position_nil pos : count_position [] pos = 0.
Proof. reflexivity. Qed.

Lemma count_position_cons p l pos :
  count_position (p :: l) pos =
  (if Position_eqb (position p) pos then 1 else 0) + count_position l pos.
Proof.
  unfold count_position. cbn [filter].
  destruct (Position_eqb (position p) pos); cbn [List.length]; lia.
Qed.

Lemma count_position_app l1 l2 pos :
  count_position (l1 ++ l2) pos = count_position l1 pos + count_position l2 pos.
Proof. unfold count_position. rewrite filter_app, length_app. lia. Qed.

Lemma count_position_nonneg l pos : 0 <= count_position l pos.
Proof. unfold count_position. lia. Qed.

Lemma team_count_cons p l t :
  team_count (p :: l) t =
  (if String.eqb (team p) t then 1 else 0) + team_count l t.
Proof.
  unfold team_count. cbn [filter].
  destruct (String.eqb (team p) t); cbn [List.length]; lia.
Qed.

Lemma team_count_app l1 l2 t :
  team_count (l1 ++ l2) t = team_count l1 t + team_count l2 t.
Proof. unfold team_count. rewrite filter_app, length_app. lia. Qed.

Lemma team_count_nonneg l t : 0 <= team_count l t.
Proof. unfold team_count. lia. Qed.

Lemma pp_get_set_same {A} (d : PerPosition A) pos v :
  pp_get (pp_set d pos v) pos = v.
Proof. now destruct pos. Qed.

Lemma pp_get_set_other {A} (d : PerPosition A) pos pos' v :
  pos <> pos' -> pp_get (pp_set d pos v) pos' = pp_get d pos'.
Proof. destruct pos, pos'; simpl; congruence. Qed.

(** ** The checks of [add_player] say what their names say *)

Lemma no_duplicate_in_spec l pid :
  no_duplicate_in l pid = true <-> ~ In pid (map player_id l).
Proof.
  induction l as [|p l IH]; simpl.
  - tauto.
  - destruct (Z.eqb_spec (player_id p) pid) as [E|E].
    + split; [discriminate | intros H; exfalso; apply H; now left].
    + rewrite IH. tauto.
Qed.

(** The team check passes exactly when fewer than three players of the list
    are from that team (started with a counter [k] below three: when fewer
    than [3 - k] are). *)
Lemma num_per_team_loop_spec l t k :
  0 <= k < 3 ->
  (num_per_team_loop l t k = true <-> k + team_count l t < 3).
Proof.
  revert k. induction l as [|p l IH]; intros k Hk; simpl.
  - unfold team_count; simpl. split; [lia | reflexivity].
  - rewrite team_count_cons.
    destruct (String.eqb (team p) t).
    + destruct (Z.eqb_spec (k + 1) 3) as [E|E].
      * pose proof (team_count_nonneg l t). split; [discriminate | lia].
      * rewrite IH by lia. lia.
    + rewrite IH by lia. lia.
Qed.

Lemma check_num_per_team_spec sq player :
  check_num_per_team sq player = true <->
  team_count (players sq) (team player) < 3.
Proof.
  unfold check_num_per_team. rewrite num_per_team_loop_spec by lia. lia.
Qed.

(** ** [remove_first] and [find_player] *)

Lemma find_player_In l pid p :
  find_player l pid = Some p -> In p l /\ player_id p = pid.
Proof.
  induction l as [|q l IH]; simpl; [discriminate|].
  destruct (Z.eqb_spec (player_id q) pid) as [E|E].
  - intros [= <-]. auto.
  - intros H. destruct (IH H). auto.
Qed.

Lemma find_player_None l pid :
  find_player l pid = None <-> ~ In pid (map player_id l).
Proof.
  induction l as [|q l IH]; simpl; [tauto|].
  destruct (Z.eqb_spec (player_id q) pid) as [E|E].
  - split; [discriminate | intros H; exfalso; apply H; now left].
  - rewrite IH. tauto.
Qed.

Lemma remove_first_In l pid q :
  In q (remove_first l pid) -> In q l.
Proof.
  induction l as [|p l IH]; simpl; [tauto|].
  destruct (player_id p =? pid); simpl; intuition.
Qed.

Lemma remove_first_count_position l pid p pos :
  find_player l pid = Some p ->
  count_position (remove_first l pid) pos =
  count_position l pos - (if Position_eqb (position p) pos then 1 else 0).
Proof.
  induction l as [|q l IH]; simpl; [discriminate|].
  destruct (Z.eqb_spec (player_id q) pid) as [E|E].
  - intros [= <-]. rewrite count_position_cons. lia.
  - intros H. rewrite !count_position_cons, (IH H). lia.
Qed.

Lemma remove_first_team_count_le l pid t :
  team_count (remove_first l pid) t <= team_count l t.
Proof.
  induction l as [|q l IH]; simpl; [lia|].
  destruct (player_id q =? pid).
  - rewrite team_count_cons. destruct (String.eqb (team q) t); lia.
  - rewrite !team_count_cons. lia.
Qed.

Lemma remove_first_NoDup l pid :
  NoDup (map player_id l) -> NoDup (map player_id (remove_first l pid)).
Proof.
  induction l as [|q l IH]; simpl; [auto|].
  intros H. inversion H as [|? ? Hn Hd]; subst.
  destruct (player_id q =? pid); [assumption|].
  simpl. constructor; [|auto].
  intros Hin. apply Hn.
  apply in_map_iff in Hin. destruct Hin as (x & Hx & Hin).
  apply in_map_iff. exists x. split; [assumption|].
  eapply remove_first_In; eassumption.
Qed.

(** ** [add_player]: outcome by outcome *)

Lemma add_player_outcome_sound sq player cb ct :
  match add_player_outcome sq player cb ct with
  | AlreadyInTeam => In (player_id player) (map player_id (players sq))
  | TooManyInPosition =>
      ~ In (player_id player) (map player_id (players sq)) /\
      pp_get TOTAL_PER_POSITION (position player)
      <= pp_get (num_position sq) (position player)
  | CannotAfford =>
      ~ In (player_id player) (map player_id (players sq)) /\
      pp_get (num_position sq) (position player)
      < pp_get TOTAL_PER_POSITION (position player) /\
      cb = true /\ budget sq < purchase_price player
  | TooManyFromTeam =>
      ~ In (player_id player) (map player_id (players sq)) /\
      pp_get (num_position sq) (position player)
      < pp_get TOTAL_PER_POSITION (position player) /\
      (cb = true -> purchase_price player <= budget sq) /\
      ct = true /\ 3 <= team_count (players sq) (team player)
  | Added =>
      ~ In (player_id player) (map player_id (players sq)) /\
      pp_get (num_position sq) (position player)
      < pp_get TOTAL_PER_POSITION (position player) /\
      (cb = true -> purchase_price player <= budget sq) /\
      (ct = true -> team_count (players sq) (team player) < 3)
  end.
Proof.
  unfold add_player_outcome.
  destruct (check_no_duplicate_player sq player) eqn:Hd; cbn [negb].
  2:{ unfold check_no_duplicate_player in Hd.
      destruct (in_dec Z.eq_dec (player_id player) (map player_id (players sq)))
        as [Hin|Hin]; [assumption|].
      apply no_duplicate_in_spec in Hin. congruence. }
  assert (Hnd : ~ In (player_id player) (map player_id (players sq)))
    by (now apply no_duplicate_in_spec).
  destruct (check_num_in_position sq player) eqn:Hp; cbn [negb].
  2:{ unfold check_num_in_position in Hp. apply Z.ltb_ge in Hp. auto. }
  assert (Hq : pp_get (num_position sq) (position player)
               < pp_get TOTAL_PER_POSITION (position player))
    by (now apply Z.ltb_lt).
  destruct cb; cbn [andb].
  - destruct (check_cost sq player) eqn:Hc; cbn [negb].
    2:{ unfold check_cost in Hc. apply Z.leb_gt in Hc. auto. }
    assert (Hb : purchase_price player <= budget sq) by (now apply Z.leb_le).
    destruct ct; cbn [andb].
    + destruct (check_num_per_team sq player) eqn:Ht; cbn [negb].
      * apply check_num_per_team_spec in Ht. auto.
      * assert (~ team_count (players sq) (team player) < 3)
          by (rewrite <- check_num_per_team_spec; congruence).
        repeat split; auto; lia.
    + repeat split; auto; discriminate.
  - destruct ct; cbn [andb].
    + destruct (check_num_per_team sq player) eqn:Ht; cbn [negb].
      * apply check_num_per_team_spec in Ht. repeat split; auto; discriminate.
      * assert (~ team_count (players sq) (team player) < 3)
          by (rewrite <- check_num_per_team_spec; congruence).
        repeat split; auto; try discriminate; lia.
    + repeat split; auto; discriminate.
Qed.

Lemma add_player_cases sq p price cb ct :
  (add_player_outcome sq (with_price p price) cb ct = Added /\
   add_player sq p price cb ct = (true, commit_player sq (with_price p price)))
  \/
  (add_player_outcome sq (with_price p price) cb ct <> Added /\
   add_player sq p price cb ct = (false, sq)).
Proof.
  unfold add_player.
  destruct (add_player_outcome sq (with_price p price) cb ct);
    (left; split; [reflexivity|reflexivity]) ||
    (right; split; [discriminate|reflexivity]).
Qed.

(** ** The squad invariant *)

Lemma NoDup_snoc {A} (l : list A) (a : A) :
  NoDup l -> ~ In a l -> NoDup (l ++ [a]).
Proof.
  intros Hl Ha.
  assert (H : NoDup (a :: rev l)).
  { constructor; [now rewrite <- in_rev | now apply NoDup_rev]. }
  apply NoDup_rev in H. simpl in H. now rewrite rev_involutive in H.
Qed.

Lemma Squad_init_ok b : squad_ok (Squad_init b).
Proof.
  repeat split; simpl.
  - now intros [].
  - intros []; unfold count_position; simpl; lia.
  - constructor.
Qed.

Lemma commit_player_ok sq player :
  squad_ok sq ->
  ~ In (player_id player) (map player_id (players sq)) ->
  pp_get (num_position sq) (position player)
  < pp_get TOTAL_PER_POSITION (position player) ->
  squad_ok (commit_player sq player).
Proof.
  intros (Hc & Hq & Hn) Hin Hlt.
  assert (Hcount : forall pos,
    count_position (players sq ++ [player]) pos =
    count_position (players sq) pos
    + (if Position_eqb (position player) pos then 1 else 0)).
  { intros pos. rewrite count_position_app, count_position_cons,
      count_position_nil. lia. }
  repeat split; cbn [commit_player players num_position].
  - intros pos. rewrite Hcount.
    destruct (Position_eqb (position player) pos) eqn:E.
    + apply Position_eqb_eq in E. subst pos.
      rewrite pp_get_set_same, Hc. reflexivity.
    + rewrite pp_get_set_other, Hc; [lia|].
      intros Heq. rewrite Heq, Position_eqb_refl in E. discriminate.
  - intros pos. rewrite Hcount.
    destruct (Position_eqb (position player) pos) eqn:E.
    + apply Position_eqb_eq in E. subst pos. rewrite <- Hc. lia.
    + specialize (Hq pos). lia.
  - rewrite map_app. simpl. now apply NoDup_snoc.
Qed.

Lemma add_player_ok sq p price cb ct :
  squad_ok sq -> squad_ok (snd (add_player sq p price cb ct)).
Proof.
  intros Hok.
  destruct (add_player_cases sq p price cb ct) as [[Ho ->]|[_ ->]];
    [|exact Hok].
  pose proof (add_player_outcome_sound sq (with_price p price) cb ct) as Hs.
  rewrite Ho in Hs. destruct Hs as (Hin & Hlt & _).
  now apply commit_player_ok.
Qed.

Lemma add_player_team sq p price cb :
  (forall t, team_count (players sq) t <= 3) ->
  forall t, team_count (players (snd (add_player sq p price cb true))) t <= 3.
Proof.
  intros Ht t.
  destruct (add_player_cases sq p price cb true) as [[Ho ->]|[_ ->]];
    [|apply Ht].
  pose proof (add_player_outcome_sound sq (with_price p price) cb true) as Hs.
  rewrite Ho in Hs. destruct Hs as (_ & _ & _ & Hteam).
  specialize (Hteam eq_refl).
  cbn [snd commit_player players].
  rewrite team_count_app, team_count_cons.
  change (team_count [] t) with 0.
  destruct (String.eqb_spec (team (with_price p price)) t) as [E|E].
  - subst t. lia.
  - specialize (Ht t). lia.
Qed.

Section SquadProperties.

Variable CURRENT_SEASON : string.
Variable NEXT_GAMEWEEK : Z.
Variable api_now_cost : Z -> option Z.
Variable db_price : Z -> string -> Z -> option Z.

Local Abbreviation sell_price :=
  (get_sell_price_for_player CURRENT_SEASON NEXT_GAMEWEEK api_now_cost db_price).
Local Abbreviation remove :=
  (remove_player CURRENT_SEASON NEXT_GAMEWEEK api_now_cost db_price).
Local Abbreviation price_now :=
  (current_price CURRENT_SEASON NEXT_GAMEWEEK api_now_cost db_price).
Local Abbreviation apply :=
  (apply_op CURRENT_SEASON NEXT_GAMEWEEK api_now_cost db_price).
Local Abbreviation run :=
  (run_ops CURRENT_SEASON NEXT_GAMEWEEK api_now_cost db_price).

Lemma remove_player_ok sq pid price season gw use_api :
  squad_ok sq -> squad_ok (snd (remove sq pid price season gw use_api)).
Proof.
  intros (Hc & Hq & Hn). unfold remove_player.
  destruct (find_player (players sq) pid) as [p|] eqn:Hf;
    [|now repeat split].
  cbn [snd]. repeat split; cbn [players num_position].
  - intros pos. rewrite (remove_first_count_position _ _ _ pos Hf).
    destruct (Position_eqb (position p) pos) eqn:E.
    + apply Position_eqb_eq in E. subst pos.
      rewrite pp_get_set_same, Hc. reflexivity.
    + rewrite pp_get_set_other, Hc; [lia|].
      intros Heq. rewrite Heq, Position_eqb_refl in E. discriminate.
  - intros pos. rewrite (remove_first_count_position _ _ _ pos Hf).
    specialize (Hq pos).
    destruct (Position_eqb (position p) pos); lia.
  - now apply remove_first_NoDup.
Qed.

Lemma remove_player_team sq pid price season gw use_api :
  (forall t, team_count (players sq) t <= 3) ->
  forall t,
    team_count (players (snd (remove sq pid price season gw use_api))) t <= 3.
Proof.
  intros Ht t. unfold remove_player.
  destruct (find_player (players sq) pid) as [p|]; cbn [snd players];
    [|apply Ht].
  pose proof (remove_first_team_count_le (players sq) pid t).
  specialize (Ht t). lia.
Qed.

Lemma apply_op_ok sq op : squad_ok sq -> squad_ok (snd (apply sq op)).
Proof.
  destruct op; simpl; [apply add_player_ok | apply remove_player_ok].
Qed.

Lemma run_ops_snd sq op ops :
  snd (run sq (op :: ops)) = snd (run (snd (apply sq op)) ops).
Proof.
  simpl. destruct (apply sq op) as [ok sq1]. simpl.
  destruct (run sq1 ops). reflexivity.
Qed.

Lemma run_ops_fst sq op ops :
  fst (run sq (op :: ops)) =
  fst (apply sq op) :: fst (run (snd (apply sq op)) ops).
Proof.
  simpl. destruct (apply sq op) as [ok sq1]. simpl.
  destruct (run sq1 ops). reflexivity.
Qed.

(** Whatever the flags and prices, every reachable squad keeps its
    bookkeeping, its quotas and unique ids. *)
Lemma run_ops_ok ops : forall sq, squad_ok sq -> squad_ok (snd (run sq ops)).
Proof.
  induction ops as [|op ops IH]; intros sq Hok; [exact Hok|].
  rewrite run_ops_snd. apply IH. now apply apply_op_ok.
Qed.

Lemma run_ops_team ops : forall sq,
  Forall default_checks ops ->
  (forall t, team_count (players sq) t <= 3) ->
  forall t, team_count (players (snd (run sq ops))) t <= 3.
Proof.
  induction ops as [|op ops IH]; intros sq Hd Ht; [exact Ht|].
  inversion Hd as [|? ? Hop Hops]; subst.
  rewrite run_ops_snd. apply IH; [assumption|].
  destruct op as [p price cb ct|pid price season gw use_api]; simpl.
  - destruct Hop as [_ ->]. now apply add_player_team.
  - now apply remove_player_team.
Qed.

(** *** Budget *)

Hypothesis api_nonneg : forall pid v, api_now_cost pid = Some v -> 0 <= v.
Hypothesis db_nonneg : forall pid s g v, db_price pid s g = Some v -> 0 <= v.

Lemma current_price_nonneg pid use_api season gw v :
  price_now pid use_api season gw = Some v -> 0 <= v.
Proof.
  unfold current_price.
  destruct (use_api && String.eqb season CURRENT_SEASON
            && (NEXT_GAMEWEEK <=? gw)).
  - destruct (truthy (api_now_cost pid)); cbn [negb].
    + apply api_nonneg.
    + apply db_nonneg.
  - cbn [truthy negb]. apply db_nonneg.
Qed.

Lemma sell_price_nonneg p use_api season gw :
  0 <= purchase_price p -> 0 <= sell_price p use_api season gw.
Proof.
  intros Hp. unfold get_sell_price_for_player.
  destruct (price_now (player_id p) use_api season gw) as [v|] eqn:Hv.
  - apply current_price_nonneg in Hv.
    destruct (truthy (Some v)).
    + destruct (purchase_price p <? v); [apply Z.div_pos; lia | lia].
    + rewrite Z.ltb_irrefl. assumption.
  - rewrite Z.ltb_irrefl. assumption.
Qed.

Lemma apply_op_budget sq op :
  default_checks op -> prices_nonneg op -> budget_ok sq ->
  budget_ok (snd (apply sq op)) /\
  (fst (apply sq op) = true -> 0 <= budget (snd (apply sq op))) /\
  (fst (apply sq op) = false -> snd (apply sq op) = sq).
Proof.
  intros Hd Hp (Hprices & Hb).
  destruct op as [p price cb ct|pid price season gw use_api]; simpl.
  - destruct Hd as [-> ->]. simpl in Hp.
    destruct (add_player_cases sq p price true true) as [[Ho ->]|[_ ->]];
      cbn [fst snd].
    + pose proof (add_player_outcome_sound sq (with_price p price) true true)
        as Hs.
      rewrite Ho in Hs. destruct Hs as (_ & _ & Hcost & _).
      specialize (Hcost eq_refl).
      assert (0 <= budget (commit_player sq (with_price p price)))
        by (cbn [commit_player budget]; lia).
      repeat split; auto; try discriminate.
      intros q Hq. cbn [commit_player players] in Hq.
      apply in_app_or in Hq. destruct Hq as [Hq|[<-|[]]]; auto.
    + repeat split; auto; discriminate.
  - unfold remove_player.
    destruct (find_player (players sq) pid) as [p|] eqn:Hf; cbn [fst snd].
    2:{ repeat split; auto; discriminate. }
    destruct (find_player_In _ _ _ Hf) as [Hin _].
    assert (Hne : 0 <= budget sq).
    { destruct Hb as [Hnil|]; [|assumption].
      rewrite Hnil in Hin. destruct Hin. }
    assert (Hcredit : 0 <=
      match price with
      | Some v => if truthy price then v
                  else sell_price p use_api season gw
      | None => sell_price p use_api season gw
      end).
    { destruct price as [v|].
      - simpl in Hp. destruct (truthy (Some v)); [assumption|].
        apply sell_price_nonneg. auto.
      - apply sell_price_nonneg. auto. }
    assert (0 <= budget sq + match price with
      | Some v => if truthy price then v
                  else sell_price p use_api season gw
      | None => sell_price p use_api season gw
      end) by lia.
    repeat split; cbn [players budget]; auto; try discriminate.
    intros q Hq. apply Hprices. eapply remove_first_In; eassumption.
Qed.

Lemma run_ops_budget ops : forall sq,
  Forall default_checks ops -> Forall prices_nonneg ops -> budget_ok sq ->
  budget_ok (snd (run sq ops)) /\
  (0 <= budget sq -> 0 <= budget (snd (run sq ops))) /\
  (existsb (fun ok => ok) (fst (run sq ops)) = true ->
   0 <= budget (snd (run sq ops))).
Proof.
  induction ops as [|op ops IH]; intros sq Hd Hp Hb.
  - simpl. destruct Hb as [Hb1 Hb2].
    repeat split; auto. intros H; discriminate H.
  - inversion Hd as [|? ? Hd1 Hd2]; inversion Hp as [|? ? Hp1 Hp2]; subst.
    destruct (apply_op_budget sq op Hd1 Hp1 Hb) as (Hb1 & Hyes & Hno).
    destruct (IH (snd (apply sq op)) Hd2 Hp2 Hb1) as (Hb2 & Hkeep & Hany).
    rewrite run_ops_snd, run_ops_fst. cbn [existsb].
    destruct (fst (apply sq op)) eqn:Hok; cbn [orb].
    + specialize (Hyes eq_refl). specialize (Hkeep Hyes).
      split; [exact Hb2 | split; auto].
    + pose proof (Hno eq_refl) as E.
      rewrite E in Hb2, Hkeep, Hany |- *.
      split; [exact Hb2 | split; auto].
Qed.

End SquadProperties.

(* ================================================================== *)
(** * The squad claims *)
(* ================================================================== *)


(** With the budget check switched off, as [get_starting_squad] replays
    the transaction log, a successful purchase can leave the budget
    negative: the budget bound is one of checked calls. *)
Lemma unchecked_purchase_overdraws :
  let r := run_ops "2021" 1 no_api no_db Squad_default unchecked_purchase in
  fst r = [true] /\ budget (snd r) = -250.
Proof. vm_compute. split; reflexivity. Qed.



(** ** [remove_player] *)

Lemma find_player_unique l p :
  In p l -> NoDup (map player_id l) -> find_player l (player_id p) = Some p.
Proof.
  induction l as [|q l IH]; simpl; [tauto|].
  intros [->|Hin] Hn.
  - now rewrite Z.eqb_refl.
  - inversion Hn as [|? ? Hq Hl]; subst.
    destruct (Z.eqb_spec (player_id q) (player_id p)) as [E|E].
    + exfalso. apply Hq. rewrite E. now apply in_map.
    + now apply IH.
Qed.

(** C7: for a player [p] of the squad whose current market price [now] is
    known (non-zero), [remove_player] without an explicit price succeeds and
    credits the budget with [now] when [now <= purchase_price p], and
    otherwise with the midpoint of the two prices rounded down; the count of
    [p]'s position goes down by exactly one, the other counts stay, and the
    entry of [p] leaves the player list. *)
Theorem remove_player_credits_sale_price
  (CURRENT_SEASON : string) (NEXT_GAMEWEEK : Z)
  (api_now_cost : Z -> option Z) (db_price : Z -> string -> Z -> option Z)
  (sq : Squad) (p : CandidatePlayer) (season : string) (gw : Z)
  (use_api : bool) (now : Z) :
  In p (players sq) ->
  NoDup (map player_id (players sq)) ->
  current_price CURRENT_SEASON NEXT_GAMEWEEK api_now_cost db_price
    (player_id p) use_api season gw = Some now ->
  now <> 0 ->
  let r := remove_player CURRENT_SEASON NEXT_GAMEWEEK api_now_cost db_price
             sq (player_id p) None season gw use_api in
  let credit := budget (snd r) - budget sq in
  fst r = true /\
  (now <= purchase_price p -> credit = now) /\
  (purchase_price p < now ->
   credit = (now + purchase_price p) / 2 /\
   2 * credit <= now + purchase_price p < 2 * credit + 2) /\
  pp_get (num_position (snd r)) (position p)
  = pp_get (num_position sq) (position p) - 1 /\
  (forall pos, pos <> position p ->
     pp_get (num_position (snd r)) pos = pp_get (num_position sq) pos) /\
  players (snd r) = remove_first (players sq) (player_id p) /\
  ~ In p (players (snd r)).
Proof.
  intros Hin Hn Hnow Hnz r credit. subst credit r.
  unfold remove_player. rewrite (find_player_unique _ _ Hin Hn).
  cbn [fst snd budget num_position players].
  unfold get_sell_price_for_player. rewrite Hnow.
  assert (Ht : truthy (Some now) = true).
  { simpl. destruct (Z.eqb_spec now 0); [contradiction|reflexivity]. }
  rewrite Ht.
  split; [reflexivity|]. split; [|split; [|split; [|split; [|split]]]].
  - intros Hle. destruct (Z.ltb_spec (purchase_price p) now); lia.
  - intros Hlt. destruct (Z.ltb_spec (purchase_price p) now); [|lia].
    pose proof (Z.div_mod (now + purchase_price p) 2 ltac:(lia)).
    pose proof (Z.mod_pos_bound (now + purchase_price p) 2 ltac:(lia)).
    split; lia.
  - apply pp_get_set_same.
  - intros pos Hpos. apply pp_get_set_other. congruence.
  - reflexivity.
  - intros Hin'.
    assert (Hid : In (player_id p)
                     (map player_id (remove_first (players sq) (player_id p))))
      by (now apply in_map).
    clear - Hid Hn. induction (players sq) as [|q l IH]; simpl in *; [tauto|].
    inversion Hn as [|? ? Hq Hl]; subst.
    destruct (Z.eqb_spec (player_id q) (player_id p)) as [E|E].
    + apply Hq. now rewrite E.
    + simpl in Hid. destruct Hid as [Hid|Hid]; [congruence|auto].
Qed.

Lemma remove_player_credits_sale_price_witness :
  let sq := snd (run_ops "2021" 1 no_api sample_db (Squad_init 1000)
                   three_from_one_team) in
  let r := remove_player "2021" 1 no_api sample_db sq 2 None "2021" 1 false in
  fst r = true /\ budget (snd r) - budget sq = 56 /\
  pp_get (num_position (snd r)) DEF = pp_get (num_position sq) DEF - 1.
Proof.
  pose proof (remove_player_credits_sale_price "2021" 1 no_api sample_db
    (snd (run_ops "2021" 1 no_api sample_db (Squad_init 1000)
            three_from_one_team))
    (sample_player 2 "Tierney" "ARS" DEF 55) "2021" 1 false 58) as H.
  destruct H as (Hok & _ & Hmid & Hpos & _).
  - simpl. auto.
  - simpl. repeat constructor; simpl; intuition discriminate.
  - reflexivity.
  - discriminate.
  - split; [exact Hok|]. split; [|exact Hpos].
    destruct Hmid as [Hmid _]; [simpl; lia|]. exact Hmid.
Defined.

(** ** [add_player] *)

(** C8: [add_player] takes its decision by the first check that fails, in
    the order duplicate id, position quota, budget (when [check_budget]),
    team (when [check_team]); a failed call returns [False] and the squad it
    was given, unchanged; a call whose enabled checks all pass returns
    [True], appends the player, adds one to the count of the player's
    position and takes the purchase price off the budget. *)
Theorem add_player_checks_in_order
  (sq : Squad) (p : CandidatePlayer) (price : option Z) (cb ct : bool) :
  let player := with_price p price in
  let r := add_player sq p price cb ct in
  let dup := In (player_id player) (map player_id (players sq)) in
  let full := pp_get TOTAL_PER_POSITION (position player)
              <= pp_get (num_position sq) (position player) in
  let poor := cb = true /\ budget sq < purchase_price player in
  let crowded := ct = true /\ 3 <= team_count (players sq) (team player) in
  (dup -> add_player_outcome sq player cb ct = AlreadyInTeam) /\
  (~ dup -> full ->
   add_player_outcome sq player cb ct = TooManyInPosition) /\
  (~ dup -> ~ full -> poor ->
   add_player_outcome sq player cb ct = CannotAfford) /\
  (~ dup -> ~ full -> ~ poor -> crowded ->
   add_player_outcome sq player cb ct = TooManyFromTeam) /\
  (~ dup -> ~ full -> ~ poor -> ~ crowded ->
   add_player_outcome sq player cb ct = Added) /\
  (add_player_outcome sq player cb ct <> Added -> r = (false, sq)) /\
  (add_player_outcome sq player cb ct = Added ->
   fst r = true /\
   players (snd r) = (players sq ++ [player])%list /\
   pp_get (num_position (snd r)) (position player)
   = pp_get (num_position sq) (position player) + 1 /\
   (forall pos, pos <> position player ->
      pp_get (num_position (snd r)) pos = pp_get (num_position sq) pos) /\
   budget (snd r) = budget sq - purchase_price player).
Proof.
  intros player r dup full poor crowded.
  pose proof (add_player_outcome_sound sq player cb ct) as Hs.
  subst dup full poor crowded. cbv zeta.
  split; [|split; [|split; [|split; [|split; [|split]]]]].
  - intros Hdup.
    destruct (add_player_outcome sq player cb ct); try reflexivity;
      destruct Hs as (Hn & _); contradiction.
  - intros Hdup Hfull.
    destruct (add_player_outcome sq player cb ct); try reflexivity;
      try contradiction; destruct Hs as (_ & Hlt & _); lia.
  - intros Hdup Hfull [Hcb Hpoor].
    destruct (add_player_outcome sq player cb ct); try reflexivity;
      try contradiction.
    + destruct Hs as (_ & Hge). contradiction.
    + destruct Hs as (_ & _ & Hc & _). specialize (Hc Hcb). lia.
    + destruct Hs as (_ & _ & Hc & _). specialize (Hc Hcb). lia.
  - intros Hdup Hfull Hpoor [Hct Hcrowd].
    destruct (add_player_outcome sq player cb ct); try reflexivity;
      try contradiction.
    + destruct Hs as (_ & Hge). contradiction.
    + destruct Hs as (_ & _ & Hc & Hb). exfalso. apply Hpoor. auto.
    + destruct Hs as (_ & _ & _ & Ht). specialize (Ht Hct). lia.
  - intros Hdup Hfull Hpoor Hcrowd.
    destruct (add_player_outcome sq player cb ct); try reflexivity;
      try contradiction.
    + destruct Hs as (_ & Hge). contradiction.
    + destruct Hs as (_ & _ & Hc & Hb). exfalso. apply Hpoor. auto.
    + destruct Hs as (_ & _ & _ & Hc & Ht). exfalso. apply Hcrowd. auto.
  - intros Hne.
    destruct (add_player_cases sq p price cb ct) as [[Ho _]|[_ E]];
      [contradiction | exact E].
  - intros Ho. subst r. unfold add_player. fold player. rewrite Ho.
    cbn [fst snd commit_player players num_position budget].
    repeat split.
    + apply pp_get_set_same.
    + intros pos Hpos. apply pp_get_set_other. congruence.
Qed.

Lemma add_player_checks_in_order_witness :
  let sq := snd (run_ops "2021" 1 no_api no_db (Squad_init 1000)
                   three_from_one_team) in
  add_player sq (sample_player 2 "Tierney" "ARS" FWD 5000) None true true
  = (false, sq) /\
  add_player_outcome sq (sample_player 4 "Kane" "TOT" FWD 5000) true true
  = CannotAfford.
Proof.
  split.
  - apply (add_player_checks_in_order
      (snd (run_ops "2021" 1 no_api no_db (Squad_init 1000) three_from_one_team))
      (sample_player 2 "Tierney" "ARS" FWD 5000) None true true).
    assert (E : add_player_outcome
      (snd (run_ops "2021" 1 no_api no_db (Squad_init 1000) three_from_one_team))
      (with_price (sample_player 2 "Tierney" "ARS" FWD 5000) None) true true
      = AlreadyInTeam).
    { apply (add_player_checks_in_order
        (snd (run_ops "2021" 1 no_api no_db (Squad_init 1000)
                three_from_one_team))
        (sample_player 2 "Tierney" "ARS" FWD 5000) None true true).
      vm_compute. auto. }
    rewrite E. discriminate.
  - apply (add_player_checks_in_order
      (snd (run_ops "2021" 1 no_api no_db (Squad_init 1000) three_from_one_team))
      (sample_player 4 "Kane" "TOT" FWD 5000) None true true).
    + vm_compute. intuition discriminate.
    + vm_compute. intros H. now apply H.
    + vm_compute. split; reflexivity.
Defined.

(* ================================================================== *)
(** * Points hits and the expected leaf count *)
(* ================================================================== *)

Lemma int_of_char_digit n :
  0 <= n <= 9 -> int_of_char (digit_char n) = ret n.
Proof.
  intros H. unfold int_of_char, digit_char.
  rewrite nat_ascii_embedding by lia.
  rewrite Z2Nat.id by lia.
  destruct (Z.leb_spec 48 (48 + n)); [|lia].
  destruct (Z.leb_spec (48 + n) 57); [|lia].
  cbn [andb]. unfold ret. f_equal. lia.
Qed.

(** The codes ["T0"] .. ["T9"], ["B0"] .. ["B9"] have the paid-transfer
    component their digit says. *)
Lemma paid_transfers_chip_code chip n :
  chip = "T"%char \/ chip = "B"%char -> 0 <= n <= 9 ->
  paid_transfers (chip_code chip n) = Some n.
Proof.
  intros Hc Hn. unfold chip_code, paid_transfers.
  rewrite (int_of_char_digit n Hn).
  destruct Hc as [-> | ->]; reflexivity.
Qed.

Lemma calc_points_hit_paid d f n :
  paid_transfers d = Some n ->
  calc_points_hit d f = ret (Z.max 0 (4 * (n - f))).
Proof.
  destruct d as [m|s]; simpl.
  - now intros [= ->].
  - destruct s as [|c [|k [|? ?]]]; try discriminate.
    destruct (Ascii.eqb c "T" || Ascii.eqb c "B")%char eqn:Hc;
      [|discriminate].
    destruct (int_of_char k) as [e|m] eqn:Hk; [discriminate|].
    intros [= ->].
    apply orb_true_iff in Hc.
    destruct Hc as [Hc|Hc]; apply Ascii.eqb_eq in Hc; subst c;
      unfold calc_points_hit, startswith; simpl; rewrite Hk; reflexivity.
Qed.

(** C2: [calc_points_hit] gives 0 for the wildcard ["W"] and the free hit
    ["F"]; for a directive whose paid-transfer component is [n] (the integer
    [n], or a code ["Tn"] / ["Bn"]) it gives [max 0 (4 * (n - f))], which is
    0 for no transfer, [4 * (n - f)] when [n > f], and 0 otherwise. *)
Theorem calc_points_hit_correct (d : Directive) (f : Z) :
  0 <= f ->
  (d = DStr "W" \/ d = DStr "F" -> calc_points_hit d f = ret 0) /\
  (forall n, paid_transfers d = Some n ->
     calc_points_hit d f = ret (Z.max 0 (4 * (n - f))) /\
     (n = 0 -> calc_points_hit d f = ret 0) /\
     (f < n -> calc_points_hit d f = ret (4 * (n - f))) /\
     (n <= f -> calc_points_hit d f = ret 0)).
Proof.
  intros Hf. split.
  - intros [-> | ->]; reflexivity.
  - intros n Hn. rewrite (calc_points_hit_paid d f n Hn).
    repeat split; intros; f_equal; lia.
Qed.

Lemma calc_points_hit_correct_witness :
  calc_points_hit (DStr "F") 1 = ret 0 /\
  calc_points_hit (chip_code "T" 1) 0 = ret 4 /\
  calc_points_hit (DInt 2) 1 = ret 4 /\
  calc_points_hit (DInt 0) 2 = ret 0.
Proof.
  split; [|split; [|split]].
  - apply (calc_points_hit_correct (DStr "F") 1); [lia | now right].
  - destruct (calc_points_hit_correct (chip_code "T" 1) 0 ltac:(lia))
      as [_ H].
    destruct (H 1 eq_refl) as (_ & _ & Hgt & _). now rewrite Hgt by lia.
  - destruct (calc_points_hit_correct (DInt 2) 1 ltac:(lia)) as [_ H].
    destruct (H 2 eq_refl) as (_ & _ & Hgt & _). now rewrite Hgt by lia.
  - destruct (calc_points_hit_correct (DInt 0) 2 ltac:(lia)) as [_ H].
    destruct (H 0 eq_refl) as (_ & Hzero & _). now rewrite Hzero.
Defined.

(** Without chips the count is a power of three, for every horizon the
    recursion depth allows. *)
Lemma count_expected_outputs_no_chips depth :
  forall week max_week,
    week < max_week ->
    (Z.to_nat (max_week - week) <= depth)%nat ->
    count_expected_outputs depth week max_week false false false false
    = ret (3 ^ (max_week - week)).
Proof.
  induction depth as [|depth IH]; intros week max_week Hlt Hd; [lia|].
  cbn [count_expected_outputs int_of_bool].
  destruct (Z.eqb_spec (week + 1) max_week) as [E|E].
  - subst max_week. replace (week + 1 - week) with 1 by lia. reflexivity.
  - rewrite (IH (week + 1) max_week) by lia.
    cbn [bind ret]. unfold ret. f_equal.
    replace (max_week - week) with (Z.succ (max_week - (week + 1))) by lia.
    rewrite Z.pow_succ_r by lia. lia.
Qed.

(** C3: with no chip enabled, [count_expected_outputs(0, N, False, False,
    False, False)] returns 3^N for every horizon length N from 1 to 5
    (given a recursion depth of at least N). *)
Theorem count_expected_outputs_power_of_three (N : Z) (depth : nat) :
  1 <= N <= 5 ->
  (Z.to_nat N <= depth)%nat ->
  count_expected_outputs depth 0 N false false false false = ret (3 ^ N).
Proof.
  intros HN Hd.
  rewrite count_expected_outputs_no_chips by (rewrite ?Z.sub_0_r; lia).
  now rewrite Z.sub_0_r.
Qed.

Lemma count_expected_outputs_power_of_three_witness :
  count_expected_outputs 1000 0 5 false false false false = ret 243.
Proof.
  apply (count_expected_outputs_power_of_three 5 1000); [lia|].
  apply Nat.leb_le. reflexivity.
Defined.

(* ================================================================== *)
(** * Complete squads and the line-up code *)
(* ================================================================== *)

Section LineUp.

Context {F : PyFloat}.

Lemma insert_by_length {A} (before : A -> A -> bool) x l :
  List.length (insert_by before x l) = S (List.length l).
Proof.
  induction l as [|y l IH]; simpl; [reflexivity|].
  destruct (before y x); simpl; [now rewrite IH | reflexivity].
Qed.

Lemma stable_sort_length {A} (before : A -> A -> bool) l :
  List.length (stable_sort before l) = List.length l.
Proof.
  induction l as [|x l IH]; simpl; [reflexivity|].
  unfold stable_sort in *. simpl. now rewrite insert_by_length, IH.
Qed.

Lemma enumerate_from_snd {A} (l : list A) k :
  map snd (enumerate_from k l) = l.
Proof.
  revert k. induction l as [|x l IH]; intros k; simpl; [reflexivity|].
  now rewrite IH.
Qed.

Lemma filter_enumerate_length {A} (f : A -> bool) (l : list A) k :
  List.length (filter (fun ip => f (snd ip)) (enumerate_from k l))
  = List.length (filter f l).
Proof.
  revert k. induction l as [|x l IH]; intros k; simpl; [reflexivity|].
  destruct (f x); simpl; now rewrite IH.
Qed.

Lemma entries_for_length l tag gw pos :
  Z.of_nat (List.length (entries_for l tag gw pos)) = count_position l pos.
Proof.
  unfold entries_for, count_position. rewrite length_map.
  now rewrite (filter_enumerate_length
                 (fun p => Position_eqb (position p) pos)).
Qed.

Lemma count_position_map f l pos :
  (forall p, position (f p) = position p) ->
  count_position (map f l) pos = count_position l pos.
Proof.
  intros Hf. induction l as [|p l IH]; [reflexivity|].
  simpl map. now rewrite !count_position_cons, IH, Hf.
Qed.

(** A squad whose bookkeeping is right and whose counts sum to 15 has its
    quotas exactly filled. *)
Lemma complete_counts sq :
  squad_ok sq -> is_complete sq = true ->
  count_position (players sq) GK = 2 /\
  count_position (players sq) DEF = 5 /\
  count_position (players sq) MID = 5 /\
  count_position (players sq) FWD = 3.
Proof.
  intros (Hc & Hq & _) Hcomp. unfold is_complete in Hcomp.
  apply Z.eqb_eq in Hcomp.
  pose proof (Hc GK) as C1. pose proof (Hc DEF) as C2.
  pose proof (Hc MID) as C3. pose proof (Hc FWD) as C4.
  pose proof (Hq GK) as Q1. pose proof (Hq DEF) as Q2.
  pose proof (Hq MID) as Q3. pose proof (Hq FWD) as Q4.
  simpl in *. lia.
Qed.

(** ** Which exceptions the line-up code can raise *)

Lemma fails_only_bind {A B} (m : result A) (k : A -> result B) :
  fails_only_on_key_or_type m ->
  (forall a, m = inr a -> fails_only_on_key_or_type (k a)) ->
  fails_only_on_key_or_type (bind m k).
Proof.
  intros Hm Hk e. destruct m as [e'|a]; simpl.
  - intros [= <-]. now apply Hm.
  - now apply Hk.
Qed.

Lemma fails_only_ret {A} (a : A) : fails_only_on_key_or_type (ret a).
Proof. intros e. discriminate. Qed.

Lemma lookup_points_fails_only p tag gw :
  fails_only_on_key_or_type (lookup_points p tag gw).
Proof.
  intros e. unfold lookup_points.
  destruct (assoc_string tag (predicted_points p)) as [d|];
    [destruct (assoc_Z gw d)|]; intros [= <-] || discriminate; now left.
Qed.

Lemma total_points_loop_fails_only l gw tag tc : forall total,
  fails_only_on_key_or_type (total_points_loop l gw tag tc total).
Proof.
  induction l as [|p l IH]; intros total; simpl.
  - apply fails_only_ret.
  - destruct (is_starting p); [|apply IH].
    apply fails_only_bind; [apply lookup_points_fails_only|].
    intros pts _. apply IH.
Qed.

Lemma entries_with_points_fails_only l tag gw :
  fails_only_on_key_or_type (entries_with_points l tag gw).
Proof.
  induction l as [|[i p] l IH]; simpl.
  - apply fails_only_ret.
  - apply fails_only_bind; [apply lookup_points_fails_only|].
    intros pts _. apply fails_only_bind; [apply IH|].
    intros rest _. apply fails_only_ret.
Qed.

Lemma apply_formation_fails_only l d f :
  fails_only_on_key_or_type (apply_formation l d f).
Proof.
  intros e. unfold apply_formation.
  destruct f as [[[nd nm] nf]|]; [discriminate|].
  destruct (at_DEF d), (at_MID d), (at_FWD d);
    intros [= <-] || discriminate; now right.
Qed.

Lemma formation_loop_fails_only d gw tag fs : forall l best bf,
  fails_only_on_key_or_type (formation_loop l d gw tag fs best bf).
Proof.
  induction fs as [|f fs IH]; intros l best bf; cbn [formation_loop].
  - apply fails_only_ret.
  - apply fails_only_bind; [apply apply_formation_fails_only|].
    intros l1 _.
    apply fails_only_bind;
      [unfold total_points_for_starting_11;
       apply total_points_loop_fails_only|].
    intros score _. destruct (Qle_bool best score); apply IH.
Qed.

Lemma order_substitutes_fails_only l gw tag :
  fails_only_on_key_or_type (order_substitutes l gw tag).
Proof.
  unfold order_substitutes.
  apply fails_only_bind; [apply entries_with_points_fails_only|].
  intros pts _. apply fails_only_ret.
Qed.

(** With two goalkeepers found, [optimize_subs] can no longer fail on an
    index. *)
Lemma optimize_subs_no_index_error l gw tag i j :
  first_two_goalkeepers (build_player_dict l tag gw) = ret (i, j) ->
  optimize_subs l gw tag <> raise IndexError.
Proof.
  intros Hgk Hraise. unfold optimize_subs in Hraise.
  rewrite Hgk in Hraise. cbn [bind ret] in Hraise.
  assert (H : fails_only_on_key_or_type (@raise (list CandidatePlayer * Q)
                                           IndexError)).
  { rewrite <- Hraise.
    apply fails_only_bind; [apply formation_loop_fails_only|].
    intros [[l1 best] bf] _.
    apply fails_only_bind; [apply apply_formation_fails_only|].
    intros l2 _.
    apply fails_only_bind; [apply order_substitutes_fails_only|].
    intros l3 _. apply fails_only_ret. }
  destruct (H IndexError eq_refl); discriminate.
Qed.

Lemma two_entries_give_goalkeepers (d : PerPosition (list Entry)) :
  List.length (at_GK d) = 2%nat ->
  exists i j, first_two_goalkeepers d = ret (i, j).
Proof.
  unfold first_two_goalkeepers.
  destruct (at_GK d) as [|[i ?] [|[j ?] ?]]; try discriminate.
  intros _. now exists i, j.
Qed.

End LineUp.

(** C10: a squad built from an empty one by [add_player] / [remove_player]
    calls, on which [is_complete] answers [True], holds exactly 2
    goalkeepers, 5 defenders, 5 midfielders and 3 forwards.  So, when
    [get_expected_points] runs on it, [player_dict["GK"]] has a first and a
    second entry, every formation of [FORMATIONS] asks for no more players
    of a position than [player_dict] lists, and [optimize_subs] does not
    fail on an index. *)
Theorem complete_squad_fills_every_quota {F : PyFloat}
  (CURRENT_SEASON : string) (NEXT_GAMEWEEK : Z)
  (api_now_cost : Z -> option Z) (db_price : Z -> string -> Z -> option Z)
  (calc_predicted_points : string -> CandidatePlayer -> CandidatePlayer)
  (b : Z) (ops : list SquadOp) :
  (forall tag p, position (calc_predicted_points tag p) = position p) ->
  let sq := snd (run_ops CURRENT_SEASON NEXT_GAMEWEEK api_now_cost db_price
                   (Squad_init b) ops) in
  is_complete sq = true ->
  (count_position (players sq) GK = 2 /\
   count_position (players sq) DEF = 5 /\
   count_position (players sq) MID = 5 /\
   count_position (players sq) FWD = 3) /\
  forall gw tag,
    let l := _calc_expected_points calc_predicted_points (players sq) tag in
    let d := build_player_dict l tag gw in
    (exists i j, first_two_goalkeepers d = ret (i, j)) /\
    (forall nd nm nf, In (nd, nm, nf) FORMATIONS ->
       0 <= nd <= Z.of_nat (List.length (at_DEF d)) /\
       0 <= nm <= Z.of_nat (List.length (at_MID d)) /\
       0 <= nf <= Z.of_nat (List.length (at_FWD d))) /\
    optimize_subs l gw tag <> raise IndexError.
Proof.
  intros Hpos sq Hcomp.
  assert (Hok : squad_ok sq) by (apply run_ops_ok, Squad_init_ok).
  pose proof (complete_counts sq Hok Hcomp) as (HG & HD & HM & HF).
  split; [auto|].
  intros gw tag l d.
  assert (Hlen : forall pos,
    Z.of_nat (List.length (pp_get d pos)) = count_position (players sq) pos).
  { intros pos. subst d l. unfold build_player_dict, sort_by_points_desc.
    destruct pos; cbn [pp_get at_GK at_DEF at_MID at_FWD];
      rewrite stable_sort_length, entries_for_length;
      unfold _calc_expected_points; apply count_position_map; auto. }
  pose proof (Hlen GK) as LG. pose proof (Hlen DEF) as LD.
  pose proof (Hlen MID) as LM. pose proof (Hlen FWD) as LF.
  cbn [pp_get] in LG, LD, LM, LF.
  assert (Hgk : exists i j, first_two_goalkeepers d = ret (i, j))
    by (apply two_entries_give_goalkeepers; lia).
  split; [exact Hgk|]. split.
  - intros nd nm nf Hin. rewrite LD, LM, LF, HD, HM, HF.
    unfold FORMATIONS in Hin. simpl in Hin.
    repeat (destruct Hin as [Hin|Hin]; [injection Hin as <- <- <-; lia|]).
    destruct Hin.
  - destruct Hgk as (i & j & Hgk).
    eapply optimize_subs_no_index_error; eassumption.
Qed.

Lemma complete_squad_fills_every_quota_witness :
  count_position (players full_squad) GK = 2 /\
  first_two_goalkeepers (build_player_dict (players full_squad) "t" 1)
  = ret (0%nat, 1%nat) /\
  optimize_subs (F := exact_arithmetic) (players full_squad) 1 "t"
  <> raise IndexError.
Proof.
  pose proof (complete_squad_fills_every_quota (F := exact_arithmetic)
                "2021" 1 no_api no_db
                keep_predictions 1000 fifteen_purchases) as H.
  destruct H as [(HG & _) H].
  - reflexivity.
  - reflexivity.
  - destruct (H 1 "t") as (_ & _ & Hopt).
    split; [exact HG|]. split; [reflexivity|].
    unfold _calc_expected_points, keep_predictions in Hopt.
    rewrite map_id in Hopt. exact Hopt.
Defined.

(* ================================================================== *)
(** * The single-transfer search *)
(* ================================================================== *)

Lemma Qltb_lt a b : Qltb a b = true <-> (a < b)%Q.
Proof.
  unfold Qltb. rewrite negb_true_iff.
  split.
  - intros H. apply Qnot_le_lt. intros Hle.
    apply Qle_bool_iff in Hle. congruence.
  - intros H. destruct (Qle_bool b a) eqn:E; [|reflexivity].
    apply Qle_bool_iff in E. exfalso. now apply (Qlt_not_le a b).
Qed.

Lemma Qltb_ge a b : Qltb a b = false <-> (b <= a)%Q.
Proof.
  unfold Qltb. rewrite negb_false_iff. apply Qle_bool_iff.
Qed.

Section SingleTransferProperties.

Variable CURRENT_SEASON : string.
Variable NEXT_GAMEWEEK : Z.
Variable api_now_cost : Z -> option Z.
Variable db_price : Z -> string -> Z -> option Z.
Variable calc_predicted_points : string -> CandidatePlayer -> CandidatePlayer.
Variable get_predicted_points : list Z -> Position -> string -> list (Z * Q).
Variable CandidatePlayer_init : Z -> string -> Z -> CandidatePlayer.

Context {F : PyFloat}.

Local Abbreviation remove :=
  (remove_player CURRENT_SEASON NEXT_GAMEWEEK api_now_cost db_price).
Local Abbreviation scan := (scan_replacements CandidatePlayer_init).
Local Abbreviation score := (score_gameweeks calc_predicted_points).
Local Abbreviation trial :=
  (single_transfer_trial CURRENT_SEASON NEXT_GAMEWEEK api_now_cost db_price
     calc_predicted_points get_predicted_points CandidatePlayer_init).
Local Abbreviation loop :=
  (single_transfer_loop CURRENT_SEASON NEXT_GAMEWEEK api_now_cost db_price
     calc_predicted_points get_predicted_points CandidatePlayer_init).

Local Abbreviation passed_over := (skipped_by_scan CandidatePlayer_init).

(** The scan is first-fit: it stops at the first candidate, other than the
    removed player, that [add_player] accepts. *)
Lemma scan_replacements_first_fit candidates :
  forall sq pid_out season transfer_gw sq' last,
  scan sq candidates pid_out season transfer_gw = (sq', last) ->
  (exists pre c post,
     candidates = (pre ++ c :: post)%list /\
     Forall (passed_over sq pid_out season transfer_gw) pre /\
     fst c <> pid_out /\
     add_player sq (CandidatePlayer_init (fst c) season transfer_gw)
                None true true = (true, sq') /\
     last = Some (fst c))
  \/
  (sq' = sq /\ Forall (passed_over sq pid_out season transfer_gw) candidates).
Proof.
  induction candidates as [|c rest IH];
    intros sq pid_out season transfer_gw sq' last Hscan.
  - simpl in Hscan. injection Hscan as <- <-. right. split; constructor.
  - cbn [scan_replacements] in Hscan.
    assert (Hcont : forall (Hpass : passed_over sq pid_out season transfer_gw c),
      (let '(sq1, last1) := scan sq rest pid_out season transfer_gw in
       (sq1, match last1 with Some _ => last1 | None => Some (fst c) end))
      = (sq', last) ->
      (exists pre c0 post,
         c :: rest = (pre ++ c0 :: post)%list /\
         Forall (passed_over sq pid_out season transfer_gw) pre /\
         fst c0 <> pid_out /\
         add_player sq (CandidatePlayer_init (fst c0) season transfer_gw)
                    None true true = (true, sq') /\
         last = Some (fst c0))
      \/ (sq' = sq /\
          Forall (passed_over sq pid_out season transfer_gw) (c :: rest))).
    { intros Hpass Heq.
      destruct (scan sq rest pid_out season transfer_gw) as [sq1 last1] eqn:Hr.
      injection Heq as <- <-.
      destruct (IH _ _ _ _ _ _ Hr)
        as [(pre & c0 & post & -> & Hpre & Hne & Hadd & ->)|[-> Hall]].
      - left. exists (c :: pre), c0, post. repeat split; auto.
      - right. split; [reflexivity|]. now constructor. }
    destruct (Z.eqb_spec (fst c) pid_out) as [E|E].
    + apply Hcont; [now left | exact Hscan].
    + destruct (add_player sq (CandidatePlayer_init (fst c) season transfer_gw)
                  None true true) as [ok sq1] eqn:Hadd.
      destruct ok.
      * injection Hscan as <- <-. left. exists [], c, rest.
        repeat split; auto.
      * assert (sq1 = sq).
        { destruct (add_player_cases sq
                      (CandidatePlayer_init (fst c) season transfer_gw)
                      None true true) as [[_ H]|[_ H]];
            rewrite H in Hadd; congruence. }
        subst sq1. apply Hcont; [right; exact Hadd | exact Hscan].
Qed.

(** After a sale, a squad with sound bookkeeping is not complete. *)
Lemma removed_squad_incomplete sq p season gw use_api :
  squad_ok sq -> In p (players sq) ->
  is_complete (snd (remove sq (player_id p) None season gw use_api)) = false.
Proof.
  intros Hok Hin. destruct Hok as (Hc & Hq & Hn).
  unfold remove_player. rewrite (find_player_unique _ _ Hin Hn).
  cbn [snd]. unfold is_complete. cbn [num_position].
  apply Z.eqb_neq.
  pose proof (Hc GK) as C1. pose proof (Hc DEF) as C2.
  pose proof (Hc MID) as C3. pose proof (Hc FWD) as C4.
  pose proof (Hq GK) as Q1. pose proof (Hq DEF) as Q2.
  pose proof (Hq MID) as Q3. pose proof (Hq FWD) as Q4.
  destruct (position p); simpl in *; lia.
Qed.

Lemma score_incomplete sq gw gws first_gw tag bb tc total :
  is_complete sq = false ->
  score sq (gw :: gws) first_gw tag bb tc total
  = raise (RuntimeError "Squad is incomplete").
Proof.
  intros H. cbn [score_gameweeks]. unfold get_expected_points.
  rewrite H. reflexivity.
Qed.

(** [score_gameweeks] computes the discounted score, and nothing else. *)
Lemma score_gameweeks_discounted gws :
  forall sq first_gw tag bb tc total total' sq',
  score sq gws first_gw tag bb tc total = ret (total', sq') <->
  discounted_score calc_predicted_points first_gw tag bb tc sq gws total
                   total' sq'.
Proof.
  induction gws as [|gw gws IH]; intros sq first_gw tag bb tc total total' sq'.
  - cbn [score_gameweeks]. split.
    + intros [= <- <-]. constructor.
    + intros H. inversion H; subst. reflexivity.
  - cbn [score_gameweeks]. split.
    + destruct (get_expected_points calc_predicted_points sq gw tag
                  (is_gameweek gw bb)
                  (negb (is_gameweek gw bb) && is_gameweek gw tc))
        as [e|[pts sq1]] eqn:He; [discriminate|]. cbn [bind ret].
      destruct (default_discount_factor first_gw gw) as [e|d] eqn:Hd;
        [discriminate|]. cbn [bind ret].
      intros H. apply IH in H. econstructor; eassumption.
    + intros H. inversion H as [|? ? ? ? pts sq1 d ? ? He Hd Hrest]; subst.
      rewrite He. cbn [bind ret]. rewrite Hd. cbn [bind ret].
      now apply IH.
Qed.

(** The scan runs to the first candidate that is not passed over. *)
Lemma scan_replacements_reaches pre :
  forall sq c post added pid_out season transfer_gw,
  Forall (passed_over sq pid_out season transfer_gw) pre ->
  fst c <> pid_out ->
  add_player sq (CandidatePlayer_init (fst c) season transfer_gw)
             None true true = (true, added) ->
  scan sq (pre ++ c :: post)%list pid_out season transfer_gw
  = (added, Some (fst c)).
Proof.
  induction pre as [|x pre IH];
    intros sq c post added pid_out season transfer_gw Hpre Hne Hadd;
    cbn [app scan_replacements].
  - destruct (Z.eqb_spec (fst c) pid_out) as [E|_]; [contradiction|].
    rewrite Hadd. reflexivity.
  - inversion Hpre as [|? ? Hx Hrest]; subst.
    specialize (IH sq c post added pid_out season transfer_gw Hrest Hne Hadd).
    destruct (Z.eqb_spec (fst x) pid_out) as [E|Ne].
    + rewrite IH. reflexivity.
    + destruct Hx as [Hx|Hx]; [contradiction|].
      rewrite Hx. rewrite IH. reflexivity.
Qed.

Section Search.

Variable squad : Squad.
Variable tag : string.
Variable first_gw : Z.
Variable later_gws : list Z.
Variable season : string.
Variable bench_boost_gw triple_captain_gw : option Z.

Local Abbreviation gameweek_range := (first_gw :: later_gws).
Local Abbreviation transfer_gw := (list_min first_gw later_gws).
Local Abbreviation trial_of :=
  (fun p => trial squad p tag first_gw gameweek_range season bench_boost_gw
                  triple_captain_gw).

(** A trial that gets as far as its total has found a replacement by
    first fit. *)
Lemma trial_found_replacement p_out total sq last :
  squad_ok squad -> In p_out (players squad) ->
  trial_of p_out = ret (total, sq, last) ->
  let removed :=
    snd (remove squad (player_id p_out) None season transfer_gw false) in
  exists pre c post added,
    get_predicted_points gameweek_range (position p_out) tag
    = (pre ++ c :: post)%list /\
    Forall (passed_over removed (player_id p_out) season transfer_gw) pre /\
    fst c <> player_id p_out /\
    add_player removed (CandidatePlayer_init (fst c) season transfer_gw)
               None true true = (true, added) /\
    last = Some (fst c) /\
    score added gameweek_range first_gw tag bench_boost_gw triple_captain_gw
          0%Q = ret (total, sq).
Proof.
  intros Hok Hin Htrial removed.
  unfold single_transfer_trial in Htrial. cbn [tl] in Htrial.
  fold removed in Htrial.
  destruct (scan removed
              (get_predicted_points gameweek_range (position p_out) tag)
              (player_id p_out) season transfer_gw) as [sq1 last1] eqn:Hscan.
  destruct (score sq1 gameweek_range first_gw tag bench_boost_gw
              triple_captain_gw 0%Q) as [e|[total1 sq2]] eqn:Hscore;
    [discriminate|].
  cbn [bind ret] in Htrial. injection Htrial as <- <- <-.
  destruct (scan_replacements_first_fit _ _ _ _ _ _ _ Hscan)
    as [(pre & c & post & Hc & Hpre & Hne & Hadd & ->)|[-> _]].
  - exists pre, c, post, sq1. repeat split; auto.
  - exfalso. rewrite score_incomplete in Hscore; [discriminate|].
    now apply removed_squad_incomplete.
Qed.

(** The outer loop keeps the first trial of strictly highest total. *)
Lemma single_transfer_loop_keeps_maximum outs :
  forall best p_in,
  (forall p, In p outs ->
     exists total sq c, trial_of p = ret (total, sq, Some c)) ->
  exists best',
    loop squad outs tag first_gw gameweek_range season bench_boost_gw
         triple_captain_gw best p_in = ret best' /\
    ((best' = best /\
      forall p total sq last, In p outs ->
        trial_of p = ret (total, sq, last) ->
        (total <= best_score best)%Q)
     \/
     (exists p total sq c,
        In p outs /\ trial_of p = ret (total, sq, Some c) /\
        best' = mkBest total (player_id p) c (Some sq) /\
        (best_score best < total)%Q /\
        forall p' total' sq' last', In p' outs ->
          trial_of p' = ret (total', sq', last') ->
          (total' <= total)%Q)).
Proof.
  induction outs as [|p outs IH]; intros best p_in Hall.
  - exists best. split; [reflexivity|]. left. split; [reflexivity|].
    intros ? ? ? ? [].
  - destruct (Hall p (or_introl eq_refl)) as (total & sq & c & Hp).
    assert (Hrest : forall q, In q outs ->
              exists total sq c, trial_of q = ret (total, sq, Some c))
      by (intros q Hq; apply Hall; now right).
    cbn [single_transfer_loop]. rewrite Hp. cbn [bind ret].
    destruct (Qltb (best_score best) total) eqn:Hlt.
    + apply Qltb_lt in Hlt.
      destruct (IH (mkBest total (player_id p) c (Some sq)) (Some c) Hrest)
        as (best' & Hloop & Hcase).
      exists best'. split; [exact Hloop|]. right.
      destruct Hcase as [[-> Hle]|(p2 & t2 & sq2 & c2 & Hin2 & Ht2 & -> & Hgt
                                     & Hle)].
      * exists p, total, sq, c. repeat split; auto; [now left|].
        intros p' total' sq' last' [<-|Hin'] Ht'.
        -- rewrite Hp in Ht'. injection Ht' as <- <- <-. apply Qle_refl.
        -- apply (Hle p' total' sq' last' Hin' Ht').
      * cbn [best_score] in Hgt.
        exists p2, t2, sq2, c2. repeat split; auto; [now right| |].
        -- eapply Qlt_trans; eassumption.
        -- intros p' total' sq' last' [<-|Hin'] Ht'.
           ++ rewrite Hp in Ht'. injection Ht' as <- <- <-.
              now apply Qlt_le_weak.
           ++ apply (Hle p' total' sq' last' Hin' Ht').
    + apply Qltb_ge in Hlt.
      destruct (IH best (Some c) Hrest) as (best' & Hloop & Hcase).
      exists best'. split; [exact Hloop|].
      destruct Hcase as [[-> Hle]|(p2 & t2 & sq2 & c2 & Hin2 & Ht2 & -> & Hgt
                                     & Hle)].
      * left. split; [reflexivity|].
        intros p' total' sq' last' [<-|Hin'] Ht'.
        -- rewrite Hp in Ht'. injection Ht' as <- <- <-. exact Hlt.
        -- apply (Hle p' total' sq' last' Hin' Ht').
      * right. exists p2, t2, sq2, c2. repeat split; auto; [now right|].
        intros p' total' sq' last' [<-|Hin'] Ht'.
        -- rewrite Hp in Ht'. injection Ht' as <- <- <-.
           apply Qlt_le_weak. eapply Qle_lt_trans; eassumption.
        -- apply (Hle p' total' sq' last' Hin' Ht').
Qed.

End Search.

End SingleTransferProperties.


Local Abbreviation sample_single_transfer :=
  (make_optimum_single_transfer (F := exact_arithmetic) "2021" 1 no_api no_db
     keep_predictions sample_ranking sample_candidate full_squad "t" [1]
     "2021" None None).

Local Abbreviation sample_trial :=
  (fun p =>
     single_transfer_trial (F := exact_arithmetic) "2021" 1 no_api no_db
       keep_predictions sample_ranking sample_candidate full_squad p "t" 1
       [1] "2021" None None).


(* ================================================================== *)
(** * [apply_strategy] and the free hit *)
(* ================================================================== *)

Section ApplyStrategyProperties.

Context {F : PyFloat}.

Variable CURRENT_SEASON : string.
Variable NEXT_GAMEWEEK : Z.
Variable api_now_cost : Z -> option Z.
Variable db_price : Z -> string -> Z -> option Z.
Variable calc_predicted_points : string -> CandidatePlayer -> CandidatePlayer.
Variable get_predicted_points : list Z -> Position -> string -> list (Z * Q).
Variable CandidatePlayer_init : Z -> string -> Z -> CandidatePlayer.
Variable transactions : list Transaction.
Variable Rng : Type.
Variable get_squad_value : Squad + list Z -> result Z.
Variable make_optimum_double_transfer :
  Squad -> string -> list Z -> option Z -> option Z ->
  result (Squad * list Z * list Z).
Variable make_new_squad :
  Rng -> Z -> Z -> string -> list Z -> option Z -> option Z ->
  result (option Squad * Rng).
Variable make_random_transfers :
  Rng -> Squad -> string -> Directive -> list Z -> Z -> option Z -> option Z ->
  result (option Squad * list Z * list Z * Rng).

Local Abbreviation directive :=
  (apply_directive CURRENT_SEASON NEXT_GAMEWEEK api_now_cost db_price
     calc_predicted_points get_predicted_points CandidatePlayer_init Rng
     get_squad_value make_optimum_double_transfer make_new_squad
     make_random_transfers).
Local Abbreviation process :=
  (process_gameweek CURRENT_SEASON NEXT_GAMEWEEK api_now_cost db_price
     calc_predicted_points get_predicted_points CandidatePlayer_init Rng
     get_squad_value make_optimum_double_transfer make_new_squad
     make_random_transfers).
Local Abbreviation strategy :=
  (apply_strategy CURRENT_SEASON NEXT_GAMEWEEK api_now_cost db_price
     calc_predicted_points get_predicted_points CandidatePlayer_init
     transactions Rng get_squad_value make_optimum_double_transfer
     make_new_squad make_random_transfers).

(** What the free-hit branch leaves behind when it does not raise: the
    squad it was entered with is remembered, and [rp] is what it was. *)
Lemma free_hit_branch st tag gw gw_range num_iter bb tc made removed added
  keep g :
  directive st (DStr "F") tag gw gw_range num_iter bb tc
  = ret (made, removed, added, keep, g) ->
  keep = Some (new_squad st) /\ removed = rp st /\
  exists budget sq,
    get_squad_value (inr (player_ids (new_squad st))) = ret budget /\
    make_new_squad (rng st) budget num_iter tag [gw] bb tc = ret (Some sq, g)
    /\ made = Some sq /\ added = player_ids sq.
Proof.
  unfold apply_directive. cbn [Directive_eqb String.eqb Ascii.eqb Bool.eqb].
  destruct (get_squad_value (inr (player_ids (new_squad st))))
    as [e|budget] eqn:Hv; [discriminate|].
  cbn [bind ret].
  destruct (make_new_squad (rng st) budget num_iter tag [gw] bb tc)
    as [e|[[sq|] g']] eqn:Hm; try discriminate.
  cbn [bind ret]. intros [= <- <- <- <- <-].
  split; [reflexivity|]. split; [reflexivity|].
  exists budget, sq. auto.
Qed.

(** When the pass of a free-hit gameweek runs to its end, the next pass
    starts from the squad this one started from. *)
Lemma free_hit_squad_restored plan tag baseline num_iter bb tc st gw gw_range
  stop st' :
  assoc_Z gw plan = Some (DStr "F") ->
  process plan tag baseline num_iter bb tc st gw gw_range = ret (stop, st') ->
  new_squad (restore_after_free_hit st')
  = new_squad (restore_after_free_hit st).
Proof.
  intros Hplan Hrun. unfold process_gameweek in Hrun.
  rewrite Hplan in Hrun. cbn [bind ret] in Hrun.
  destruct (directive (restore_after_free_hit st) (DStr "F") tag gw gw_range
              num_iter bb tc) as [e|[[[[made removed] added] keep] g]] eqn:Hd;
    [discriminate|].
  apply free_hit_branch in Hd. destruct Hd as (-> & _ & _).
  cbn [bind ret] in Hrun.
  destruct made as [sq|]; [|discriminate]. cbn [bind ret] in Hrun.
  destruct (get_expected_points calc_predicted_points sq gw tag
              (is_gameweek gw bb) (negb (is_gameweek gw bb) && is_gameweek gw tc))
    as [e|[pts sq1]]; [discriminate|]. cbn [bind ret] in Hrun.
  destruct (default_discount_factor (hd gw gw_range) gw) as [e|factor];
    [discriminate|]. cbn [bind ret] in Hrun.
  match type of Hrun with
  | bind ?m _ = _ => destruct m as [e|[|]]; [discriminate| |]
  end; cbn [bind ret] in Hrun.
  - injection Hrun as <- <-. reflexivity.
  - destruct removed; [|discriminate].
    injection Hrun as <- <-. reflexivity.
Qed.

(** A pass for a free-hit gameweek entered with [rp] unbound and without a
    baseline never runs to its end. *)
Lemma free_hit_pass_fails_unbound plan tag num_iter bb tc st gw gw_range :
  assoc_Z gw plan = Some (DStr "F") ->
  rp (restore_after_free_hit st) = None ->
  exists e, process plan tag None num_iter bb tc st gw gw_range = raise e.
Proof.
  intros Hplan Hrp. unfold process_gameweek.
  rewrite Hplan. cbn [bind ret].
  destruct (directive (restore_after_free_hit st) (DStr "F") tag gw gw_range
              num_iter bb tc) as [e|[[[[made removed] added] keep] g]] eqn:Hd;
    [now exists e|].
  apply free_hit_branch in Hd. destruct Hd as (_ & -> & _).
  cbn [bind ret].
  destruct made as [sq|]; [|now eexists]. cbn [bind ret].
  destruct (get_expected_points calc_predicted_points sq gw tag
              (is_gameweek gw bb) (negb (is_gameweek gw bb) && is_gameweek gw tc))
    as [e|[pts sq1]]; [now exists e|]. cbn [bind ret].
  destruct (default_discount_factor (hd gw gw_range) gw) as [e|factor];
    [now exists e|]. cbn [bind ret card_of].
  rewrite Hrp. now eexists.
Qed.

(** Any plan whose earliest gameweek plays the free hit, evaluated without a
    baseline, makes [apply_strategy] raise in that gameweek. *)
Lemma free_hit_in_earliest_gameweek_raises plan points_hit tag num_iter seed
  g later :
  sorted_gameweeks plan = g :: later ->
  assoc_Z g plan = Some (DStr "F") ->
  exists e, strategy (plan, points_hit) tag None num_iter seed = raise e.
Proof.
  intros Hs Hplan. unfold apply_strategy. cbn [fst snd].
  rewrite Hs. cbn [gameweek_loop].
  match goal with
  | |- context [process_gameweek ?a ?b ?c ?d0 ?e0 ?f ?g0 ?h ?i ?j ?k ?l
                  ?pl ?tg ?bl ?ni ?bb ?tc ?st ?gw ?rg] =>
      destruct (free_hit_pass_fails_unbound pl tg ni bb tc st gw rg Hplan
                  eq_refl) as [e He]
  end.
  exists e. rewrite He. reflexivity.
Qed.

(** C5, where the code departs from it: a plan whose first gameweek [g]
    plays the free hit, evaluated without a baseline.  Whatever the squad
    value, the rebuilt squad and the directive of gameweek [g + 1] are,
    [apply_strategy] raises during gameweek [g]: the free-hit branch never
    binds [rp], which the end of the pass reads.  Gameweek [g + 1], where the
    remembered squad would come back, is not reached. *)
Theorem apply_strategy_free_hit_first_gameweek_raises
  (g : Z) (d : Directive) (points_hit : Q) (tag : string) (num_iter : Z)
  (seed : Rng) :
  exists e,
    strategy ([(g, DStr "F"); (g + 1, d)], points_hit) tag None num_iter seed
    = raise e.
Proof.
  apply free_hit_in_earliest_gameweek_raises with (g := g) (later := [g + 1]).
  - unfold sorted_gameweeks, stable_sort. cbn [map fst fold_right insert_by].
    destruct (Z.ltb_spec (g + 1) g); [lia | reflexivity].
  - cbn [assoc_Z]. now rewrite Z.eqb_refl.
Qed.

End ApplyStrategyProperties.

(** Free hit in the second gameweek of a three-week plan, on the sample
    data: the pass completes, gameweek 2 is scored on the rebuilt squad (67),
    gameweek 3 again on the squad of gameweek 1 (63); [players_out] of
    gameweek 2 is the stale [rp] of gameweek 1. *)
Example free_hit_second_gameweek :
  summary (sample_apply_strategy
             ([(1, DInt 0); (2, DStr "F"); (3, DInt 0)], 0%Q))
  = ret (Some (193%Q, [(1, 63%Q); (2, 67%Q); (3, 63%Q)],
               [(1, []);
                (2, [1; 2; 3; 4; 5; 6; 7; 8; 9; 10; 11; 12; 13; 14; 20]);
                (3, [])],
               [(1, []); (2, []); (3, [])])).
Proof. vm_compute. reflexivity. Qed.

(** Free hit in the first gameweek, on the sample data. *)
Example free_hit_first_gameweek :
  sample_apply_strategy ([(1, DStr "F"); (2, DInt 0)], 0%Q)
  = raise (UnboundLocalError "rp").
Proof. vm_compute. reflexivity. Qed.

(* ================================================================== *)
(** * The result selector *)
(* ================================================================== *)

Lemma prefix_append (s t : string) : String.prefix s (s ++ t) = true.
Proof.
  induction s as [|c s IH]; simpl; [now destruct t|].
  destruct (ascii_dec c c) as [_|Hne]; [exact IH | now contradiction Hne].
Qed.

Lemma contains_prefix (haystack needle : string) :
  String.prefix needle haystack = true -> contains haystack needle = true.
Proof. destruct haystack; simpl; now intros ->. Qed.

(** The file of a leaf of tag [tag] passes the name filter of the selector. *)
Lemma leaf_filename_selected tag sid :
  contains (leaf_filename tag sid) (strategy_marker tag) = true.
Proof. apply contains_prefix, prefix_append. Qed.

(** The selector's loop: either nothing selected beats the score it was
    entered with, or it ends on the first selected record of highest
    total. *)
Lemma best_strat_loop_maximum tag files :
  forall best_score best_strat,
  let selected fs := contains (fst fs) (strategy_marker tag) = true in
  (best_strat_loop tag files best_score best_strat = best_strat /\
   forall fs, In fs files -> selected fs ->
     (total_score (snd fs) <= best_score)%Q)
  \/
  (exists fs,
     In fs files /\ selected fs /\
     best_strat_loop tag files best_score best_strat = Some (snd fs) /\
     (best_score < total_score (snd fs))%Q /\
     forall fs', In fs' files -> selected fs' ->
       (total_score (snd fs') <= total_score (snd fs))%Q).
Proof.
  induction files as [|[filename strat] files IH]; intros best bs selected.
  - left. split; [reflexivity|]. intros ? [].
  - cbn [best_strat_loop].
    destruct (contains filename (strategy_marker tag)) eqn:Hsel; cbn [negb].
    + destruct (Qltb best (total_score strat)) eqn:Hlt.
      * apply Qltb_lt in Hlt. right.
        destruct (IH (total_score strat) (Some strat))
          as [[Hr Hle]|(fs & Hin & Hs & Hr & Hgt & Hle)].
        -- exists (filename, strat). repeat split; auto; [now left|].
           intros fs' [<-|Hin'] Hs'; [apply Qle_refl | now apply Hle].
        -- exists fs. repeat split; auto; [now right| |].
           ++ eapply Qlt_trans; eassumption.
           ++ intros fs' [<-|Hin'] Hs'; [now apply Qlt_le_weak | now apply Hle].
      * apply Qltb_ge in Hlt.
        destruct (IH best bs) as [[Hr Hle]|(fs & Hin & Hs & Hr & Hgt & Hle)].
        -- left. split; [exact Hr|].
           intros fs' [<-|Hin'] Hs'; [exact Hlt | now apply Hle].
        -- right. exists fs. repeat split; auto; [now right|].
           intros fs' [<-|Hin'] Hs'; [|now apply Hle].
           apply Qlt_le_weak. eapply Qle_lt_trans; eassumption.
    + destruct (IH best bs) as [[Hr Hle]|(fs & Hin & Hs & Hr & Hgt & Hle)].
      * left. split; [exact Hr|].
        intros fs' [<-|Hin'] Hs'; [|now apply Hle].
        unfold selected in Hs'. cbn [fst] in Hs'. congruence.
      * right. exists fs. repeat split; auto; [now right|].
        intros fs' [<-|Hin'] Hs'; [|now apply Hle].
        unfold selected in Hs'. cbn [fst] in Hs'. congruence.
Qed.

(** When some selected record has a total above 0, the selector returns a
    selected record of highest total. *)
Lemma find_best_strat_from_json_positive tag file_list :
  (exists fs, In fs file_list /\
     contains (fst fs) (strategy_marker tag) = true /\
     (0 < total_score (snd fs))%Q) ->
  exists fs,
    In fs file_list /\ contains (fst fs) (strategy_marker tag) = true /\
    find_best_strat_from_json tag file_list = Some (snd fs) /\
    forall fs', In fs' file_list ->
      contains (fst fs') (strategy_marker tag) = true ->
      (total_score (snd fs') <= total_score (snd fs))%Q.
Proof.
  intros (fs0 & Hin0 & Hs0 & Hpos).
  destruct (best_strat_loop_maximum tag file_list 0%Q None)
    as [[_ Hle]|(fs & Hin & Hs & Hr & _ & Hle)].
  - exfalso. apply (Qlt_not_le _ _ Hpos). now apply Hle.
  - exists fs. auto.
Qed.

(** When no selected record has a total above 0, the selector returns
    [None], however many records there are. *)
Lemma find_best_strat_from_json_none tag file_list :
  (forall fs, In fs file_list ->
     contains (fst fs) (strategy_marker tag) = true ->
     (total_score (snd fs) <= 0)%Q) ->
  find_best_strat_from_json tag file_list = None.
Proof.
  intros Hall.
  destruct (best_strat_loop_maximum tag file_list 0%Q None)
    as [[Hr _]|(fs & Hin & Hs & _ & Hgt & _)].
  - exact Hr.
  - exfalso. apply (Qlt_not_le _ _ Hgt). now apply Hall.
Qed.

(** C6, where the code departs from it: one persisted leaf of tag ["t"],
    with total score 0.  The set of records of the tag is not empty, its
    maximal total is 0, and the selector returns [None] instead of the
    record. *)
Theorem find_best_strat_from_json_misses_zero_total :
  let file_list := [(leaf_filename "t" "0", leaf_with_total 0)] in
  contains (leaf_filename "t" "0") (strategy_marker "t") = true /\
  find_best_strat_from_json "t" file_list = None.
Proof. split; reflexivity. Qed.

(* ================================================================== *)
(** * Further properties of the squad *)
(* ================================================================== *)

(** X1: [check_num_per_team] lets a candidate through exactly when fewer
    than three members of the squad are from the candidate's team. *)
Theorem team_check_passes_below_three (sq : Squad) (player : CandidatePlayer) :
  check_num_per_team sq player = true <->
  team_count (players sq) (team player) <= 2.
Proof.
  unfold check_num_per_team. rewrite num_per_team_loop_spec by lia. lia.
Qed.

Lemma team_check_passes_below_three_witness :
  check_num_per_team
    (snd (run_ops "2021" 1 no_api no_db Squad_default three_from_one_team))
    (sample_player 9 "Odegaard" "ARS" MID 60) = false.
Proof.
  destruct (check_num_per_team
    (snd (run_ops "2021" 1 no_api no_db Squad_default three_from_one_team))
    (sample_player 9 "Odegaard" "ARS" MID 60)) eqn:E; [|reflexivity].
  apply (team_check_passes_below_three
    (snd (run_ops "2021" 1 no_api no_db Squad_default three_from_one_team))
    (sample_player 9 "Odegaard" "ARS" MID 60)) in E.
  vm_compute in E. now contradiction E.
Defined.

Section MoreSquadProperties.

Variable CURRENT_SEASON : string.
Variable NEXT_GAMEWEEK : Z.
Variable api_now_cost : Z -> option Z.
Variable db_price : Z -> string -> Z -> option Z.

Local Abbreviation sell_price :=
  (get_sell_price_for_player CURRENT_SEASON NEXT_GAMEWEEK api_now_cost db_price).
Local Abbreviation remove :=
  (remove_player CURRENT_SEASON NEXT_GAMEWEEK api_now_cost db_price).
Local Abbreviation price_now :=
  (current_price CURRENT_SEASON NEXT_GAMEWEEK api_now_cost db_price).
Local Abbreviation run :=
  (run_ops CURRENT_SEASON NEXT_GAMEWEEK api_now_cost db_price).

Lemma find_player_some_iff l pid :
  (exists p, find_player l pid = Some p) <-> In pid (map player_id l).
Proof.
  destruct (find_player l pid) as [p|] eqn:E.
  - split; [intros _|intros _; now exists p].
    destruct (find_player_In _ _ _ E) as [Hin <-]. now apply in_map.
  - split; [intros [p Hp]; discriminate|].
    intros Hin. now apply find_player_None in E.
Qed.

Lemma find_player_snoc l p :
  ~ In (player_id p) (map player_id l) ->
  find_player (l ++ [p]) (player_id p) = Some p.
Proof.
  induction l as [|q l IH]; simpl; intros Hn.
  - now rewrite Z.eqb_refl.
  - destruct (Z.eqb_spec (player_id q) (player_id p)) as [E|E];
      [exfalso; apply Hn; now left | apply IH; tauto].
Qed.

Lemma remove_first_snoc l p :
  ~ In (player_id p) (map player_id l) ->
  remove_first (l ++ [p]) (player_id p) = l.
Proof.
  induction l as [|q l IH]; simpl; intros Hn.
  - now rewrite Z.eqb_refl.
  - destruct (Z.eqb_spec (player_id q) (player_id p)) as [E|E];
      [exfalso; apply Hn; now left | f_equal; apply IH; tauto].
Qed.

Lemma pp_set_back (d : PerPosition Z) pos :
  pp_set (pp_set d pos (pp_get d pos + 1)) pos
         (pp_get (pp_set d pos (pp_get d pos + 1)) pos - 1) = d.
Proof.
  destruct d, pos; cbn [pp_set pp_get at_GK at_DEF at_MID at_FWD];
    f_equal; lia.
Qed.

(** X2: [remove_player] returns [True] exactly when a member of the squad has
    the id; when it returns [False] the squad is the one it was given. *)
Theorem remove_player_succeeds_iff_member
  (sq : Squad) (pid : Z) (price : option Z) (season : string) (gw : Z)
  (use_api : bool) :
  (fst (remove sq pid price season gw use_api) = true <->
   In pid (map player_id (players sq))) /\
  (fst (remove sq pid price season gw use_api) = false ->
   snd (remove sq pid price season gw use_api) = sq).
Proof.
  unfold remove_player.
  destruct (find_player (players sq) pid) as [p|] eqn:E; cbn [fst snd].
  - split; [|discriminate]. split; [intros _|reflexivity].
    apply find_player_some_iff. now exists p.
  - split; [|reflexivity]. split; [discriminate|].
    intros Hin. apply find_player_some_iff in Hin. destruct Hin as [p Hp].
    congruence.
Qed.

(** X3: a purchase that [add_player] accepts, followed by [remove_player] of
    the same id at the purchase price (not 0), gives back the squad as it
    was: player list, budget and position counts. *)
Theorem add_then_remove_restores_squad
  (sq sq1 : Squad) (p : CandidatePlayer) (price : option Z) (cb ct : bool)
  (season : string) (gw : Z) (use_api : bool) :
  add_player sq p price cb ct = (true, sq1) ->
  purchase_price (with_price p price) <> 0 ->
  remove sq1 (player_id (with_price p price))
         (Some (purchase_price (with_price p price))) season gw use_api
  = (true, sq).
Proof.
  intros Hadd Hnz.
  destruct (add_player_cases sq p price cb ct) as [[Ho Heq]|[_ Heq]];
    rewrite Heq in Hadd; [|discriminate].
  injection Hadd as <-.
  pose proof (add_player_outcome_sound sq (with_price p price) cb ct) as Hs.
  rewrite Ho in Hs. destruct Hs as (Hnin & _).
  set (player := with_price p price) in *.
  unfold remove_player. cbn [commit_player players].
  rewrite (find_player_snoc _ _ Hnin), (remove_first_snoc _ _ Hnin).
  assert (Ht : truthy (Some (purchase_price player)) = true).
  { simpl. destruct (Z.eqb_spec (purchase_price player) 0);
      [contradiction|reflexivity]. }
  rewrite Ht. unfold commit_player.
  cbn [budget num_position free_subs subs_this_week verbose].
  rewrite pp_set_back. destruct sq; cbn. f_equal. f_equal. lia.
Qed.

(** X4: the sale price of [get_sell_price_for_player].  With no current
    price to be had (none found, or 0) it is the purchase price; with a
    current price it is never above that price, and after a price rise it is
    never below the purchase price. *)
Theorem sale_price_between_purchase_and_current
  (player : CandidatePlayer) (use_api : bool) (season : string) (gw : Z) :
  let sale := sell_price player use_api season gw in
  (truthy (price_now (player_id player) use_api season gw) = false ->
   sale = purchase_price player) /\
  (forall now,
     price_now (player_id player) use_api season gw = Some now -> now <> 0 ->
     sale <= now /\
     (purchase_price player <= now -> purchase_price player <= sale)).
Proof.
  cbv zeta. unfold get_sell_price_for_player. split.
  - intros Hf.
    destruct (price_now (player_id player) use_api season gw) as [v|];
      [rewrite Hf|]; now rewrite Z.ltb_irrefl.
  - intros now Hnow Hnz. rewrite Hnow.
    assert (Ht : truthy (Some now) = true).
    { simpl. destruct (Z.eqb_spec now 0); [contradiction|reflexivity]. }
    rewrite Ht.
    destruct (Z.ltb_spec (purchase_price player) now) as [Hlt|Hge].
    + pose proof (Z.div_mod (now + purchase_price player) 2 ltac:(lia)).
      pose proof (Z.mod_pos_bound (now + purchase_price player) 2 ltac:(lia)).
      lia.
    + lia.
Qed.

Lemma length_by_position (l : list CandidatePlayer) :
  Z.of_nat (List.length l)
  = count_position l GK + count_position l DEF + count_position l MID
    + count_position l FWD.
Proof.
  induction l as [|p l IH]; [reflexivity|].
  rewrite !count_position_cons. cbn [List.length].
  destruct (position p); cbn [Position_eqb]; lia.
Qed.

(** X5: on every squad reached from an empty one by [add_player] and
    [remove_player] calls, whatever their flags, [is_complete] (which adds up
    the position counters) answers [True] exactly when the squad holds 15
    players. *)
Theorem is_complete_iff_fifteen_players (b : Z) (ops : list SquadOp) :
  let sq := snd (run (Squad_init b) ops) in
  is_complete sq = true <-> List.length (players sq) = 15%nat.
Proof.
  intros sq.
  assert (Hok : squad_ok sq)
    by (apply run_ops_ok, Squad_init_ok).
  destruct Hok as (Hc & _ & _).
  unfold is_complete. rewrite Z.eqb_eq.
  pose proof (length_by_position (players sq)) as Hlen.
  pose proof (Hc GK) as C1. pose proof (Hc DEF) as C2.
  pose proof (Hc MID) as C3. pose proof (Hc FWD) as C4.
  cbn [pp_get] in C1, C2, C3, C4. lia.
Qed.

End MoreSquadProperties.

Lemma add_then_remove_restores_squad_witness :
  remove_player "2021" 1 no_api no_db
    (snd (add_player Squad_default (sample_player 1 "Leno" "ARS" GK 50)
            None true true))
    1 (Some 50) "2021" 1 false
  = (true, Squad_default).
Proof.
  apply (add_then_remove_restores_squad "2021" 1 no_api no_db Squad_default
           _ (sample_player 1 "Leno" "ARS" GK 50) None true true "2021" 1
           false).
  - reflexivity.
  - discriminate.
Defined.

Lemma sale_price_between_purchase_and_current_witness :
  get_sell_price_for_player "2021" 1 no_api no_db
    (sample_player 2 "Tierney" "ARS" DEF 55) false "2021" 1 = 55 /\
  get_sell_price_for_player "2021" 1 no_api sample_db
    (sample_player 2 "Tierney" "ARS" DEF 55) false "2021" 1 <= 58.
Proof.
  split.
  - destruct (sale_price_between_purchase_and_current "2021" 1 no_api no_db
                (sample_player 2 "Tierney" "ARS" DEF 55) false "2021" 1)
      as [Hnone _].
    apply Hnone. reflexivity.
  - destruct (sale_price_between_purchase_and_current "2021" 1 no_api
                sample_db (sample_player 2 "Tierney" "ARS" DEF 55) false
                "2021" 1) as [_ Hsome].
    destruct (Hsome 58) as [Hle _]; [reflexivity | discriminate | exact Hle].
Defined.

Lemma is_complete_iff_fifteen_players_witness :
  List.length (players full_squad) = 15%nat.
Proof.
  apply (is_complete_iff_fifteen_players "2021" 1 no_api no_db 1000
           fifteen_purchases).
  reflexivity.
Defined.

Lemma remove_player_succeeds_iff_member_witness :
  fst (remove_player "2021" 1 no_api no_db full_squad 99 None "2021" 1 false)
  = false /\
  snd (remove_player "2021" 1 no_api no_db full_squad 99 None "2021" 1 false)
  = full_squad.
Proof.
  destruct (remove_player_succeeds_iff_member "2021" 1 no_api no_db
              full_squad 99 None "2021" 1 false) as [Hiff Hsame].
  assert (E : fst (remove_player "2021" 1 no_api no_db full_squad 99 None
                     "2021" 1 false) = false).
  { destruct (fst (remove_player "2021" 1 no_api no_db full_squad 99 None
                     "2021" 1 false)); [|reflexivity].
    exfalso. assert (Hin := proj1 Hiff eq_refl). vm_compute in Hin.
    repeat (destruct Hin as [Hin|Hin]; [discriminate Hin|]). exact Hin. }
  split; [exact E | exact (Hsame E)].
Defined.

(* ================================================================== *)
(** * The starting squad *)
(* ================================================================== *)

(** X6: whatever the transaction log holds, the squad [get_starting_squad]
    replays from it keeps its position counters in step with its player
    list, stays within the position quotas and has no two players with one
    id (purchases that would break a quota or repeat an id are dropped);
    so it never holds more than 15 players. *)
Theorem starting_squad_within_quotas
  (CURRENT_SEASON : string) (NEXT_GAMEWEEK : Z)
  (api_now_cost : Z -> option Z) (db_price : Z -> string -> Z -> option Z)
  (CandidatePlayer_init : Z -> string -> Z -> CandidatePlayer)
  (transactions : list Transaction) :
  let sq := get_starting_squad CURRENT_SEASON NEXT_GAMEWEEK api_now_cost
              db_price CandidatePlayer_init transactions in
  (forall pos,
     pp_get (num_position sq) pos = count_position (players sq) pos /\
     count_position (players sq) pos <= pp_get TOTAL_PER_POSITION pos) /\
  NoDup (map player_id (players sq)) /\
  (List.length (players sq) <= 15)%nat.
Proof.
  intros sq.
  assert (Hok : squad_ok sq).
  { subst sq. unfold get_starting_squad.
    generalize (filter (fun trans => t_free_hit trans =? 0) transactions).
    intros l.
    assert (H : forall s, squad_ok s ->
      squad_ok (fold_left
        (fun s trans =>
           if t_bought_or_sold trans =? -1 then
             snd (remove_player CURRENT_SEASON NEXT_GAMEWEEK api_now_cost
                    db_price s (t_player_id trans) (Some (t_price trans))
                    CURRENT_SEASON NEXT_GAMEWEEK false)
           else
             snd (add_player s
                    (CandidatePlayer_init (t_player_id trans) (t_season trans)
                       (t_gameweek trans))
                    (Some (t_price trans)) false false)) l s)).
    { induction l as [|trans l IH]; intros s Hs; [exact Hs|].
      cbn [fold_left]. apply IH.
      destruct (t_bought_or_sold trans =? -1);
        [apply remove_player_ok | apply add_player_ok]; exact Hs. }
    apply H, Squad_init_ok. }
  destruct Hok as (Hc & Hq & Hn).
  split; [intros pos; split; [apply Hc | apply Hq]|]. split; [exact Hn|].
  pose proof (length_by_position (players sq)) as Hlen.
  pose proof (Hq GK). pose proof (Hq DEF). pose proof (Hq MID).
  pose proof (Hq FWD). cbn [pp_get TOTAL_PER_POSITION at_GK at_DEF at_MID
                              at_FWD] in *. lia.
Qed.

(* ================================================================== *)
(** * Free transfers, points hits, discounting *)
(* ================================================================== *)

(** X7: whenever [calc_free_transfers] returns, it returns 1 or 2; it
    returns 1 after a wildcard or free hit, 2 after a week without transfer
    that started with at least one free transfer, and 1 after a week that
    used up its free transfers. *)
Theorem calc_free_transfers_one_or_two (d : Directive) (prev v : Z) :
  calc_free_transfers d prev = ret v ->
  (v = 1 \/ v = 2) /\
  (d = DStr "W" \/ d = DStr "F" -> v = 1) /\
  (forall n, paid_transfers d = Some n ->
     (n = 0 -> 1 <= prev -> v = 2) /\ (prev <= n -> v = 1)).
Proof.
  intros H.
  assert (Hpaid : forall n, paid_transfers d = Some n ->
            v = Z.max 1 (Z.min 2 (1 + prev - n))).
  { intros n Hn. destruct d as [m|s]; simpl in Hn, H.
    - injection Hn as ->. injection H as <-. reflexivity.
    - destruct s as [|c [|k [|? ?]]]; try discriminate.
      destruct (Ascii.eqb c "T" || Ascii.eqb c "B")%char eqn:Hc;
        [|discriminate].
      destruct (int_of_char k) as [e|m] eqn:Hk; [discriminate|].
      injection Hn as ->.
      apply orb_true_iff in Hc.
      destruct Hc as [Hc|Hc]; apply Ascii.eqb_eq in Hc; subst c;
        unfold calc_free_transfers, startswith in H; simpl in H;
        rewrite Hk in H; simpl in H; injection H as <-; reflexivity. }
  split; [|split].
  - destruct d as [m|s]; simpl in H.
    + injection H as <-. lia.
    + destruct (String.eqb s "W" || String.eqb s "F");
        [injection H as <-; now left|].
      destruct ((startswith s "B" || startswith s "T")
                && Nat.eqb (String.length s) 2); [|discriminate].
      destruct (last_char s) as [e|c]; [discriminate|]. cbn [bind] in H.
      destruct (int_of_char c) as [e|m]; [discriminate|]. cbn [bind] in H.
      injection H as <-. lia.
  - intros [-> | ->]; simpl in H; now injection H as <-.
  - intros n Hn. rewrite (Hpaid n Hn). split; lia.
Qed.

Lemma calc_free_transfers_one_or_two_witness :
  (2 = 1 \/ 2 = 2) /\ calc_free_transfers (chip_code "B" 0) 1 = ret 2.
Proof.
  split; [|reflexivity].
  apply (calc_free_transfers_one_or_two (chip_code "B" 0) 1 2). reflexivity.
Defined.

(** X8: a points hit that [calc_points_hit] returns is never negative and is
    a multiple of 4; a string that is neither ["W"], ["F"] nor a
    two-character code starting with ["B"] or ["T"] makes it raise
    [RuntimeError]. *)
Theorem calc_points_hit_nonnegative_multiple_of_four
  (d : Directive) (f : Z) :
  (forall v, calc_points_hit d f = ret v -> 0 <= v /\ (4 | v)) /\
  (forall s, d = DStr s ->
     s <> "W" -> s <> "F" ->
     (startswith s "B" || startswith s "T")
     && Nat.eqb (String.length s) 2 = false ->
     calc_points_hit d f
     = raise (RuntimeError "Unexpected argument for num_transfers")).
Proof.
  assert (Hmax : forall n, 0 <= Z.max 0 (4 * (n - f))
                           /\ (4 | Z.max 0 (4 * (n - f)))).
  { intros n. split; [lia|].
    destruct (Z.max_spec 0 (4 * (n - f))) as [[_ ->]|[_ ->]].
    - now exists (n - f); lia.
    - now exists 0. }
  split.
  - intros v H. destruct d as [m|s]; simpl in H.
    + injection H as <-. apply Hmax.
    + destruct (String.eqb s "W" || String.eqb s "F").
      * injection H as <-. split; [lia | now exists 0].
      * destruct ((startswith s "B" || startswith s "T")
                  && Nat.eqb (String.length s) 2); [|discriminate].
        destruct (last_char s) as [e|c]; [discriminate|]. cbn [bind] in H.
        destruct (int_of_char c) as [e|m]; [discriminate|]. cbn [bind] in H.
        injection H as <-. apply Hmax.
  - intros s -> HW HF Hcode. simpl.
    destruct (String.eqb_spec s "W"); [contradiction|].
    destruct (String.eqb_spec s "F"); [contradiction|].
    cbn [orb]. now rewrite Hcode.
Qed.

Lemma calc_points_hit_nonnegative_multiple_of_four_witness :
  (0 <= 8 /\ (4 | 8)) /\
  calc_points_hit (DStr "X2") 1
  = raise (RuntimeError "Unexpected argument for num_transfers").
Proof.
  destruct (calc_points_hit_nonnegative_multiple_of_four (DInt 3) 1)
    as [Hret _].
  destruct (calc_points_hit_nonnegative_multiple_of_four (DStr "X2") 1)
    as [_ Hraise].
  split.
  - apply Hret. reflexivity.
  - apply (Hraise "X2"); [reflexivity | discriminate | discriminate
                          | reflexivity].
Defined.



(* ================================================================== *)
(** * The expected leaf count and the progress increments *)
(* ================================================================== *)

(** X11: [count_expected_outputs] entered with [week >= max_week] (a horizon
    of no gameweek, for one) never reaches its base case: whatever the chips
    and however deep the interpreter lets it recurse, it ends in a
    recursion error. *)
Theorem count_expected_outputs_no_horizon_diverges (depth : nat) :
  forall week max_week w f t b,
    max_week <= week ->
    count_expected_outputs depth week max_week w f t b = raise RecursionError.
Proof.
  induction depth as [|depth IH]; intros week max_week w f t b Hle;
    [reflexivity|].
  cbn [count_expected_outputs].
  destruct (Z.eqb_spec (week + 1) max_week) as [E|E]; [lia|].
  rewrite !IH by lia. reflexivity.
Qed.

Lemma count_expected_outputs_no_horizon_diverges_witness :
  count_expected_outputs 1000 0 0 true false false true = raise RecursionError.
Proof.
  apply (count_expected_outputs_no_horizon_diverges 1000 0 0 true false false
           true).
  lia.
Defined.

(** X12: [get_num_increments] never returns less than 1 when
    [num_iterations] is at least 1, so the quotient [100 / increments] that
    [optimize] forms is defined; it returns 15 for one transfer and 105 for
    two, with or without a bench-boost or triple-captain code. *)
Theorem get_num_increments_at_least_one
  (d : Directive) (num_iterations : Z) :
  1 <= num_iterations ->
  (forall v, get_num_increments d num_iterations = ret v -> 1 <= v) /\
  (paid_transfers d = Some 1 -> get_num_increments d num_iterations = ret 15)
  /\
  (paid_transfers d = Some 2 -> get_num_increments d num_iterations = ret 105).
Proof.
  intros Hn.
  assert (Hint : forall n v,
    (if 2 <? n then ret num_iterations
     else if n =? 1 then ret 15 else if n =? 2 then ret 105 else ret 1)
    = ret v -> 1 <= v).
  { intros n v. destruct (2 <? n); [intros [= <-]; lia|].
    destruct (n =? 1); [intros [= <-]; lia|].
    destruct (n =? 2); intros [= <-]; lia. }
  assert (Hpaid : forall n, paid_transfers d = Some n ->
    get_num_increments d num_iterations =
    (if 2 <? n then ret num_iterations
     else if n =? 1 then ret 15 else if n =? 2 then ret 105 else ret 1)).
  { intros n Hp. destruct d as [m|s]; simpl in Hp.
    - now injection Hp as ->.
    - destruct s as [|c [|k [|? ?]]]; try discriminate.
      destruct (Ascii.eqb c "T" || Ascii.eqb c "B")%char eqn:Hc;
        [|discriminate].
      destruct (int_of_char k) as [e|m] eqn:Hk; [discriminate|].
      injection Hp as ->.
      apply orb_true_iff in Hc.
      destruct Hc as [Hc|Hc]; apply Ascii.eqb_eq in Hc; subst c;
        unfold get_num_increments, startswith, second_char; simpl;
        rewrite Hk; reflexivity. }
  split; [|split].
  - intros v H. destruct d as [m|s].
    + apply (Hint m v). exact H.
    + unfold get_num_increments in H.
      destruct ((startswith s "B" || startswith s "T")
                && Nat.eqb (String.length s) 2).
      * destruct (second_char s) as [e|c]; [discriminate|]. cbn [bind] in H.
        destruct (int_of_char c) as [e|m]; [discriminate|].
        cbn [bind ret] in H. apply (Hint m v). exact H.
      * cbn [bind ret] in H.
        destruct (String.eqb s "W" || String.eqb s "F");
          injection H as <-; lia.
  - intros Hp. now rewrite (Hpaid 1 Hp).
  - intros Hp. now rewrite (Hpaid 2 Hp).
Qed.

Lemma get_num_increments_at_least_one_witness :
  get_num_increments (chip_code "T" 2) 100 = ret 105 /\ 1 <= 105.
Proof.
  destruct (get_num_increments_at_least_one (chip_code "T" 2) 100)
    as (Hge & _ & Htwo); [lia|].
  split; [now apply Htwo|]. apply Hge. now apply Htwo.
Defined.

(* ================================================================== *)
(** * The tree of strategies and its expected number of leaves *)
(* ================================================================== *)

Lemma count_expected_outputs_leaf_count n :
  forall depth week w f t b,
    (S n <= depth)%nat ->
    count_expected_outputs depth week (week + Z.of_nat (S n)) w f t b
    = ret (leaf_count (S n) w f t b).
Proof.
  induction n as [|n IH]; intros depth week w f t b Hd.
  - destruct depth as [|depth]; [lia|].
    cbn [count_expected_outputs].
    replace (week + Z.of_nat 1) with (week + 1) by lia.
    rewrite Z.eqb_refl. unfold ret. f_equal.
    destruct w, f, t, b; reflexivity.
  - destruct depth as [|depth]; [lia|].
    cbn [count_expected_outputs].
    destruct (Z.eqb_spec (week + 1) (week + Z.of_nat (S (S n)))) as [E|_];
      [lia|].
    replace (week + Z.of_nat (S (S n))) with (week + 1 + Z.of_nat (S n))
      by lia.
    rewrite !IH by lia.
    change (leaf_count (S (S n)) w f t b) with
      (3 * leaf_count (S n) w f t b
       + (if t then 3 * leaf_count (S n) w f false b else 0)
       + (if b then 3 * leaf_count (S n) w f t false else 0)
       + (if w then leaf_count (S n) false f t b else 0)
       + (if f then leaf_count (S n) w false t b else 0)).
    destruct t, b, w, f; rewrite ?IH by lia; cbn [bind ret];
      unfold ret; f_equal; lia.
Qed.

Lemma prefix_empty (s : string) : String.prefix "" s = true.
Proof. now destruct s. Qed.

Lemma contains_char_app (c : ascii) (a b : string) :
  contains (a ++ b) (String c "")
  = contains a (String c "") || contains b (String c "").
Proof.
  induction a as [|x a IH]; [reflexivity|].
  cbn [append contains String.prefix]. rewrite IH.
  destruct (ascii_dec c x); rewrite ?prefix_empty; reflexivity.
Qed.

Lemma contains_char_node_sid (c : ascii) (sid : string) (d : Directive) :
  c <> "-"%char ->
  contains (node_sid sid d) (String c "")
  = contains sid (String c "") || contains (str_directive d) (String c "").
Proof.
  intros Hc. unfold node_sid.
  destruct (0 <? String.length sid)%nat; rewrite !contains_char_app;
    [|reflexivity].
  replace (contains "-" (String c "")) with false;
    [now rewrite orb_false_r|].
  cbn [contains String.prefix]. now destruct (ascii_dec c "-").
Qed.

Lemma card_available_node_sid cards card (c : ascii) sid d :
  c <> "-"%char ->
  card_available cards card (String c "") (node_sid sid d)
  = card_available cards card (String c "") sid
    && negb (contains (str_directive d) (String c "")).
Proof.
  intros Hc. unfold card_available.
  rewrite contains_char_node_sid by exact Hc.
  rewrite negb_orb. now rewrite andb_assoc.
Qed.

Lemma leaf_sids_count cards levels :
  forall sid,
    Z.of_nat (List.length (leaf_sids cards levels sid))
    = leaf_count levels
        (card_available cards "wildcard" "W" sid)
        (card_available cards "free_hit" "F" sid)
        (card_available cards "triple_captain" "T" sid)
        (card_available cards "bench_boost" "B" sid).
Proof.
  induction levels as [|levels IH]; intros sid; [reflexivity|].
  cbn [leaf_sids leaf_count]. unfold child_directives.
  assert (Hchild : forall d,
    Z.of_nat (List.length (leaf_sids cards levels (node_sid sid d)))
    = leaf_count levels
        (card_available cards "wildcard" "W" sid
         && negb (contains (str_directive d) "W"))
        (card_available cards "free_hit" "F" sid
         && negb (contains (str_directive d) "F"))
        (card_available cards "triple_captain" "T" sid
         && negb (contains (str_directive d) "T"))
        (card_available cards "bench_boost" "B" sid
         && negb (contains (str_directive d) "B"))).
  { intros d. rewrite IH.
    now rewrite !card_available_node_sid by discriminate. }
  destruct (card_available cards "wildcard" "W" sid),
           (card_available cards "free_hit" "F" sid),
           (card_available cards "triple_captain" "T" sid),
           (card_available cards "bench_boost" "B" sid);
    cbn [flat_map app]; rewrite ?length_app, ?Nat2Z.inj_add, ?Hchild;
    cbn [List.length];
    repeat match goal with
           | |- context [contains ?a ?b] =>
               let v := eval vm_compute in (contains a b) in
               change (contains a b) with v
           end;
    cbn [andb negb]; lia.
Qed.

Lemma in_list_cards_list w f t b :
  in_list "wildcard" (cards_list w f t b) = w /\
  in_list "free_hit" (cards_list w f t b) = f /\
  in_list "triple_captain" (cards_list w f t b) = t /\
  in_list "bench_boost" (cards_list w f t b) = b.
Proof. destruct w, f, t, b; repeat split; reflexivity. Qed.

(** X13: for a horizon of N >= 1 gameweeks and any choice of enabled chips,
    the number [count_expected_outputs(0, N, ...)] that the workers wait
    for is exactly the number of leaves of the tree that the expansion rule
    of [optimize] generates from the root (children 0, 1, 2, each also with
    an unused triple captain or bench boost, plus an unused wildcard and an
    unused free hit). *)
Theorem expected_outputs_count_the_leaves
  (N : nat) (depth : nat) (wildcard free_hit triple_captain bench_boost : bool) :
  (1 <= N)%nat -> (N <= depth)%nat ->
  count_expected_outputs depth 0 (Z.of_nat N) wildcard free_hit
    triple_captain bench_boost
  = ret (Z.of_nat
           (List.length
              (leaf_sids
                 (cards_list wildcard free_hit triple_captain bench_boost)
                 N ""))).
Proof.
  intros HN Hd. destruct N as [|n]; [lia|].
  rewrite leaf_sids_count.
  pose proof (in_list_cards_list wildcard free_hit triple_captain bench_boost)
    as (Hw & Hf & Ht & Hb).
  unfold card_available. rewrite Hw, Hf, Ht, Hb.
  cbn [contains String.prefix negb]. rewrite !andb_true_r.
  apply (count_expected_outputs_leaf_count n depth 0). exact Hd.
Qed.

Lemma expected_outputs_count_the_leaves_witness :
  count_expected_outputs 10 0 2 true true true true = ret 101 /\
  List.length (leaf_sids (cards_list true true true true) 2 "") = 101%nat.
Proof.
  split; [|reflexivity].
  apply (expected_outputs_count_the_leaves 2 10 true true true true); lia.
Defined.

(* ================================================================== *)
(** * The baseline leaf *)
(* ================================================================== *)

Lemma string_app_assoc (a b c : string) : (a ++ b) ++ c = a ++ (b ++ c).
Proof. induction a as [|x a IH]; simpl; [reflexivity | now rewrite IH]. Qed.

Lemma string_app_length (a b : string) :
  String.length (a ++ b) = (String.length a + String.length b)%nat.
Proof. induction a as [|x a IH]; simpl; [reflexivity | now rewrite IH]. Qed.

Lemma no_transfer_path_nonempty levels :
  forall sid,
    (0 < String.length sid)%nat ->
    no_transfer_path sid levels = sid ++ repeat_string "-0" levels.
Proof.
  induction levels as [|levels IH]; intros sid Hlen; cbn [no_transfer_path].
  - cbn [repeat_string]. clear. induction sid as [|c s IHs]; simpl;
      [reflexivity | now rewrite <- IHs].
  - assert (Hnode : node_sid sid (DInt 0) = sid ++ "-0").
    { unfold node_sid. apply Nat.ltb_lt in Hlen. rewrite Hlen.
      now rewrite string_app_assoc. }
    rewrite Hnode, IH.
    + cbn [repeat_string]. now rewrite !string_app_assoc.
    + rewrite string_app_length. simpl. lia.
Qed.

Lemma drop_last_zeros n :
  drop_last (repeat_string "0-" (S n)) = "0" ++ repeat_string "-0" n.
Proof.
  induction n as [|n IH]; [reflexivity|].
  change (repeat_string "0-" (S (S n)))
    with (String "0" (String "-" (repeat_string "0-" (S n)))).
  change (repeat_string "0-" (S n))
    with (String "0" (String "-" (repeat_string "0-" n))) in *.
  cbn [drop_last] in *. rewrite IH. reflexivity.
Qed.

Lemma no_transfer_path_is_leaf cards levels :
  forall sid, In (no_transfer_path sid levels) (leaf_sids cards levels sid).
Proof.
  induction levels as [|levels IH]; intros sid; [now left|].
  cbn [no_transfer_path leaf_sids]. apply in_flat_map.
  exists (DInt 0). split; [|apply IH].
  unfold child_directives. cbn [flat_map]. now left.
Qed.

(** X14: the file [find_baseline_score_from_json] looks for is the file of
    the leaf reached by making no transfer in any of the N gameweeks, which
    is a leaf of the tree whatever chips are enabled; the function returns
    that leaf's total when the file is there and 0 when it is not. *)
Theorem baseline_file_is_the_no_transfer_leaf
  (cards : list string) (tag : string) (N : nat)
  (files : list (string * StrategyOutput)) :
  baseline_sid (Z.of_nat N) = no_transfer_path "" N /\
  In (no_transfer_path "" N) (leaf_sids cards N "") /\
  find_baseline_score_from_json tag (Z.of_nat N) files
  = match lookup_file (leaf_filename tag (no_transfer_path "" N)) files with
    | Some strat => total_score strat
    | None => 0%Q
    end.
Proof.
  assert (Hsid : baseline_sid (Z.of_nat N) = no_transfer_path "" N).
  { unfold baseline_sid. rewrite Nat2Z.id.
    destruct N as [|n]; [reflexivity|].
    rewrite drop_last_zeros. cbn [no_transfer_path].
    change (node_sid "" (DInt 0)) with "0".
    rewrite no_transfer_path_nonempty by (simpl; lia). reflexivity. }
  split; [exact Hsid|]. split; [apply no_transfer_path_is_leaf|].
  unfold find_baseline_score_from_json. rewrite Hsid.
  destruct (lookup_file _ files); reflexivity.
Qed.

(* ================================================================== *)
(** * Path identifiers are unique *)
(* ================================================================== *)

Lemma all_different_NoDup (l : list string) :
  all_different l = true -> NoDup l.
Proof.
  induction l as [|s l IH]; [constructor|].
  cbn [all_different]. intros H. apply andb_true_iff in H as [Hs Hl].
  constructor; [|now apply IH].
  intros Hin. apply negb_true_iff in Hs.
  assert (existsb (String.eqb s) l = true).
  { apply existsb_exists. exists s. split; [exact Hin | apply String.eqb_refl]. }
  congruence.
Qed.

Lemma NoDup_flat_map {A B} (f : A -> list B) (l : list A) :
  NoDup l ->
  (forall a, In a l -> NoDup (f a)) ->
  (forall a b x, In a l -> In b l -> a <> b -> In x (f a) -> ~ In x (f b)) ->
  NoDup (flat_map f l).
Proof.
  induction l as [|a l IH]; intros Hl Hf Hdis; [constructor|].
  cbn [flat_map]. inversion Hl as [|? ? Ha Hl']; subst.
  apply NoDup_app.
  - apply Hf. now left.
  - apply IH; [exact Hl'| |].
    + intros b Hb. apply Hf. now right.
    + intros b c x Hb Hc. apply Hdis; now right.
  - intros x Hx Hin. apply in_flat_map in Hin. destruct Hin as (b & Hb & Hxb).
    apply (Hdis a b x); auto; [now left | now right |].
    intros ->. contradiction.
Qed.

Lemma string_app_inv_head (a b c : string) : a ++ b = a ++ c -> b = c.
Proof.
  induction a as [|x a IH]; simpl; [auto|]. intros [= H]. auto.
Qed.

Lemma string_app_inv_tail (a b c : string) : a ++ c = b ++ c -> a = b.
Proof.
  revert b. induction a as [|x a IH]; intros b H.
  - destruct b as [|y b]; [reflexivity|]. exfalso.
    apply (f_equal String.length) in H.
    simpl in H. rewrite string_app_length in H. lia.
  - destruct b as [|y b].
    + exfalso. apply (f_equal String.length) in H.
      simpl in H. rewrite string_app_length in H. lia.
    + simpl in H. injection H as -> H. f_equal. now apply IH.
Qed.

(** The first token of [t ++ rest] is [t], when [t] is a token and what
    follows is nothing or starts a new token. *)
Lemma first_token_app (t rest : string) :
  first_token t = t ->
  (rest = "" \/ exists r, rest = String "-" r) ->
  first_token (t ++ rest) = t.
Proof.
  intros Ht Hrest. induction t as [|c t IH].
  - destruct Hrest as [-> | [r ->]]; reflexivity.
  - cbn [append first_token] in *.
    destruct (Ascii.eqb c "-"); [discriminate|].
    injection Ht as Ht. f_equal. now apply IH.
Qed.

(** The tokens of the children of a node are tokens, and differ from one
    another. *)
Lemma child_tokens cards sid :
  forallb is_token (map str_directive (child_directives cards sid)) = true /\
  all_different (map str_directive (child_directives cards sid)) = true.
Proof.
  unfold child_directives.
  destruct (card_available cards "wildcard" "W" sid),
           (card_available cards "free_hit" "F" sid),
           (card_available cards "triple_captain" "T" sid),
           (card_available cards "bench_boost" "B" sid);
    split; vm_compute; reflexivity.
Qed.

Lemma node_sid_split (sid : string) :
  exists pre, forall d', node_sid sid d' = pre ++ str_directive d'.
Proof.
  unfold node_sid. destruct (0 <? String.length sid)%nat;
    eexists; intros d'; reflexivity.
Qed.

(** Below a node with a non-empty identifier, every leaf identifier is that
    identifier, followed by nothing or by ["-"] and more. *)
Lemma leaf_sids_extend cards levels :
  forall sid x,
    sid <> "" ->
    In x (leaf_sids cards levels sid) ->
    exists rest, x = sid ++ rest /\ (rest = "" \/ exists r, rest = String "-" r).
Proof.
  induction levels as [|levels IH]; intros sid x Hne Hin.
  - destruct Hin as [<-|[]]. exists "". split; [|now left].
    clear. induction sid as [|c s IHs]; simpl; [reflexivity | now f_equal].
  - cbn [leaf_sids] in Hin. apply in_flat_map in Hin.
    destruct Hin as (d & _ & Hin).
    assert (Hnode : node_sid sid d = sid ++ String "-" (str_directive d)).
    { unfold node_sid. destruct sid as [|c s]; [contradiction|].
      cbn [String.length Nat.ltb Nat.leb].
      now rewrite string_app_assoc. }
    destruct (IH (node_sid sid d) x) as (rest & -> & _); [|exact Hin|].
    + rewrite Hnode. destruct sid; [contradiction|discriminate].
    + rewrite Hnode, string_app_assoc.
      eexists. split; [reflexivity|]. right. simpl. eauto.
Qed.

Lemma leaf_sids_NoDup cards levels :
  forall sid, NoDup (leaf_sids cards levels sid).
Proof.
  induction levels as [|levels IH]; intros sid.
  - repeat constructor. intros [].
  - cbn [leaf_sids].
    destruct (child_tokens cards sid) as [Htok Hdiff].
    apply all_different_NoDup in Hdiff.
    destruct (node_sid_split sid) as [pre Hpre].
    apply NoDup_flat_map.
    + eapply NoDup_map_inv. exact Hdiff.
    + intros d _. apply IH.
    + intros d1 d2 x H1 H2 Hne Hx1 Hx2.
      assert (Htoken : forall d, In d (child_directives cards sid) ->
                first_token (str_directive d) = str_directive d /\
                str_directive d <> "").
      { intros d Hd. rewrite forallb_forall in Htok.
        specialize (Htok (str_directive d) (in_map _ _ _ Hd)).
        unfold is_token in Htok. apply andb_true_iff in Htok as [Ha Hb].
        apply String.eqb_eq in Ha. apply negb_true_iff in Hb.
        apply String.eqb_neq in Hb. auto. }
      destruct (Htoken d1 H1) as [Ht1 Hn1].
      destruct (Htoken d2 H2) as [Ht2 Hn2].
      assert (Hnonempty : forall d, str_directive d <> "" ->
                node_sid sid d <> "").
      { intros d Hd E. rewrite Hpre in E.
        apply (f_equal String.length) in E.
        rewrite string_app_length in E.
        destruct (str_directive d); [contradiction|]. simpl in E. lia. }
      destruct (leaf_sids_extend cards levels _ x (Hnonempty d1 Hn1) Hx1)
        as (r1 & E1 & Hr1).
      destruct (leaf_sids_extend cards levels _ x (Hnonempty d2 Hn2) Hx2)
        as (r2 & E2 & Hr2).
      rewrite E1, !Hpre, !string_app_assoc in E2.
      apply string_app_inv_head in E2.
      apply (f_equal first_token) in E2.
      rewrite !first_token_app in E2 by assumption.
      apply Hne.
      clear - E2 Hdiff H1 H2.
      induction (child_directives cards sid) as [|d l IHl]; [destruct H1|].
      cbn [map] in Hdiff. inversion Hdiff as [|? ? Hnin Hd]; subst.
      destruct H1 as [<-|H1], H2 as [<-|H2]; auto.
      * exfalso. apply Hnin. rewrite E2. now apply in_map.
      * exfalso. apply Hnin. rewrite <- E2. now apply in_map.
Qed.

(** X15: the leaves of the tree of strategies have pairwise different path
    identifiers, and so pairwise different file names: no two paths write
    to the same file. *)
Theorem leaf_files_are_distinct (cards : list string) (tag : string) (N : nat) :
  NoDup (leaf_sids cards N "") /\
  NoDup (map (leaf_filename tag) (leaf_sids cards N "")).
Proof.
  assert (H : NoDup (leaf_sids cards N "")) by apply leaf_sids_NoDup.
  split; [exact H|].
  induction H as [|s l Hnin Hl IH]; [constructor|].
  cbn [map]. constructor; [|exact IH].
  intros Hin. apply in_map_iff in Hin. destruct Hin as (s' & E & Hs').
  unfold leaf_filename in E. apply string_app_inv_head in E.
  apply string_app_inv_tail in E. subst s'. contradiction.
Qed.

(* ================================================================== *)
(** * The result selector and the free hit, where they work *)
(* ================================================================== *)

(** X16: [find_best_strat_from_json] returns [None] exactly when no file
    of the tag holds a total above 0; otherwise it returns the record of
    one of the tag's files, of positive total, that no other file of the
    tag exceeds. *)
Theorem selector_returns_highest_positive_total
  (tag : string) (file_list : list (string * StrategyOutput)) :
  match find_best_strat_from_json tag file_list with
  | None =>
      forall fs, In fs file_list ->
        contains (fst fs) (strategy_marker tag) = true ->
        (total_score (snd fs) <= 0)%Q
  | Some best =>
      exists fs,
        In fs file_list /\
        contains (fst fs) (strategy_marker tag) = true /\
        best = snd fs /\ (0 < total_score best)%Q /\
        forall fs', In fs' file_list ->
          contains (fst fs') (strategy_marker tag) = true ->
          (total_score (snd fs') <= total_score best)%Q
  end.
Proof.
  destruct (best_strat_loop_maximum tag file_list 0%Q None)
    as [[Hr Hle]|(fs & Hin & Hs & Hr & Hgt & Hle)].
  - unfold find_best_strat_from_json. rewrite Hr. exact Hle.
  - unfold find_best_strat_from_json. rewrite Hr.
    exists fs. repeat split; auto.
Qed.

(** X17: the selector picks its files by a substring test on the name, so
    the leaf files of a tag [t_u] pass for files of the tag [t]: asked for
    [t] with only such a file at hand, of positive total, it returns that
    record. *)
Theorem selector_accepts_longer_tag
  (t u sid : string) (strat : StrategyOutput) :
  contains (leaf_filename (t ++ "_" ++ u) sid) (strategy_marker t) = true /\
  ((0 < total_score strat)%Q ->
   find_best_strat_from_json t [(leaf_filename (t ++ "_" ++ u) sid, strat)]
   = Some strat).
Proof.
  assert (H : contains (leaf_filename (t ++ "_" ++ u) sid) (strategy_marker t)
              = true).
  { apply contains_prefix.
    unfold leaf_filename, strategy_marker.
    replace (("strategy_" ++ (t ++ "_" ++ u) ++ "_") ++ sid ++ ".json")
      with (("strategy_" ++ t ++ "_") ++ (u ++ "_" ++ sid ++ ".json")).
    - apply prefix_append.
    - now rewrite !string_app_assoc. }
  split; [exact H|].
  intros Hpos. unfold find_best_strat_from_json. cbn [best_strat_loop].
  rewrite H. cbn [negb].
  apply Qltb_lt in Hpos. now rewrite Hpos.
Qed.

Lemma selector_accepts_longer_tag_witness :
  find_best_strat_from_json "t"
    [(leaf_filename ("t" ++ "_" ++ "old") "0-0", leaf_with_total 90)]
  = Some (leaf_with_total 90).
Proof.
  apply (selector_accepts_longer_tag "t" "old" "0-0" (leaf_with_total 90)).
  reflexivity.
Defined.

Section FreeHitWeek.

Context {F : PyFloat}.

Variable CURRENT_SEASON : string.
Variable NEXT_GAMEWEEK : Z.
Variable api_now_cost : Z -> option Z.
Variable db_price : Z -> string -> Z -> option Z.
Variable calc_predicted_points : string -> CandidatePlayer -> CandidatePlayer.
Variable get_predicted_points : list Z -> Position -> string -> list (Z * Q).
Variable CandidatePlayer_init : Z -> string -> Z -> CandidatePlayer.
Variable Rng : Type.
Variable get_squad_value : Squad + list Z -> result Z.
Variable make_optimum_double_transfer :
  Squad -> string -> list Z -> option Z -> option Z ->
  result (Squad * list Z * list Z).
Variable make_new_squad :
  Rng -> Z -> Z -> string -> list Z -> option Z -> option Z ->
  result (option Squad * Rng).
Variable make_random_transfers :
  Rng -> Squad -> string -> Directive -> list Z -> Z -> option Z -> option Z ->
  result (option Squad * list Z * list Z * Rng).

(** X18: in [apply_strategy], a gameweek whose directive is the free hit
    ["F"] keeps the squad it was entered with aside; when the pass of that
    gameweek runs to its end, the pass of the next gameweek starts from the
    squad this one started from, whatever the free hit bought. *)
Theorem free_hit_week_leaves_squad_for_next_week
  (plan : list (Z * Directive)) (tag : string)
  (baseline : option (list (Z * Q)))
  (num_iter : Z) (bb tc : option Z)
  (st st' : LoopState Rng) (gw : Z) (gw_range : list Z) (stop : bool) :
  assoc_Z gw plan = Some (DStr "F") ->
  process_gameweek CURRENT_SEASON NEXT_GAMEWEEK api_now_cost db_price
    calc_predicted_points get_predicted_points CandidatePlayer_init Rng
    get_squad_value make_optimum_double_transfer make_new_squad
    make_random_transfers
    plan tag baseline num_iter bb tc st gw gw_range = ret (stop, st') ->
  new_squad (restore_after_free_hit st')
  = new_squad (restore_after_free_hit st).
Proof.
  intros Hplan Hrun.
  eapply free_hit_squad_restored; [exact Hplan | exact Hrun].
Qed.

End FreeHitWeek.

Local Abbreviation sample_process_gameweek :=
  (process_gameweek (F := exact_arithmetic) "2021" 1 no_api no_db
     keep_predictions sample_ranking sample_candidate unit sample_squad_value no_double_transfer
     sample_new_squad no_random_transfers
     [(1, DInt 0); (2, DStr "F"); (3, DInt 0)] "t" None 1 None None
     state_after_first_gameweek 2 [2; 3]).

Lemma free_hit_week_leaves_squad_for_next_week_witness :
  match sample_process_gameweek with
  | inr (_, st') =>
      new_squad (restore_after_free_hit st')
      = new_squad (restore_after_free_hit state_after_first_gameweek)
  | inl _ => False
  end.
Proof.
  destruct sample_process_gameweek as [e|[stop st']] eqn:E.
  - vm_compute in E. discriminate E.
  - exact (free_hit_week_leaves_squad_for_next_week (F := exact_arithmetic)
             "2021" 1 no_api no_db keep_predictions
             sample_ranking sample_candidate unit sample_squad_value
             no_double_transfer sample_new_squad no_random_transfers
             [(1, DInt 0); (2, DStr "F"); (3, DInt 0)] "t" None 1 None None
             state_after_first_gameweek st' 2 [2; 3] stop eq_refl E).
Defined.

(* ================================================================== *)
(** * Scoring a squad *)
(* ================================================================== *)

Section ScoringFrame.

Context {F : PyFloat}.

Lemma set_at_map {A B} (g : A -> B) (f : A -> A) (l : list A) :
  (forall x, g (f x) = g x) -> forall i, map g (set_at l i f) = map g l.
Proof.
  intros Hg. induction l as [|x l IH]; intros [|i]; cbn; try reflexivity.
  - now rewrite Hg.
  - now rewrite IH.
Qed.

Lemma fold_set_at_map {A B X} (g : A -> B) (idx : X -> nat)
  (fn : X -> A -> A) (xs : list X) :
  (forall x a, g (fn x a) = g a) ->
  forall l, map g (fold_left (fun acc x => set_at acc (idx x) (fn x)) xs l)
            = map g l.
Proof.
  intros Hg. induction xs as [|x xs IH]; intros l; cbn; [reflexivity|].
  rewrite IH. now apply set_at_map.
Qed.

Lemma apply_formation_position_frame l entries limit :
  map without_line_up (apply_formation_position l entries limit)
  = map without_line_up l.
Proof.
  unfold apply_formation_position.
  apply (fold_set_at_map without_line_up (fun ie => fst (snd ie))
           (fun ie p => set_is_starting p (Z.of_nat (fst ie) <? limit))).
  reflexivity.
Qed.

Lemma apply_formation_frame l d f l' :
  apply_formation l d f = ret l' ->
  map without_line_up l' = map without_line_up l.
Proof.
  unfold apply_formation. destruct f as [[[nd nm] nf]|].
  - intros [= <-]. now rewrite !apply_formation_position_frame.
  - destruct (at_DEF d), (at_MID d), (at_FWD d); try discriminate.
    now intros [= <-].
Qed.

Lemma formation_loop_frame d gw tag fs : forall l best bf l' best' bf',
  formation_loop l d gw tag fs best bf = ret (l', best', bf') ->
  map without_line_up l' = map without_line_up l.
Proof.
  induction fs as [|f fs IH]; intros l best bf l' best' bf'; cbn [formation_loop].
  - now intros [= <- _ _].
  - destruct (apply_formation l d (Some f)) as [e|l1] eqn:Ha; [discriminate|].
    cbn [bind ret].
    destruct (total_points_for_starting_11 l1 gw tag false) as [e|score];
      [discriminate|]. cbn [bind ret].
    apply apply_formation_frame in Ha.
    destruct (Qle_bool best score); intros H; apply IH in H; congruence.
Qed.

Lemma order_substitutes_frame l gw tag l' :
  order_substitutes l gw tag = ret l' ->
  map without_line_up l' = map without_line_up l.
Proof.
  unfold order_substitutes.
  destruct (entries_with_points _ tag gw) as [e|points]; [discriminate|].
  cbn [bind ret]. intros [= <-].
  apply (fold_set_at_map without_line_up (fun ke => fst (snd ke))
           (fun ke p => set_sub_position p (Z.of_nat (fst ke)))).
  reflexivity.
Qed.

Lemma optimize_subs_frame l gw tag l' best :
  optimize_subs l gw tag = ret (l', best) ->
  map without_line_up l' = map without_line_up l.
Proof.
  unfold optimize_subs.
  destruct (first_two_goalkeepers _) as [e|[first second]]; [discriminate|].
  cbn [bind ret].
  destruct (formation_loop _ _ gw tag FORMATIONS 0%Q None)
    as [e|[[l1 bs] bf]] eqn:Hf; [discriminate|]. cbn [bind ret].
  destruct (apply_formation l1 _ bf) as [e|l2] eqn:Ha; [discriminate|].
  cbn [bind ret].
  destruct (order_substitutes l2 gw tag) as [e|l3] eqn:Ho; [discriminate|].
  cbn [bind ret]. intros [= <- _].
  apply order_substitutes_frame in Ho. apply apply_formation_frame in Ha.
  apply formation_loop_frame in Hf.
  rewrite Ho, Ha, Hf. now rewrite !set_at_map.
Qed.

Lemma pick_captains_frame l gw tag l' :
  pick_captains l gw tag = ret l' ->
  map without_line_up l' = map without_line_up l.
Proof.
  unfold pick_captains.
  destruct (entries_with_points _ tag gw) as [e|pl]; [discriminate|].
  cbn [bind ret].
  destruct (sort_by_points_desc pl) as [|[c pc] [|[vc pvc] rest]];
    try discriminate.
  intros [= <-]. rewrite !set_at_map by reflexivity.
  rewrite map_map. apply map_ext. reflexivity.
Qed.

(** What [get_expected_points] leaves of a squad. *)
Lemma get_expected_points_frame
  (calc_predicted_points : string -> CandidatePlayer -> CandidatePlayer)
  (sq sq' : Squad) (gameweek : Z) (tag : string)
  (bench_boost triple_captain : bool) (score : Q) :
  get_expected_points calc_predicted_points sq gameweek tag bench_boost
    triple_captain = ret (score, sq') ->
  budget sq' = budget sq /\
  num_position sq' = num_position sq /\
  free_subs sq' = free_subs sq /\
  subs_this_week sq' = subs_this_week sq /\
  map without_line_up (players sq')
  = map without_line_up (map (calc_predicted_points tag) (players sq)).
Proof.
  unfold get_expected_points.
  destruct (negb (is_complete sq)); [discriminate|].
  destruct (optimize_subs _ gameweek tag) as [e|[l1 bs]] eqn:Ho;
    [discriminate|]. cbn [bind ret].
  destruct (pick_captains l1 gameweek tag) as [e|l2] eqn:Hp; [discriminate|].
  cbn [bind ret].
  destruct (total_points_for_starting_11 l2 gameweek tag triple_captain)
    as [e|total]; [discriminate|]. cbn [bind ret].
  apply optimize_subs_frame in Ho. apply pick_captains_frame in Hp.
  assert (H : map without_line_up (players (set_players sq l2))
              = map without_line_up
                  (map (calc_predicted_points tag) (players sq))).
  { cbn [set_players players]. rewrite Hp, Ho. reflexivity. }
  destruct bench_boost.
  - destruct (total_points_for_subs l2 gameweek tag) as [e|subs];
      [discriminate|]. cbn [bind ret]. intros [= _ <-]. auto.
  - intros [= _ <-]. auto.
Qed.

(** X19: when [get_expected_points] returns, the squad it leaves has the
    budget, the position counters and the substitution counters it had, and
    the players [calc_predicted_points] reloaded, in the same order: of a
    player only the line-up flags [is_starting], [is_captain],
    [is_vice_captain] and [sub_position] are rewritten. *)
Theorem get_expected_points_rewrites_only_the_line_up
  (calc_predicted_points : string -> CandidatePlayer -> CandidatePlayer)
  (sq sq' : Squad) (gameweek : Z) (tag : string)
  (bench_boost triple_captain : bool) (score : Q) :
  get_expected_points calc_predicted_points sq gameweek tag bench_boost
    triple_captain = ret (score, sq') ->
  budget sq' = budget sq /\
  num_position sq' = num_position sq /\
  free_subs sq' = free_subs sq /\
  subs_this_week sq' = subs_this_week sq /\
  map without_line_up (players sq')
  = map without_line_up (map (calc_predicted_points tag) (players sq)).
Proof.
  exact (get_expected_points_frame calc_predicted_points sq sq' gameweek tag
           bench_boost triple_captain score).
Qed.

End ScoringFrame.

Local Abbreviation sample_expected_points :=
  (get_expected_points (F := exact_arithmetic) keep_predictions full_squad 1 "t" false false).

Lemma get_expected_points_rewrites_only_the_line_up_witness :
  match sample_expected_points with
  | inr (_, sq') =>
      budget sq' = budget full_squad /\
      map without_line_up (players sq')
      = map without_line_up (players full_squad)
  | inl _ => False
  end.
Proof.
  destruct sample_expected_points as [e|[score sq']] eqn:E.
  - vm_compute in E. discriminate E.
  - destruct (get_expected_points_rewrites_only_the_line_up
                (F := exact_arithmetic) keep_predictions full_squad sq' 1 "t" false false score E)
      as (Hb & _ & _ & _ & Hm).
    split; [exact Hb|].
    unfold keep_predictions in Hm. rewrite map_id in Hm. exact Hm.
Defined.

Lemma set_at_nth_error {A} (f : A -> A) (l : list A) : forall i j,
  nth_error (set_at l i f) j
  = if (j =? i)%nat then option_map f (nth_error l j) else nth_error l j.
Proof.
  induction l as [|x l IH]; intros i j.
  - destruct i, j; cbn; try reflexivity.
    now destruct (j =? i)%nat.
  - destruct i as [|i], j as [|j]; cbn [set_at nth_error Nat.eqb option_map];
      try reflexivity.
    apply IH.
Qed.

Lemma set_at_length {A} (f : A -> A) (l : list A) : forall i,
  List.length (set_at l i f) = List.length l.
Proof.
  induction l as [|x l IH]; intros [|i]; cbn; auto.
Qed.

Lemma insert_by_Permutation {A} (before : A -> A -> bool) x l :
  Permutation (insert_by before x l) (x :: l).
Proof.
  induction l as [|y l IH]; cbn; [reflexivity|].
  destruct (before y x); [|reflexivity].
  rewrite IH. apply perm_swap.
Qed.

Lemma stable_sort_Permutation {A} (before : A -> A -> bool) l :
  Permutation (stable_sort before l) l.
Proof.
  induction l as [|x l IH]; cbn; [reflexivity|].
  rewrite insert_by_Permutation. now constructor.
Qed.

Lemma ranked_before_from_le (x w : Entry) :
  (snd w <= snd x)%Q -> (fst x < fst w)%nat -> ranked_before x w.
Proof.
  intros Hle Hlt. unfold ranked_before.
  destruct (Qle_lt_or_eq _ _ Hle); [left|right]; auto.
Qed.

Lemma ranked_before_le (a b : Entry) : ranked_before a b -> (snd b <= snd a)%Q.
Proof.
  intros [H|[H _]]; [now apply Qlt_le_weak|]. rewrite H. apply Qle_refl.
Qed.

Lemma insert_desc_sorted (x : Entry) l :
  StronglySorted ranked_before l ->
  Forall (fun y => (fst x < fst y)%nat) l ->
  StronglySorted ranked_before
    (insert_by (fun y x => Qltb (snd x) (snd y)) x l).
Proof.
  induction 1 as [|y l Hs IH Hy]; intros Hx; cbn.
  - repeat constructor.
  - inversion Hx as [|? ? Hxy Hxl]; subst.
    destruct (Qltb (snd x) (snd y)) eqn:E.
    + apply Qltb_lt in E. constructor; [now apply IH|].
      eapply Permutation_Forall.
      * symmetry. apply insert_by_Permutation.
      * constructor; [now left | exact Hy].
    + apply Qltb_ge in E. constructor; [now constructor|].
      constructor; [now apply ranked_before_from_le|].
      rewrite Forall_forall in *. intros w Hw.
      apply ranked_before_from_le; [|now apply Hxl].
      eapply Qle_trans; [|exact E]. apply ranked_before_le. now apply Hy.
Qed.

Lemma sort_desc_sorted (l : list Entry) :
  StronglySorted (fun a b => (fst a < fst b)%nat) l ->
  StronglySorted ranked_before (sort_by_points_desc l).
Proof.
  unfold sort_by_points_desc.
  induction 1 as [|x l Hs IH Hx]; cbn; [constructor|].
  apply insert_desc_sorted; [exact IH|].
  eapply Permutation_Forall; [|exact Hx].
  symmetry. apply stable_sort_Permutation.
Qed.

Lemma entries_with_points_enumerate tag gw l : forall k pl,
  entries_with_points (enumerate_from k l) tag gw = ret pl ->
  StronglySorted (fun a b : Entry => (fst a < fst b)%nat) pl /\
  Forall (fun e : Entry => (k <= fst e)%nat) pl /\
  (forall i v, In (i, v) pl ->
     exists p, nth_error l (i - k) = Some p /\ lookup_points p tag gw = ret v) /\
  (forall j p, nth_error l j = Some p ->
     exists v, In ((k + j)%nat, v) pl).
Proof.
  induction l as [|x l IH]; intros k pl; cbn [enumerate_from entries_with_points].
  - intros [= <-]. repeat split; try constructor.
    + intros i v [].
    + intros [|j] p; discriminate.
  - destruct (lookup_points x tag gw) as [e|v0] eqn:Hx; [discriminate|].
    cbn [bind ret].
    destruct (entries_with_points (enumerate_from (S k) l) tag gw)
      as [e|rest] eqn:Hr; [discriminate|]. cbn [bind ret].
    intros [= <-]. destruct (IH _ _ Hr) as (Hs & Hk & Hin & Hall).
    repeat split.
    + constructor; [exact Hs|].
      eapply Forall_impl; [|exact Hk]. cbn. intros; lia.
    + constructor; [cbn; lia|].
      eapply Forall_impl; [|exact Hk]. cbn. intros; lia.
    + intros i v [[= <- <-]|Hi].
      * exists x. rewrite Nat.sub_diag. auto.
      * pose proof Hi as Hi'. apply Hin in Hi' as (p & Hp & Hv).
        rewrite Forall_forall in Hk. apply Hk in Hi. cbn in Hi.
        exists p. split; [|exact Hv].
        replace (i - k)%nat with (S (i - S k)) by lia. exact Hp.
    + intros [|j] p Hp.
      * rewrite Nat.add_0_r. exists v0. now left.
      * cbn in Hp. apply Hall in Hp as (v & Hv). exists v. right.
        now replace (k + S j)%nat with (S k + j)%nat by lia.
Qed.

Lemma nth_error_after_captaincy (l0 : list CandidatePlayer) c vc f1 f2 i p :
  (forall q, predicted_points (f1 q) = predicted_points q) ->
  (forall q, predicted_points (f2 q) = predicted_points q) ->
  nth_error (set_at (set_at l0 c f1) vc f2) i = Some p ->
  exists p0, nth_error l0 i = Some p0 /\
             predicted_points p = predicted_points p0.
Proof.
  intros H1 H2. rewrite !set_at_nth_error.
  destruct (nth_error l0 i) as [p0|]; cbn [option_map];
    [|destruct (i =? vc)%nat, (i =? c)%nat; discriminate].
  intros H. exists p0. split; [reflexivity|].
  destruct (i =? vc)%nat, (i =? c)%nat; cbn [option_map] in H;
    injection H as <-; rewrite ?H2, ?H1; reflexivity.
Qed.

Lemma lookup_points_same_predictions p q tag gw :
  predicted_points p = predicted_points q ->
  lookup_points p tag gw = lookup_points q tag gw.
Proof. unfold lookup_points. now intros ->. Qed.

(** X20: when [pick_captains] returns, exactly one player is captain and
    exactly one, another, is vice-captain; the captain is the first player
    of the squad with the highest prediction for the gameweek, among all
    fifteen and not only the starters, and the vice-captain is the first
    with the highest prediction among the others. *)
Theorem pick_captains_two_best
  (l l' : list CandidatePlayer) (gameweek : Z) (tag : string) :
  pick_captains l gameweek tag = ret l' ->
  exists (c vc : nat) (pc pv : CandidatePlayer) (best second : Q),
    c <> vc /\
    nth_error l' c = Some pc /\ nth_error l' vc = Some pv /\
    lookup_points pc tag gameweek = ret best /\
    lookup_points pv tag gameweek = ret second /\
    (forall i p, nth_error l' i = Some p ->
       is_captain p = (i =? c)%nat /\ is_vice_captain p = (i =? vc)%nat) /\
    (forall i p v, nth_error l' i = Some p ->
       lookup_points p tag gameweek = ret v ->
       i <> c -> ranked_before (c, best) (i, v)) /\
    (forall i p v, nth_error l' i = Some p ->
       lookup_points p tag gameweek = ret v ->
       i <> c -> i <> vc -> ranked_before (vc, second) (i, v)).
Proof.
  unfold pick_captains.
  set (l0 := map (fun p => set_captaincy p false false) l).
  destruct (entries_with_points (enumerate_from 0 l0) tag gameweek)
    as [e|pl] eqn:He; [discriminate|]. cbn [bind ret].
  destruct (sort_by_points_desc pl) as [|[c best] [|[vc second] rest]] eqn:Hsort;
    try discriminate.
  intros [= <-].
  destruct (entries_with_points_enumerate _ _ _ _ _ He)
    as (Hinc & _ & Hin & Hall).
  pose proof (sort_desc_sorted pl Hinc) as Hsorted. rewrite Hsort in Hsorted.
  assert (Hperm : Permutation ((c, best) :: (vc, second) :: rest) pl).
  { rewrite <- Hsort. apply stable_sort_Permutation. }
  apply StronglySorted_inv in Hsorted as [Hsorted Hc].
  apply StronglySorted_inv in Hsorted as [_ Hvc].
  rewrite Forall_forall in Hc, Hvc.
  assert (Hpc : In (c, best) pl)
    by (eapply Permutation_in; [exact Hperm|now left]).
  assert (Hpv : In (vc, second) pl)
    by (eapply Permutation_in; [exact Hperm|now right; left]).
  destruct (Hin _ _ Hpc) as (p0c & Hnc & Hlc).
  destruct (Hin _ _ Hpv) as (p0v & Hnv & Hlv).
  rewrite Nat.sub_0_r in Hnc, Hnv.
  assert (Hne : c <> vc).
  { intros <-. rewrite Hnc in Hnv. injection Hnv as <-.
    rewrite Hlc in Hlv. injection Hlv as <-.
    destruct (Hc (c, best)) as [H|[_ H]]; [now left| |]; cbn in H.
    - exact (Qlt_irrefl _ H).
    - lia. }
  assert (Hentry : forall i p v,
     nth_error
       (set_at (set_at l0 c (fun p => set_captaincy p true (is_vice_captain p)))
               vc (fun p => set_captaincy p (is_captain p) true)) i = Some p ->
     lookup_points p tag gameweek = ret v ->
     In (i, v) ((c, best) :: (vc, second) :: rest)).
  { intros i p v Hn Hl.
    apply nth_error_after_captaincy in Hn as (p0 & Hn0 & Hpp);
      [|reflexivity|reflexivity].
    rewrite (lookup_points_same_predictions _ _ _ _ Hpp) in Hl.
    destruct (Hall _ _ Hn0) as (v' & Hv'). cbn [Nat.add] in Hv'.
    destruct (Hin _ _ Hv') as (p1 & Hn1 & Hl1).
    rewrite Nat.sub_0_r, Hn0 in Hn1. injection Hn1 as <-.
    rewrite Hl in Hl1. injection Hl1 as <-.
    eapply Permutation_in; [symmetry; exact Hperm|exact Hv']. }
  assert (Hflag0 : forall i p, nth_error l0 i = Some p ->
            is_captain p = false /\ is_vice_captain p = false).
  { intros i p Hn. subst l0. rewrite nth_error_map in Hn.
    destruct (nth_error l i); [|discriminate]. injection Hn as <-. auto. }
  exists c, vc, (set_captaincy p0c true (is_vice_captain p0c)),
         (set_captaincy p0v (is_captain p0v) true), best, second.
  split; [exact Hne|].
  split.
  { rewrite !set_at_nth_error.
    destruct (Nat.eqb_spec c vc) as [E|_]; [contradiction|].
    rewrite Nat.eqb_refl, Hnc. reflexivity. }
  split.
  { rewrite !set_at_nth_error. rewrite Nat.eqb_refl.
    destruct (Nat.eqb_spec vc c) as [E|_]; [now symmetry in E|].
    rewrite Hnv. reflexivity. }
  split; [exact Hlc|]. split; [exact Hlv|].
  split.
  { intros i p. rewrite !set_at_nth_error.
    destruct (nth_error l0 i) as [p0|] eqn:Hn0; cbn [option_map];
      [|destruct (i =? vc)%nat, (i =? c)%nat; discriminate].
    destruct (Hflag0 _ _ Hn0) as [Hcap Hvice].
    destruct (Nat.eqb_spec i vc) as [Ev|Hiv], (Nat.eqb_spec i c) as [Ec|Hic];
      cbn [option_map]; intros [= <-]; cbn; auto.
  }
  split.
  - intros i p v Hn Hl Hic.
    destruct (Hentry _ _ _ Hn Hl) as [[= E _]|Hi]; [now symmetry in E|].
    now apply Hc.
  - intros i p v Hn Hl Hic Hiv.
    destruct (Hentry _ _ _ Hn Hl) as [[= E _]|[[= E _]|Hi]];
      [now symmetry in E|now symmetry in E|].
    now apply Hvc.
Qed.

Local Abbreviation sample_captains := (pick_captains (players full_squad) 1 "t").

Lemma pick_captains_two_best_witness :
  match sample_captains with
  | inr l' =>
      exists c vc : nat, c <> vc /\
        forall i p, nth_error l' i = Some p ->
          is_captain p = (i =? c)%nat /\ is_vice_captain p = (i =? vc)%nat
  | inl _ => False
  end.
Proof.
  destruct sample_captains as [e|l'] eqn:E.
  - vm_compute in E. discriminate E.
  - destruct (pick_captains_two_best (players full_squad) l' 1 "t" E)
      as (c & vc & pc & pv & best & second & Hne & _ & _ & _ & _ & Hflags & _).
    exists c, vc. split; [exact Hne | exact Hflags].
Defined.

Lemma entries_with_points_length tag gw l : forall k pl,
  entries_with_points (enumerate_from k l) tag gw = ret pl ->
  List.length pl = List.length l.
Proof.
  induction l as [|x l IH]; intros k pl; cbn [enumerate_from entries_with_points].
  - now intros [= <-].
  - destruct (lookup_points x tag gw); [discriminate|]. cbn [bind ret].
    destruct (entries_with_points (enumerate_from (S k) l) tag gw) eqn:Hr;
      [discriminate|]. cbn [bind ret].
    intros [= <-]. cbn. f_equal. eapply IH, Hr.
Qed.

Lemma entries_with_points_total tag gw l : forall k,
  (forall p, In p l -> exists v, lookup_points p tag gw = ret v) ->
  exists pl, entries_with_points (enumerate_from k l) tag gw = ret pl.
Proof.
  induction l as [|x l IH]; intros k Hall;
    cbn [enumerate_from entries_with_points].
  - now exists [].
  - destruct (Hall x) as (v & ->); [now left|]. cbn [bind ret].
    destruct (IH (S k)) as (pl & ->); [intros p Hp; apply Hall; now right|].
    cbn [bind ret]. eauto.
Qed.

Lemma sort_by_points_desc_length {A} (l : list (A * Q)) :
  List.length (sort_by_points_desc l) = List.length l.
Proof. apply stable_sort_length. Qed.

(** When [pick_captains] returns. *)
Lemma pick_captains_returns_spec
  (l : list CandidatePlayer) (gameweek : Z) (tag : string) :
  (exists l', pick_captains l gameweek tag = ret l') <->
  (2 <= List.length l)%nat /\
  forall p, In p l -> exists v, lookup_points p tag gameweek = ret v.
Proof.
  unfold pick_captains.
  set (l0 := map (fun p => set_captaincy p false false) l).
  assert (Hlen0 : List.length l0 = List.length l) by apply length_map.
  split.
  - intros (l' & H).
    destruct (entries_with_points (enumerate_from 0 l0) tag gameweek)
      as [e|pl] eqn:He; [discriminate|]. cbn [bind ret] in H.
    pose proof (entries_with_points_length _ _ _ _ _ He) as Hlen.
    destruct (entries_with_points_enumerate _ _ _ _ _ He)
      as (_ & _ & Hin & Hall).
    split.
    + destruct (sort_by_points_desc pl) as [|[c pc] [|[vc pvc] rest]] eqn:Hs;
        try discriminate.
      apply (f_equal (@List.length _)) in Hs.
      rewrite sort_by_points_desc_length in Hs. cbn in Hs.
      unfold Entry in *. lia.
    + intros p Hp. apply In_nth_error in Hp as (j & Hj).
      assert (Hj0 : nth_error l0 j = Some (set_captaincy p false false)).
      { subst l0. rewrite nth_error_map, Hj. reflexivity. }
      destruct (Hall _ _ Hj0) as (v & Hv). cbn [Nat.add] in Hv.
      destruct (Hin _ _ Hv) as (p1 & Hn1 & Hl1).
      rewrite Nat.sub_0_r, Hj0 in Hn1. injection Hn1 as <-.
      exists v. exact Hl1.
  - intros (Hlen & Hall).
    destruct (entries_with_points_total tag gameweek l0 0%nat) as (pl & He).
    { intros p Hp. subst l0. apply in_map_iff in Hp as (q & <- & Hq).
      destruct (Hall q Hq) as (v & Hv). exists v. exact Hv. }
    rewrite He. cbn [bind ret].
    pose proof (entries_with_points_length _ _ _ _ _ He) as Hpl.
    destruct (sort_by_points_desc pl) as [|[c pc] [|[vc pvc] rest]] eqn:Hs;
      [| |eauto];
      apply (f_equal (@List.length _)) in Hs;
      rewrite sort_by_points_desc_length in Hs; cbn in Hs;
      unfold Entry in *; lia.
Qed.

(** X21: [pick_captains] returns exactly when the squad has at least two
    players and every player has a prediction for the tag and gameweek;
    otherwise it raises ([KeyError] for a missing prediction, [IndexError]
    for a squad too small). *)
Theorem pick_captains_returns_iff
  (l : list CandidatePlayer) (gameweek : Z) (tag : string) :
  (exists l', pick_captains l gameweek tag = ret l') <->
  (2 <= List.length l)%nat /\
  forall p, In p l -> exists v, lookup_points p tag gameweek = ret v.
Proof. exact (pick_captains_returns_spec l gameweek tag). Qed.

Section LineUpCount.

Context {F : PyFloat}.

Lemma places_ge l pos : forall k j, In j (places l pos k) -> (k <= j)%nat.
Proof.
  unfold places. induction l as [|x l IH]; intros k j; cbn; [tauto|].
  destruct (Position_eqb (position x) pos); cbn.
  - intros [<-|H]; [lia|]. apply IH in H. lia.
  - intros H. apply IH in H. lia.
Qed.

Lemma places_lt l pos : forall k j,
  In j (places l pos k) -> (j < k + List.length l)%nat.
Proof.
  unfold places. induction l as [|x l IH]; intros k j; cbn; [tauto|].
  destruct (Position_eqb (position x) pos); cbn.
  - intros [<-|H]; [lia|]. apply IH in H. lia.
  - intros H. apply IH in H. lia.
Qed.

Lemma places_NoDup l pos : forall k, NoDup (places l pos k).
Proof.
  induction l as [|x l IH]; intros k; [constructor|].
  unfold places in *. cbn.
  destruct (Position_eqb (position x) pos); cbn; [|apply IH].
  constructor; [|apply IH].
  intros H. apply (places_ge l pos (S k)) in H. lia.
Qed.

Lemma places_position l pos : forall k j,
  In j (places l pos k) <->
  (k <= j)%nat /\ exists p, nth_error l (j - k) = Some p /\ position p = pos.
Proof.
  unfold places. induction l as [|x l IH]; intros k j; cbn.
  - split; [tauto|]. intros (_ & p & H & _). destruct (j - k)%nat; discriminate.
  - assert (Hrest :
      In j (map fst (filter (fun ip => Position_eqb (position (snd ip)) pos)
                            (enumerate_from (S k) l))) <->
      (S k <= j)%nat /\
      exists p, nth_error (x :: l) (j - k) = Some p /\ position p = pos).
    { rewrite IH. split; intros (Hk & p & Hn & Hp); (split; [exact Hk|]);
        exists p; (split; [|exact Hp]).
      - replace (j - k)%nat with (S (j - S k)) by lia. exact Hn.
      - replace (j - k)%nat with (S (j - S k)) in Hn by lia. exact Hn. }
    destruct (Position_eqb (position x) pos) eqn:E; cbn [map fst In].
    + rewrite Hrest. split.
      * intros [<-|(Hk & H)]; [|split; [lia|exact H]].
        split; [lia|]. exists x. rewrite Nat.sub_diag.
        split; [reflexivity|]. now apply Position_eqb_eq.
      * intros (Hk & H). destruct (Nat.eq_dec k j) as [->|Hne]; [now left|].
        right. split; [lia|exact H].
    + rewrite Hrest. split.
      * intros (Hk & H). split; [lia|exact H].
      * intros (Hk & p & Hn & Hp). split; [|now exists p].
        destruct (Nat.eq_dec k j) as [->|Hne]; [|lia].
        rewrite Nat.sub_diag in Hn. injection Hn as <-.
        apply Position_eqb_eq in Hp. congruence.
Qed.

Lemma starters_by_places l pos : forall k,
  List.length (starters l pos)
  = List.length (filter (fun j => starting_at l (j - k)) (places l pos k)).
Proof.
  unfold starters, places. induction l as [|x l IH]; intros k; [reflexivity|].
  cbn [filter enumerate_from snd].
  assert (Hrest :
    List.length (filter (fun j => starting_at (x :: l) (j - k))
                   (places l pos (S k)))
    = List.length (filter (fun j => starting_at l (j - S k))
                     (places l pos (S k)))).
  { f_equal. apply filter_ext_in. intros j Hj. apply places_ge in Hj.
    replace (j - k)%nat with (S (j - S k)) by lia. reflexivity. }
  unfold places in Hrest.
  destruct (Position_eqb (position x) pos); cbn [map fst filter].
  - rewrite Nat.sub_diag. unfold starting_at at 1. cbn [nth_error].
    rewrite andb_true_r.
    destruct (is_starting x); cbn [List.length]; rewrite Hrest, <- IH;
      reflexivity.
  - rewrite andb_false_r. rewrite Hrest, <- IH. reflexivity.
Qed.

Lemma filter_length_Permutation {A} (f : A -> bool) (l l' : list A) :
  Permutation l l' -> List.length (filter f l) = List.length (filter f l').
Proof.
  induction 1 as [|x l l' _ IH|x y l|l l1 l2 _ IH1 _ IH2]; cbn.
  - reflexivity.
  - destruct (f x); cbn; now rewrite IH.
  - destruct (f x), (f y); reflexivity.
  - now rewrite IH1.
Qed.

(** A list whose [k]-th element passes the test exactly when [k0 + k] is
    below [limit]. *)
Lemma filter_length_below (f : nat -> bool) (limit : Z) (J : list nat) :
  forall k0 : nat,
  (forall k j, nth_error J k = Some j ->
     f j = (Z.of_nat (k0 + k) <? limit)) ->
  Z.of_nat (List.length (filter f J))
  = Z.max 0 (Z.min (limit - Z.of_nat k0) (Z.of_nat (List.length J))).
Proof.
  induction J as [|j J IH]; intros k0 H; [cbn; lia|].
  cbn [filter].
  pose proof (H 0%nat j eq_refl) as H0. rewrite Nat.add_0_r in H0.
  assert (HS : forall k j', nth_error J k = Some j' ->
             f j' = (Z.of_nat (S k0 + k) <? limit)).
  { intros k j' Hk. rewrite (H (S k) j' Hk). f_equal. lia. }
  specialize (IH (S k0) HS). rewrite H0.
  destruct (Z.ltb_spec (Z.of_nat k0) limit); cbn [List.length]; lia.
Qed.

Lemma formation_fold_outside (limit : Z) (E : list Entry) : forall k0 l j,
  ~ In j (map fst E) ->
  nth_error
    (fold_left
       (fun acc (ie : nat * Entry) =>
          set_at acc (fst (snd ie))
                 (fun p => set_is_starting p (Z.of_nat (fst ie) <? limit)))
       (enumerate_from k0 E) l) j
  = nth_error l j.
Proof.
  induction E as [|e E IH]; intros k0 l j Hj; [reflexivity|].
  cbn [enumerate_from fold_left fst snd].
  rewrite IH by (intros H; apply Hj; now right).
  rewrite set_at_nth_error.
  destruct (Nat.eqb_spec j (fst e)) as [->|_]; [|reflexivity].
  exfalso. apply Hj. now left.
Qed.

Lemma formation_fold_inside (limit : Z) (E : list Entry) : forall k0 l k e,
  NoDup (map fst E) -> nth_error E k = Some e ->
  nth_error
    (fold_left
       (fun acc (ie : nat * Entry) =>
          set_at acc (fst (snd ie))
                 (fun p => set_is_starting p (Z.of_nat (fst ie) <? limit)))
       (enumerate_from k0 E) l) (fst e)
  = option_map (fun p => set_is_starting p (Z.of_nat (k0 + k) <? limit))
               (nth_error l (fst e)).
Proof.
  induction E as [|a E IH]; intros k0 l k e Hnd Hk; [now destruct k|].
  cbn [map] in Hnd. apply NoDup_cons_iff in Hnd as [Ha Hnd].
  cbn [enumerate_from fold_left fst snd].
  destruct k as [|k]; cbn [nth_error] in Hk.
  - injection Hk as ->. rewrite formation_fold_outside by exact Ha.
    rewrite set_at_nth_error, Nat.eqb_refl, Nat.add_0_r. reflexivity.
  - rewrite (IH (S k0) _ k e Hnd Hk).
    rewrite set_at_nth_error.
    destruct (Nat.eqb_spec (fst e) (fst a)) as [E'|_].
    + exfalso. apply Ha. rewrite <- E'. apply in_map.
      eapply nth_error_In, Hk.
    + replace (S k0 + k)%nat with (k0 + S k)%nat by lia. reflexivity.
Qed.

Lemma apply_formation_position_outside l E limit j :
  ~ In j (map fst E) ->
  nth_error (apply_formation_position l E limit) j = nth_error l j.
Proof. apply formation_fold_outside. Qed.

Lemma apply_formation_position_follows l E limit :
  NoDup (map fst E) ->
  (forall j, In j (map fst E) -> (j < List.length l)%nat) ->
  follows_limit (apply_formation_position l E limit) E limit.
Proof.
  intros Hnd Hlt k e Hk. unfold starting_at.
  assert (H : nth_error (apply_formation_position l E limit) (fst e)
              = option_map
                  (fun p => set_is_starting p (Z.of_nat (0 + k) <? limit))
                  (nth_error l (fst e)))
    by exact (formation_fold_inside limit E 0 l k e Hnd Hk).
  rewrite H.
  destruct (nth_error l (fst e)) as [p|] eqn:Hp; [reflexivity|].
  apply nth_error_None in Hp.
  assert (fst e < List.length l)%nat; [|lia].
  apply Hlt, in_map. eapply nth_error_In, Hk.
Qed.

Lemma follows_limit_outside l l' E limit :
  (forall j, In j (map fst E) -> nth_error l' j = nth_error l j) ->
  follows_limit l E limit -> follows_limit l' E limit.
Proof.
  intros Hsame H k e Hk. unfold starting_at.
  rewrite Hsame by (apply in_map; eapply nth_error_In, Hk).
  now apply H.
Qed.

Lemma places_ext l pos : forall l' k,
  map position l = map position l' -> places l pos k = places l' pos k.
Proof.
  unfold places.
  induction l as [|x l IH]; intros [|x' l'] k; cbn [map]; try discriminate;
    [reflexivity|].
  intros [= Hx Hl]. cbn [enumerate_from filter snd]. rewrite Hx.
  destruct (Position_eqb (position x') pos); cbn [map fst];
    [f_equal|]; now apply IH.
Qed.

Lemma follows_limit_count l E limit pos :
  follows_limit l E limit ->
  Permutation (map fst E) (places l pos 0) ->
  0 <= limit <= Z.of_nat (List.length E) ->
  Z.of_nat (List.length (starters l pos)) = limit.
Proof.
  intros Hf Hperm Hlim.
  rewrite (starters_by_places l pos 0).
  rewrite (filter_ext (fun j => starting_at l (j - 0)) (starting_at l))
    by (intros j; now rewrite Nat.sub_0_r).
  rewrite <- (filter_length_Permutation _ _ _ Hperm).
  rewrite (filter_length_below (starting_at l) limit (map fst E) 0).
  - rewrite length_map. unfold Entry in *. lia.
  - intros k j Hk. rewrite nth_error_map in Hk. unfold Entry in *.
    destruct (nth_error E k) as [e|] eqn:He; cbn in Hk; [|discriminate].
    injection Hk as <-. now apply Hf.
Qed.

Lemma dict_places l tag gw pos :
  Permutation (map fst (pp_get (build_player_dict l tag gw) pos))
              (places l pos 0).
Proof.
  assert (H : map fst (entries_for l tag gw pos) = places l pos 0).
  { unfold entries_for, places. rewrite map_map. reflexivity. }
  rewrite <- H.
  destruct pos; cbn [pp_get build_player_dict at_GK at_DEF at_MID at_FWD];
    apply Permutation_map; apply stable_sort_Permutation.
Qed.

Lemma places_disjoint l pos pos' j :
  In j (places l pos 0) -> In j (places l pos' 0) -> pos = pos'.
Proof.
  rewrite !places_position.
  intros (_ & p & Hp & <-) (_ & p' & Hp' & <-). congruence.
Qed.

Lemma frame_positions (a b : list CandidatePlayer) :
  map without_line_up a = map without_line_up b ->
  map position a = map position b.
Proof.
  intros H. apply (f_equal (map position)) in H.
  rewrite !map_map in H. exact H.
Qed.

Lemma same_positions_length (a b : list CandidatePlayer) :
  map position a = map position b -> List.length a = List.length b.
Proof.
  intros H. apply (f_equal (@List.length _)) in H.
  now rewrite !length_map in H.
Qed.

Lemma starting_at_same_flags (a b : list CandidatePlayer) j :
  map is_starting a = map is_starting b ->
  starting_at a j = starting_at b j.
Proof.
  intros H. apply (f_equal (fun m => nth_error m j)) in H.
  rewrite !nth_error_map in H. unfold starting_at.
  destruct (nth_error a j), (nth_error b j); cbn in H; congruence.
Qed.

Lemma order_substitutes_flags l gw tag l' :
  order_substitutes l gw tag = ret l' ->
  map is_starting l' = map is_starting l.
Proof.
  unfold order_substitutes.
  destruct (entries_with_points _ tag gw) as [e|points]; [discriminate|].
  cbn [bind ret]. intros [= <-].
  apply (fold_set_at_map is_starting (fun ke => fst (snd ke))
           (fun ke p => set_sub_position p (Z.of_nat (fst ke)))).
  reflexivity.
Qed.

Lemma formation_loop_best d gw tag fs : forall l best bf l' best' bf',
  formation_loop l d gw tag fs best bf = ret (l', best', bf') ->
  bf' = bf \/ exists f, In f fs /\ bf' = Some f.
Proof.
  induction fs as [|f fs IH]; intros l best bf l' best' bf';
    cbn [formation_loop].
  - intros [= _ _ <-]. now left.
  - destruct (apply_formation l d (Some f)) as [e|l1]; [discriminate|].
    cbn [bind ret].
    destruct (total_points_for_starting_11 l1 gw tag false) as [e|score];
      [discriminate|]. cbn [bind ret].
    destruct (Qle_bool best score); intros H; apply IH in H;
      destruct H as [->|(g & Hg & ->)].
    + right. exists f. split; [now left|reflexivity].
    + right. exists g. split; [now right|reflexivity].
    + now left.
    + right. exists g. split; [now right|reflexivity].
Qed.

Lemma starters_total (l : list CandidatePlayer) :
  List.length (filter is_starting l)
  = (List.length (starters l GK) + List.length (starters l DEF)
     + List.length (starters l MID) + List.length (starters l FWD))%nat.
Proof.
  unfold starters. induction l as [|p l IH]; [reflexivity|].
  cbn [filter]. destruct (is_starting p), (position p);
    cbn [andb Position_eqb List.length]; lia.
Qed.

Section Dictionary.

Variable l : list CandidatePlayer.
Variable tag : string.
Variable gw : Z.

Local Abbreviation d := (build_player_dict l tag gw).

Lemma dict_NoDup pos : NoDup (map fst (pp_get d pos)).
Proof.
  eapply Permutation_NoDup; [symmetry; apply dict_places|apply places_NoDup].
Qed.

Lemma dict_in_range pos j :
  In j (map fst (pp_get d pos)) -> (j < List.length l)%nat.
Proof.
  intros H. eapply Permutation_in in H; [|apply dict_places].
  apply places_lt in H. lia.
Qed.

Lemma dict_disjoint pos pos' j :
  pos <> pos' ->
  In j (map fst (pp_get d pos)) -> ~ In j (map fst (pp_get d pos')).
Proof.
  intros Hne H H'.
  eapply Permutation_in in H; [|apply dict_places].
  eapply Permutation_in in H'; [|apply dict_places].
  apply Hne. eapply places_disjoint; eassumption.
Qed.

Lemma dict_length pos :
  Z.of_nat (List.length (pp_get d pos)) = count_position l pos.
Proof.
  destruct pos; cbn [pp_get build_player_dict at_GK at_DEF at_MID at_FWD];
    unfold sort_by_points_desc; rewrite stable_sort_length;
    apply entries_for_length.
Qed.

(** [apply_formation] leaves the goalkeepers alone. *)
Lemma apply_formation_goalkeepers lx f l' j :
  In j (map fst (pp_get d GK)) ->
  apply_formation lx d f = ret l' ->
  nth_error l' j = nth_error lx j.
Proof.
  intros Hj. unfold apply_formation. destruct f as [[[nd nm] nf]|].
  - intros [= <-].
    rewrite !apply_formation_position_outside; [reflexivity| | |].
    + apply (dict_disjoint GK DEF); [discriminate|exact Hj].
    + apply (dict_disjoint GK MID); [discriminate|exact Hj].
    + apply (dict_disjoint GK FWD); [discriminate|exact Hj].
  - destruct (at_DEF d), (at_MID d), (at_FWD d); try discriminate.
    now intros [= <-].
Qed.

Lemma formation_loop_goalkeepers fs j : forall lx best bf l' best' bf',
  In j (map fst (pp_get d GK)) ->
  formation_loop lx d gw tag fs best bf = ret (l', best', bf') ->
  nth_error l' j = nth_error lx j.
Proof.
  induction fs as [|f fs IH]; intros lx best bf l' best' bf' Hj;
    cbn [formation_loop].
  - now intros [= <- _ _].
  - destruct (apply_formation lx d (Some f)) as [e|l1] eqn:Ha; [discriminate|].
    cbn [bind ret].
    destruct (total_points_for_starting_11 l1 gw tag false) as [e|score];
      [discriminate|]. cbn [bind ret].
    apply (apply_formation_goalkeepers _ _ _ _ Hj) in Ha.
    destruct (Qle_bool best score); intros H; apply (IH _ _ _ _ _ _ Hj) in H;
      congruence.
Qed.

(** After [apply_formation] with a formation, the entries of each outfield
    position follow its limit. *)
Lemma apply_formation_follows lx nd nm nf l' :
  List.length lx = List.length l ->
  apply_formation lx d (Some (nd, nm, nf)) = ret l' ->
  follows_limit l' (at_DEF d) nd /\
  follows_limit l' (at_MID d) nm /\
  follows_limit l' (at_FWD d) nf.
Proof.
  intros Hlen. cbn [apply_formation]. intros [= <-].
  assert (Hl : forall a E lim,
            List.length (apply_formation_position a E lim) = List.length a).
  { intros a E lim.
    pose proof (apply_formation_position_frame a E lim) as H.
    apply (f_equal (@List.length _)) in H. now rewrite !length_map in H. }
  split; [|split].
  - apply (follows_limit_outside
             (apply_formation_position
                (apply_formation_position lx (at_DEF d) nd) (at_MID d) nm)).
    { intros j Hj. apply apply_formation_position_outside.
      apply (dict_disjoint DEF FWD); [discriminate|exact Hj]. }
    apply (follows_limit_outside (apply_formation_position lx (at_DEF d) nd)).
    { intros j Hj. apply apply_formation_position_outside.
      apply (dict_disjoint DEF MID); [discriminate|exact Hj]. }
    apply apply_formation_position_follows; [apply (dict_NoDup DEF)|].
    intros j Hj. rewrite Hlen. now apply (dict_in_range DEF).
  - apply (follows_limit_outside
             (apply_formation_position
                (apply_formation_position lx (at_DEF d) nd) (at_MID d) nm)).
    { intros j Hj. apply apply_formation_position_outside.
      apply (dict_disjoint MID FWD); [discriminate|exact Hj]. }
    apply apply_formation_position_follows; [apply (dict_NoDup MID)|].
    intros j Hj. rewrite Hl, Hlen. now apply (dict_in_range MID).
  - apply apply_formation_position_follows; [apply (dict_NoDup FWD)|].
    intros j Hj. rewrite !Hl, Hlen. now apply (dict_in_range FWD).
Qed.

End Dictionary.

(** The line-up [optimize_subs] leaves on a squad that fills every quota:
    one goalkeeper and a formation of [FORMATIONS]. *)
Lemma optimize_subs_line_up
  (l l' : list CandidatePlayer) (gameweek : Z) (tag : string) (best : Q) :
  count_position l GK = 2 -> count_position l DEF = 5 ->
  count_position l MID = 5 -> count_position l FWD = 3 ->
  optimize_subs l gameweek tag = ret (l', best) ->
  exists nd nm nf,
    In (nd, nm, nf) FORMATIONS /\
    Z.of_nat (List.length (starters l' GK)) = 1 /\
    Z.of_nat (List.length (starters l' DEF)) = nd /\
    Z.of_nat (List.length (starters l' MID)) = nm /\
    Z.of_nat (List.length (starters l' FWD)) = nf /\
    List.length (filter is_starting l') = 11%nat.
Proof.
  intros HG HD HM HF H.
  pose proof (frame_positions _ _ (optimize_subs_frame _ _ _ _ _ H)) as Hpos.
  unfold optimize_subs in H.
  pose proof (dict_length l tag gameweek GK) as LG.
  pose proof (dict_length l tag gameweek DEF) as LD.
  pose proof (dict_length l tag gameweek MID) as LM.
  pose proof (dict_length l tag gameweek FWD) as LF.
  pose proof (dict_NoDup l tag gameweek GK) as NG.
  pose proof (dict_in_range l tag gameweek GK) as RG.
  pose proof (apply_formation_goalkeepers l tag gameweek) as AG.
  pose proof (formation_loop_goalkeepers l tag gameweek) as FG.
  pose proof (apply_formation_follows l tag gameweek) as AF.
  pose proof (dict_places l tag gameweek) as DP.
  set (d := build_player_dict l tag gameweek) in *.
  cbn [pp_get] in LG, LD, LM, LF, NG, RG, AG, FG.
  rewrite HG in LG. rewrite HD in LD. rewrite HM in LM. rewrite HF in LF.
  unfold first_two_goalkeepers in H.
  destruct (at_GK d) as [|[first v1] [|[second v2] rest]] eqn:EG;
    try discriminate.
  destruct rest; [|cbn in LG; lia]. clear LG.
  cbn [bind ret] in H. cbn [map fst] in NG, RG, AG, FG.
  assert (Hne : first <> second).
  { intros ->. inversion NG as [|? ? Hn _]. apply Hn. now left. }
  set (l1 := set_at (set_at l first (fun p => set_is_starting p true)) second
                    (fun p => set_is_starting p false)) in H.
  destruct (formation_loop l1 d gameweek tag FORMATIONS 0%Q None)
    as [e|[[l2 bs] bf]] eqn:Hloop; [discriminate|]. cbn [bind ret] in H.
  destruct (apply_formation l2 d bf) as [e|l3] eqn:Happ; [discriminate|].
  cbn [bind ret] in H.
  destruct (order_substitutes l3 gameweek tag) as [e|l4] eqn:Hord;
    [discriminate|]. cbn [bind ret] in H. injection H as <- _.
  pose proof (order_substitutes_flags _ _ _ _ Hord) as Hflags.
  assert (Hlen2 : List.length l2 = List.length l).
  { apply formation_loop_frame in Hloop. apply frame_positions in Hloop.
    apply same_positions_length in Hloop. rewrite Hloop. unfold l1.
    now rewrite !set_at_length. }
  (* the formation kept *)
  destruct (formation_loop_best _ _ _ _ _ _ _ _ _ _ Hloop)
    as [->|([[nd nm] nf] & Hin & ->)].
  { exfalso. unfold apply_formation in Happ.
    destruct (at_DEF d); [cbn in LD; lia|].
    destruct (at_MID d), (at_FWD d); discriminate. }
  destruct (AF l2 nd nm nf l3 Hlen2 Happ) as (FD & FM & FF).
  assert (Hlim : 0 <= nd <= 5 /\ 0 <= nm <= 5 /\ 0 <= nf <= 3 /\
                 nd + nm + nf = 10).
  { unfold FORMATIONS in Hin. cbn [In] in Hin.
    repeat (destruct Hin as [Hin|Hin]; [injection Hin as <- <- <-; lia|]).
    destruct Hin. }
  (* the goalkeepers *)
  assert (G1 : forall j, In j [first; second] ->
                 nth_error l3 j = nth_error l1 j).
  { intros j Hj. rewrite (AG l2 _ l3 j Hj Happ).
    exact (FG FORMATIONS j l1 0%Q None l2 bs (Some (nd, nm, nf)) Hj Hloop). }
  assert (FGK : follows_limit l3 [(first, v1); (second, v2)] 1).
  { intros k e Hk. unfold starting_at.
    destruct k as [|[|k]]; cbn [nth_error] in Hk.
    - injection Hk as <-. cbn [fst]. rewrite G1 by now left.
      unfold l1. rewrite !set_at_nth_error.
      destruct (Nat.eqb_spec first second) as [E|_]; [contradiction|].
      rewrite Nat.eqb_refl.
      destruct (nth_error l first) eqn:Hn; [reflexivity|].
      apply nth_error_None in Hn.
      assert (first < List.length l)%nat by (apply RG; now left). lia.
    - injection Hk as <-. cbn [fst]. rewrite G1 by (right; now left).
      unfold l1. rewrite !set_at_nth_error, Nat.eqb_refl.
      destruct (Nat.eqb_spec second first) as [E|_]; [now symmetry in E|].
      now destruct (nth_error l second).
    - now destruct k. }
  (* counting, on the squad as [order_substitutes] leaves it *)
  assert (Hsame : forall E lim, follows_limit l3 E lim ->
                    follows_limit l4 E lim).
  { intros E lim HE k e Hk.
    rewrite (starting_at_same_flags l4 l3 _ Hflags). now apply HE. }
  assert (Hplaces : forall pos,
            Permutation (map fst (pp_get d pos)) (places l4 pos 0)).
  { intros pos. rewrite (places_ext l4 pos l 0 Hpos). apply DP. }
  pose proof (Hplaces GK) as PG. pose proof (Hplaces DEF) as PD.
  pose proof (Hplaces MID) as PM. pose proof (Hplaces FWD) as PF.
  cbn [pp_get] in PG, PD, PM, PF. rewrite EG in PG.
  pose proof (follows_limit_count l4 _ 1 GK (Hsame _ _ FGK) PG) as CG.
  pose proof (follows_limit_count l4 _ nd DEF (Hsame _ _ FD) PD) as CD.
  pose proof (follows_limit_count l4 _ nm MID (Hsame _ _ FM) PM) as CM.
  pose proof (follows_limit_count l4 _ nf FWD (Hsame _ _ FF) PF) as CF.
  unfold Entry in *.
  specialize (CG ltac:(cbn; lia)). specialize (CD ltac:(lia)).
  specialize (CM ltac:(lia)). specialize (CF ltac:(lia)).
  exists nd, nm, nf. repeat (split; [assumption|]).
  rewrite starters_total. lia.
Qed.

(** X22: on a squad of two goalkeepers, five defenders, five midfielders
    and three forwards, when [optimize_subs] returns, exactly one
    goalkeeper starts and the defenders, midfielders and forwards that
    start are as many as one formation of [FORMATIONS] asks: eleven
    starters in all, whatever the flags were before. *)
Theorem optimize_subs_starts_eleven
  (l l' : list CandidatePlayer) (gameweek : Z) (tag : string) (best : Q) :
  count_position l GK = 2 -> count_position l DEF = 5 ->
  count_position l MID = 5 -> count_position l FWD = 3 ->
  optimize_subs l gameweek tag = ret (l', best) ->
  exists nd nm nf,
    In (nd, nm, nf) FORMATIONS /\
    Z.of_nat (List.length (starters l' GK)) = 1 /\
    Z.of_nat (List.length (starters l' DEF)) = nd /\
    Z.of_nat (List.length (starters l' MID)) = nm /\
    Z.of_nat (List.length (starters l' FWD)) = nf /\
    List.length (filter is_starting l') = 11%nat.
Proof.
  intros HG HD HM HF H.
  exact (optimize_subs_line_up l l' gameweek tag best HG HD HM HF H).
Qed.

End LineUpCount.

Local Abbreviation sample_line_up :=
  (optimize_subs (F := exact_arithmetic) (players full_squad) 1 "t").

Lemma optimize_subs_starts_eleven_witness :
  match sample_line_up with
  | inr (l', _) => List.length (filter is_starting l') = 11%nat
  | inl _ => False
  end.
Proof.
  destruct sample_line_up as [e|[l' best]] eqn:E.
  - vm_compute in E. discriminate E.
  - destruct (optimize_subs_starts_eleven (F := exact_arithmetic)
                (players full_squad) l' 1 "t" best)
      as (nd & nm & nf & _ & _ & _ & _ & _ & H);
      [reflexivity | reflexivity | reflexivity | reflexivity | exact E
      | exact H].
Defined.

Section ScoringReturns.

Context {F : PyFloat}.

Lemma predictions_nonneg_frame l l' tag gw :
  map without_line_up l' = map without_line_up l ->
  predictions_nonneg l tag gw -> predictions_nonneg l' tag gw.
Proof.
  intros Hmap Hl p Hp.
  apply (in_map without_line_up) in Hp. rewrite Hmap in Hp.
  apply in_map_iff in Hp as (q & Hq & Hin).
  destruct (Hl q Hin) as (v & Hv & Hpos). exists v. split; [|exact Hpos].
  rewrite <- Hv. apply lookup_points_same_predictions.
  apply (f_equal predicted_points) in Hq. cbn in Hq. congruence.
Qed.

Lemma total_points_loop_total gw tag tc l : forall total,
  predictions_nonneg l tag gw -> (0 <= total)%Q ->
  exists s, total_points_loop l gw tag tc total = ret s /\ (0 <= s)%Q.
Proof.
  induction l as [|p l IH]; intros total Hl Ht; cbn [total_points_loop].
  - now exists total.
  - assert (Hl' : predictions_nonneg l tag gw)
      by (intros q Hq; apply Hl; now right).
    destruct (is_starting p); [|now apply IH].
    destruct (Hl p) as (v & -> & Hv); [now left|]. cbn [bind ret].
    apply IH; [exact Hl'|].
    assert (H1 : (0 <= float_add total v)%Q)
      by now apply float_add_nonneg.
    assert (H2 : (0 <= float_add (float_add total v) v)%Q)
      by now apply float_add_nonneg.
    assert (H3 : (0 <= float_add (float_add (float_add total v) v) v)%Q)
      by now apply float_add_nonneg.
    destruct (is_captain p); [destruct tc|]; assumption.
Qed.

Lemma entries_with_points_returns tag gw (ps : list (nat * CandidatePlayer)) :
  (forall ip, In ip ps -> exists v, lookup_points (snd ip) tag gw = ret v) ->
  exists pl, entries_with_points ps tag gw = ret pl.
Proof.
  induction ps as [|[i p] ps IH]; intros H; cbn [entries_with_points].
  - now exists [].
  - destruct (H (i, p)) as (v & Hv); [now left|]. cbn [snd] in Hv.
    rewrite Hv. cbn [bind ret].
    destruct IH as (pl & ->); [intros ip Hip; apply H; now right|].
    cbn [bind ret]. eauto.
Qed.

Lemma enumerate_from_In {A} (l : list A) : forall k i x,
  In (i, x) (enumerate_from k l) -> In x l.
Proof.
  induction l as [|y l IH]; intros k i x; cbn; [tauto|].
  intros [[= _ <-]|H]; [now left|right; eapply IH, H].
Qed.

Lemma order_substitutes_total l gw tag :
  predictions_nonneg l tag gw ->
  exists l', order_substitutes l gw tag = ret l'.
Proof.
  intros Hl. unfold order_substitutes.
  destruct (entries_with_points_returns tag gw
              (filter (fun ip => negb (is_starting (snd ip)))
                      (enumerate_from 0 l))) as (pl & ->).
  - intros [i p] Hip. apply filter_In in Hip as [Hip _].
    apply enumerate_from_In in Hip. destruct (Hl p Hip) as (v & Hv & _).
    now exists v.
  - cbn [bind ret]. eauto.
Qed.

Lemma formation_loop_total d gw tag l0 fs : forall l best bf,
  predictions_nonneg l0 tag gw ->
  map without_line_up l = map without_line_up l0 ->
  exists l' best' bf',
    formation_loop l d gw tag fs best bf = ret (l', best', bf') /\
    (bf <> None \/ ((best <= 0)%Q /\ fs <> []) -> bf' <> None).
Proof.
  induction fs as [|f fs IH]; intros l best bf Hl0 Hl; cbn [formation_loop].
  - exists l, best, bf. split; [reflexivity|].
    intros [H|[_ H]]; [exact H|contradiction].
  - destruct f as [[nd nm] nf].
    destruct (apply_formation l d (Some (nd, nm, nf))) as [e|l1] eqn:Ha;
      [discriminate|]. cbn [bind ret].
    pose proof (apply_formation_frame _ _ _ _ Ha) as Hf.
    rewrite Hl in Hf.
    destruct (total_points_loop_total gw tag false l1 0%Q) as (s & Hs & Hpos);
      [eapply predictions_nonneg_frame; eassumption|apply Qle_refl|].
    unfold total_points_for_starting_11. rewrite Hs. cbn [bind ret].
    destruct (Qle_bool best s) eqn:E.
    + destruct (IH l1 s (Some (nd, nm, nf)) Hl0 Hf) as (l' & b' & bf' & -> & H).
      exists l', b', bf'. split; [reflexivity|].
      intros _. apply H. left. discriminate.
    + destruct (IH l1 best bf Hl0 Hf) as (l' & b' & bf' & -> & H).
      exists l', b', bf'. split; [reflexivity|].
      intros [Hbf|[Hb _]]; [apply H; now left|].
      exfalso. assert (Hle : (best <= s)%Q) by (eapply Qle_trans; eassumption).
      apply Qle_bool_iff in Hle. congruence.
Qed.

Lemma optimize_subs_total l gw tag :
  count_position l GK = 2 ->
  predictions_nonneg l tag gw ->
  exists l' best, optimize_subs l gw tag = ret (l', best).
Proof.
  intros HG Hl. unfold optimize_subs.
  pose proof (dict_length l tag gw GK) as LG. cbn [pp_get] in LG.
  destruct (two_entries_give_goalkeepers (build_player_dict l tag gw))
    as (first & second & ->); [lia|]. cbn [bind ret].
  set (l1 := set_at (set_at l first (fun p => set_is_starting p true)) second
                    (fun p => set_is_starting p false)).
  assert (H1 : map without_line_up l1 = map without_line_up l)
    by (unfold l1; now rewrite !set_at_map).
  destruct (formation_loop_total (build_player_dict l tag gw) gw tag l
              FORMATIONS l1 0%Q None Hl H1) as (l2 & bs & bf & Hloop & Hbf).
  rewrite Hloop. cbn [bind ret].
  destruct bf as [[[nd nm] nf]|];
    [|exfalso; apply Hbf; [right; split; [apply Qle_refl|discriminate]
                          |reflexivity]].
  destruct (apply_formation l2 _ (Some (nd, nm, nf))) as [e|l3] eqn:Ha;
    [discriminate|]. cbn [bind ret].
  apply formation_loop_frame in Hloop. apply apply_formation_frame in Ha.
  destruct (order_substitutes_total l3 gw tag) as (l4 & ->).
  - eapply predictions_nonneg_frame; [|exact Hl]. congruence.
  - cbn [bind ret]. eauto.
Qed.

Lemma pick_captains_total l gw tag :
  (2 <= List.length l)%nat ->
  predictions_nonneg l tag gw ->
  exists l', pick_captains l gw tag = ret l'.
Proof.
  intros Hlen Hl. unfold pick_captains.
  set (l0 := map (fun p => set_captaincy p false false) l).
  destruct (entries_with_points_returns tag gw (enumerate_from 0 l0))
    as (pl & He).
  { intros [i p] Hip. apply enumerate_from_In in Hip. subst l0.
    apply in_map_iff in Hip as (q & <- & Hq).
    destruct (Hl q Hq) as (v & Hv & _). now exists v. }
  rewrite He. cbn [bind ret].
  pose proof (entries_with_points_length _ _ _ _ _ He) as Hpl.
  assert (Hl0 : List.length l0 = List.length l) by apply length_map.
  destruct (sort_by_points_desc pl) as [|[c pc] [|[vc pvc] rest]] eqn:Hs;
    [| |eauto];
    apply (f_equal (@List.length _)) in Hs;
    rewrite sort_by_points_desc_length in Hs; cbn in Hs;
    unfold Entry in *; lia.
Qed.

Lemma pick_captains_line_up l gw tag l' :
  pick_captains l gw tag = ret l' ->
  map (fun p => (is_starting p, position p)) l'
  = map (fun p => (is_starting p, position p)) l.
Proof.
  unfold pick_captains.
  destruct (entries_with_points _ tag gw) as [e|pl]; [discriminate|].
  cbn [bind ret].
  destruct (sort_by_points_desc pl) as [|[c pc] [|[vc pvc] rest]];
    try discriminate.
  intros [= <-]. rewrite !set_at_map by reflexivity.
  rewrite map_map. apply map_ext. reflexivity.
Qed.

Lemma filter_length_map {A B} (g : A -> B) (h : B -> bool) : forall a b,
  map g a = map g b ->
  List.length (filter (fun p => h (g p)) a)
  = List.length (filter (fun p => h (g p)) b).
Proof.
  induction a as [|x a IH]; intros [|y b]; cbn [map]; try discriminate;
    [reflexivity|].
  intros [= Hx Hab]. cbn [filter]. rewrite Hx.
  destruct (h (g y)); cbn [List.length]; now rewrite (IH b Hab).
Qed.

(** The bench: the goalkeepers and the outfield players that do not start. *)
Lemma bench_goalkeepers (l : list CandidatePlayer) :
  Z.of_nat (List.length
              (filter (fun p => negb (is_starting p)
                                && Position_eqb (position p) GK) l))
  = count_position l GK - Z.of_nat (List.length (starters l GK)).
Proof.
  unfold count_position, starters. induction l as [|p l IH]; [reflexivity|].
  cbn [filter]. destruct (is_starting p), (position p);
    cbn [negb andb Position_eqb List.length]; lia.
Qed.

Lemma bench_outfield (l : list CandidatePlayer) :
  Z.of_nat (List.length
              (filter (fun p => negb (is_starting p)
                                && negb (Position_eqb (position p) GK)) l))
  = count_position l DEF + count_position l MID + count_position l FWD
    - Z.of_nat (List.length (starters l DEF))
    - Z.of_nat (List.length (starters l MID))
    - Z.of_nat (List.length (starters l FWD)).
Proof.
  unfold count_position, starters. induction l as [|p l IH]; [reflexivity|].
  cbn [filter]. destruct (is_starting p), (position p);
    cbn [negb andb Position_eqb List.length]; lia.
Qed.

Lemma enumerate_from_index_lt {A} (l : list A) : forall k i x,
  In (i, x) (enumerate_from k l) -> (i < k + List.length l)%nat.
Proof.
  induction l as [|y l IH]; intros k i x; cbn; [tauto|].
  intros [[= <- _]|H]; [lia|]. apply IH in H. lia.
Qed.

Lemma outfield_subs_loop_total gw tag (ps : list (nat * CandidatePlayer)) :
  forall total,
  (forall ip, In ip ps ->
     (fst ip < 3)%nat /\ exists v, lookup_points (snd ip) tag gw = ret v) ->
  exists s, outfield_subs_loop ps gw tag total = ret s.
Proof.
  induction ps as [|[i p] ps IH]; intros total H; cbn [outfield_subs_loop].
  - now exists total.
  - destruct (H (i, p)) as (Hi & v & Hv); [now left|]. cbn [fst snd] in *.
    unfold outfield_weight. apply Nat.ltb_lt in Hi. rewrite Hi.
    cbn [bind ret]. rewrite Hv. cbn [bind ret].
    apply IH. intros ip Hip. apply H. now right.
Qed.

Lemma total_points_for_subs_total l gw tag :
  predictions_nonneg l tag gw ->
  count_position l GK - Z.of_nat (List.length (starters l GK)) = 1 ->
  count_position l DEF + count_position l MID + count_position l FWD
    - Z.of_nat (List.length (starters l DEF))
    - Z.of_nat (List.length (starters l MID))
    - Z.of_nat (List.length (starters l FWD)) = 3 ->
  exists s, total_points_for_subs l gw tag = ret s.
Proof.
  intros Hl HG HO. unfold total_points_for_subs.
  rewrite <- bench_goalkeepers in HG. rewrite <- bench_outfield in HO.
  destruct (filter (fun p => negb (is_starting p)
                             && Position_eqb (position p) GK) l)
    as [|gk_sub gks] eqn:EG; [cbn in HG; lia|].
  assert (Hgk : In gk_sub l).
  { assert (H : In gk_sub (gk_sub :: gks)) by now left.
    rewrite <- EG in H. now apply filter_In in H. }
  destruct (Hl gk_sub Hgk) as (v & -> & _). cbn [bind ret].
  apply outfield_subs_loop_total. intros [i p] Hip. cbn [fst snd]. split.
  - apply enumerate_from_index_lt in Hip.
    unfold sort_by_sub_position in Hip. rewrite stable_sort_length in Hip.
    lia.
  - apply enumerate_from_In in Hip. unfold sort_by_sub_position in Hip.
    eapply Permutation_in in Hip; [|apply stable_sort_Permutation].
    apply filter_In in Hip as [Hip _].
    destruct (Hl p Hip) as (w & Hw & _). now exists w.
Qed.

Lemma line_up_counts (a b : list CandidatePlayer) pos :
  map (fun p => (is_starting p, position p)) a
  = map (fun p => (is_starting p, position p)) b ->
  count_position a pos = count_position b pos /\
  List.length (starters a pos) = List.length (starters b pos).
Proof.
  intros H. split.
  - unfold count_position. f_equal.
    exact (filter_length_map (fun p => (is_starting p, position p))
             (fun bp => Position_eqb (snd bp) pos) a b H).
  - unfold starters.
    exact (filter_length_map (fun p => (is_starting p, position p))
             (fun bp => fst bp && Position_eqb (snd bp) pos) a b H).
Qed.

Lemma count_position_same_positions (a b : list CandidatePlayer) pos :
  map position a = map position b ->
  count_position a pos = count_position b pos.
Proof.
  intros H. unfold count_position. f_equal.
  exact (filter_length_map position (fun q => Position_eqb q pos) a b H).
Qed.

(** X23: on a complete squad with sound bookkeeping whose players all have
    a prediction for the tag and the gameweek, none negative,
    [get_expected_points] returns a score, with or without bench boost and
    triple captain: no index, key or type error is possible. *)
Theorem get_expected_points_returns
  (calc_predicted_points : string -> CandidatePlayer -> CandidatePlayer)
  (sq : Squad) (gameweek : Z) (tag : string)
  (bench_boost triple_captain : bool) :
  squad_ok sq -> is_complete sq = true ->
  (forall p, position (calc_predicted_points tag p) = position p) ->
  predictions_nonneg (map (calc_predicted_points tag) (players sq)) tag
                     gameweek ->
  exists score sq',
    get_expected_points calc_predicted_points sq gameweek tag bench_boost
      triple_captain = ret (score, sq').
Proof.
  intros Hok Hcomp Hcalc Hpred.
  destruct (complete_counts sq Hok Hcomp) as (HG & HD & HM & HF).
  unfold get_expected_points, _calc_expected_points. rewrite Hcomp.
  cbn [negb].
  set (l := map (calc_predicted_points tag) (players sq)) in *.
  assert (Hc : forall pos, count_position l pos
                           = count_position (players sq) pos).
  { intros pos. unfold l. apply count_position_map. exact Hcalc. }
  destruct (optimize_subs_total l gameweek tag) as (l1 & best & Ho);
    [now rewrite Hc|exact Hpred|].
  rewrite Ho. cbn [bind ret].
  destruct (optimize_subs_line_up l l1 gameweek tag best)
    as (nd & nm & nf & Hin & SG & SD & SM & SF & _);
    try (rewrite Hc; assumption); [exact Ho|].
  pose proof (optimize_subs_frame _ _ _ _ _ Ho) as F1.
  pose proof (frame_positions _ _ F1) as P1.
  assert (Hlen1 : (2 <= List.length l1)%nat).
  { pose proof (length_by_position l1) as H.
    rewrite (count_position_same_positions l1 l GK P1),
            (count_position_same_positions l1 l DEF P1),
            (count_position_same_positions l1 l MID P1),
            (count_position_same_positions l1 l FWD P1), !Hc in H. lia. }
  assert (Hpred1 : predictions_nonneg l1 tag gameweek)
    by (eapply predictions_nonneg_frame; eassumption).
  destruct (pick_captains_total l1 gameweek tag Hlen1 Hpred1) as (l2 & Hp).
  rewrite Hp. cbn [bind ret].
  assert (Hpred2 : predictions_nonneg l2 tag gameweek).
  { eapply predictions_nonneg_frame; [|exact Hpred1].
    eapply pick_captains_frame, Hp. }
  destruct (total_points_loop_total gameweek tag triple_captain l2 0%Q Hpred2)
    as (total & Ht & _); [apply Qle_refl|].
  unfold total_points_for_starting_11. rewrite Ht. cbn [bind ret].
  destruct bench_boost; [|eauto].
  pose proof (pick_captains_line_up _ _ _ _ Hp) as L2.
  destruct (line_up_counts l2 l1 GK L2) as [CG TG].
  destruct (line_up_counts l2 l1 DEF L2) as [CD TD].
  destruct (line_up_counts l2 l1 MID L2) as [CM TM].
  destruct (line_up_counts l2 l1 FWD L2) as [CF TF].
  rewrite (count_position_same_positions l1 l GK P1), Hc in CG.
  rewrite (count_position_same_positions l1 l DEF P1), Hc in CD.
  rewrite (count_position_same_positions l1 l MID P1), Hc in CM.
  rewrite (count_position_same_positions l1 l FWD P1), Hc in CF.
  assert (Hlim : nd + nm + nf = 10).
  { unfold FORMATIONS in Hin. cbn [In] in Hin.
    repeat (destruct Hin as [Hin|Hin]; [injection Hin as <- <- <-; lia|]).
    destruct Hin. }
  destruct (total_points_for_subs_total l2 gameweek tag Hpred2)
    as (subs & ->); [lia|lia|].
  cbn [bind ret]. eauto.
Qed.

End ScoringReturns.

Lemma get_expected_points_returns_witness :
  exists score sq',
    get_expected_points (F := exact_arithmetic) keep_predictions full_squad
      1 "t" true false
    = ret (score, sq').
Proof.
  apply (get_expected_points_returns (F := exact_arithmetic) keep_predictions
           full_squad 1 "t" true false).
  - unfold full_squad. apply run_ops_ok, Squad_init_ok.
  - reflexivity.
  - reflexivity.
  - intros p Hp. vm_compute in Hp.
    repeat (destruct Hp as [<-|Hp];
            [eexists; split; [reflexivity|discriminate]|]).
    destruct Hp.
Defined.

(** X24: [get_expected_points] never returns on a squad one of whose
    players lacks a prediction for the tag and the gameweek: the
    [KeyError] that [optimize_subs] catches for its ranking is not caught
    where [pick_captains] reads every player's prediction. *)
Theorem get_expected_points_needs_every_prediction {F : PyFloat}
  (calc_predicted_points : string -> CandidatePlayer -> CandidatePlayer)
  (sq sq' : Squad) (gameweek : Z) (tag : string)
  (bench_boost triple_captain : bool) (score : Q) :
  get_expected_points calc_predicted_points sq gameweek tag bench_boost
    triple_captain = ret (score, sq') ->
  forall p, In p (players sq) ->
    exists v,
      lookup_points (calc_predicted_points tag p) tag gameweek = ret v.
Proof.
  unfold get_expected_points, _calc_expected_points.
  destruct (negb (is_complete sq)); [discriminate|].
  destruct (optimize_subs _ gameweek tag) as [e|[l1 bs]] eqn:Ho;
    [discriminate|]. cbn [bind ret].
  destruct (pick_captains l1 gameweek tag) as [e|l2] eqn:Hp; [discriminate|].
  intros _ p Hin.
  destruct (proj1 (pick_captains_returns_spec l1 gameweek tag)) as [_ Hall];
    [now exists l2|].
  apply optimize_subs_frame in Ho.
  assert (H : In (without_line_up (calc_predicted_points tag p))
                 (map without_line_up l1)).
  { rewrite Ho. apply in_map, in_map. exact Hin. }
  apply in_map_iff in H as (q & Hq & Hq1).
  destruct (Hall q Hq1) as (v & Hv). exists v. rewrite <- Hv.
  apply lookup_points_same_predictions.
  apply (f_equal predicted_points) in Hq. cbn in Hq. congruence.
Qed.

Lemma get_expected_points_needs_every_prediction_witness :
  match sample_expected_points with
  | inr _ =>
      forall p, In p (players full_squad) ->
        exists v, lookup_points p "t" 1 = ret v
  | inl _ => False
  end.
Proof.
  destruct sample_expected_points as [e|[score sq']] eqn:E.
  - vm_compute in E. discriminate E.
  - exact (get_expected_points_needs_every_prediction
             (F := exact_arithmetic) keep_predictions full_squad sq' 1 "t" false false score E).
Defined.

Section ScoringNegative.

Context {F : PyFloat}.

Lemma predictions_negative_frame l l' tag gw :
  map without_line_up l' = map without_line_up l ->
  predictions_negative l tag gw -> predictions_negative l' tag gw.
Proof.
  intros Hmap Hl p Hp.
  apply (in_map without_line_up) in Hp. rewrite Hmap in Hp.
  apply in_map_iff in Hp as (q & Hq & Hin).
  destruct (Hl q Hin) as (v & Hv & Hneg). exists v. split; [|exact Hneg].
  rewrite <- Hv. apply lookup_points_same_predictions.
  apply (f_equal predicted_points) in Hq. cbn in Hq. congruence.
Qed.

Lemma total_points_loop_stays_negative gw tag tc l : forall total,
  predictions_negative l tag gw -> (total < 0)%Q ->
  exists s, total_points_loop l gw tag tc total = ret s /\ (s < 0)%Q.
Proof.
  induction l as [|p l IH]; intros total Hl Ht; cbn [total_points_loop].
  - now exists total.
  - assert (Hl' : predictions_negative l tag gw)
      by (intros q Hq; apply Hl; now right).
    destruct (is_starting p); [|now apply IH].
    destruct (Hl p) as (v & -> & Hv); [now left|]. cbn [bind ret].
    apply IH; [exact Hl'|].
    pose proof (float_add_neg total v (Qlt_le_weak _ _ Ht) Hv) as H1.
    pose proof (float_add_neg _ v (Qlt_le_weak _ _ H1) Hv) as H2.
    pose proof (float_add_neg _ v (Qlt_le_weak _ _ H2) Hv) as H3.
    destruct (is_captain p); [destruct tc|]; assumption.
Qed.

Lemma total_points_loop_negative gw tag tc l : forall total,
  predictions_negative l tag gw -> (total <= 0)%Q ->
  exists s, total_points_loop l gw tag tc total = ret s /\ (s <= 0)%Q /\
            ((exists p, In p l /\ is_starting p = true) -> (s < 0)%Q).
Proof.
  induction l as [|p l IH]; intros total Hl Ht; cbn [total_points_loop].
  - exists total. split; [reflexivity|]. split; [exact Ht|].
    intros (p & [] & _).
  - assert (Hl' : predictions_negative l tag gw)
      by (intros q Hq; apply Hl; now right).
    destruct (is_starting p) eqn:Es.
    + destruct (Hl p) as (v & -> & Hv); [now left|]. cbn [bind ret].
      pose proof (float_add_neg total v Ht Hv) as H1.
      pose proof (float_add_neg _ v (Qlt_le_weak _ _ H1) Hv) as H2.
      pose proof (float_add_neg _ v (Qlt_le_weak _ _ H2) Hv) as H3.
      match goal with
      | |- exists s, total_points_loop l gw tag tc ?t = _ /\ _ =>
          destruct (total_points_loop_stays_negative gw tag tc l t Hl')
            as (s & Hs & Hneg)
      end.
      { destruct (is_captain p); [destruct tc|]; assumption. }
      exists s. split; [exact Hs|].
      split; [now apply Qlt_le_weak|auto].
    + destruct (IH total Hl' Ht) as (s & Hs & Hle & Hlt).
      exists s. split; [exact Hs|]. split; [exact Hle|].
      intros (q & [<-|Hq] & Hq'); [congruence|].
      apply Hlt. now exists q.
Qed.

Lemma formation_loop_negative l tag gw first fs : forall lx,
  predictions_negative l tag gw ->
  In first (map fst (at_GK (build_player_dict l tag gw))) ->
  map without_line_up lx = map without_line_up l ->
  (exists p, nth_error lx first = Some p /\ is_starting p = true) ->
  exists l', formation_loop lx (build_player_dict l tag gw) gw tag fs 0%Q None
             = ret (l', 0%Q, None).
Proof.
  induction fs as [|f fs IH]; intros lx Hl Hfirst Hframe Hstart;
    cbn [formation_loop].
  - now exists lx.
  - destruct f as [[nd nm] nf].
    destruct (apply_formation lx _ (Some (nd, nm, nf))) as [e|la] eqn:Ha;
      [discriminate|]. cbn [bind ret].
    pose proof (apply_formation_frame _ _ _ _ Ha) as Hf.
    rewrite Hframe in Hf.
    pose proof (apply_formation_goalkeepers l tag gw lx _ la first Hfirst Ha)
      as Hg.
    destruct (total_points_loop_negative gw tag false la 0%Q)
      as (s & Hs & _ & Hneg);
      [eapply predictions_negative_frame; eassumption|apply Qle_refl|].
    unfold total_points_for_starting_11. rewrite Hs. cbn [bind ret].
    assert (Hlt : (s < 0)%Q).
    { apply Hneg. destruct Hstart as (p & Hp & Hps). exists p.
      split; [|exact Hps]. rewrite <- Hg in Hp. eapply nth_error_In, Hp. }
    destruct (Qle_bool 0 s) eqn:E.
    + apply Qle_bool_iff in E. exfalso. exact (Qlt_not_le _ _ Hlt E).
    + apply IH; auto. rewrite Hg. exact Hstart.
Qed.

(** X25: [optimize_subs] keeps a formation only when its score is at least
    the initial best score 0.  On a squad with two goalkeepers and an
    outfield player whose predictions are all below 0, every formation
    scores below 0, none is kept, and the final [apply_formation] is given
    [None] for a formation: the call raises [TypeError]. *)
Theorem optimize_subs_negative_predictions
  (l : list CandidatePlayer) (gameweek : Z) (tag : string) :
  2 <= count_position l GK ->
  0 < count_position l DEF + count_position l MID + count_position l FWD ->
  predictions_negative l tag gameweek ->
  optimize_subs l gameweek tag = raise TypeError.
Proof.
  intros HG HO Hl. unfold optimize_subs.
  pose proof (dict_length l tag gameweek GK) as LG.
  pose proof (dict_length l tag gameweek DEF) as LD.
  pose proof (dict_length l tag gameweek MID) as LM.
  pose proof (dict_length l tag gameweek FWD) as LF.
  pose proof (dict_NoDup l tag gameweek GK) as NG.
  pose proof (dict_in_range l tag gameweek GK) as RG.
  pose proof (formation_loop_negative l tag gameweek) as FN.
  cbn [pp_get] in LG, LD, LM, LF, NG, RG.
  unfold first_two_goalkeepers.
  destruct (at_GK (build_player_dict l tag gameweek))
    as [|[first v1] [|[second v2] rest]] eqn:EG;
    [cbn in LG; lia|cbn in LG; lia|].
  cbn [bind ret]. cbn [map fst] in NG, RG.
  assert (Hne : first <> second).
  { intros ->. inversion NG as [|? ? Hn _]. apply Hn. now left. }
  set (l1 := set_at (set_at l first (fun p => set_is_starting p true)) second
                    (fun p => set_is_starting p false)).
  destruct (FN first FORMATIONS l1 Hl) as (l2 & ->).
  - now left.
  - unfold l1. now rewrite !set_at_map.
  - unfold l1. rewrite !set_at_nth_error.
    destruct (Nat.eqb_spec first second) as [E|_]; [contradiction|].
    rewrite Nat.eqb_refl.
    destruct (nth_error l first) as [p|] eqn:Hn.
    + exists (set_is_starting p true). split; reflexivity.
    + apply nth_error_None in Hn.
      assert (first < List.length l)%nat by (apply RG; now left). lia.
  - cbn [bind ret]. unfold apply_formation.
    destruct (at_DEF (build_player_dict l tag gameweek)),
             (at_MID (build_player_dict l tag gameweek)),
             (at_FWD (build_player_dict l tag gameweek));
      try reflexivity.
    cbn in LD, LM, LF. lia.
Qed.

End ScoringNegative.

Lemma optimize_subs_negative_predictions_witness :
  optimize_subs (F := exact_arithmetic) gloomy_players 1 "t"
  = raise TypeError.
Proof.
  apply optimize_subs_negative_predictions.
  - vm_compute. discriminate.
  - reflexivity.
  - intros p Hp. vm_compute in Hp.
    repeat (destruct Hp as [<-|Hp];
            [eexists; split; reflexivity|]).
    destruct Hp.
Defined.

(* ================================================================== *)
(** * [make_best_transfers] *)
(* ================================================================== *)

Section BestTransfersProperties.

Context {F : PyFloat}.

Variable CURRENT_SEASON : string.
Variable NEXT_GAMEWEEK : Z.
Variable api_now_cost : Z -> option Z.
Variable db_price : Z -> string -> Z -> option Z.
Variable calc_predicted_points : string -> CandidatePlayer -> CandidatePlayer.
Variable get_predicted_points : list Z -> Position -> string -> list (Z * Q).
Variable CandidatePlayer_init : Z -> string -> Z -> CandidatePlayer.
Variable Rng : Type.
Variable get_squad_value : Squad + list Z -> result Z.
Variable make_optimum_double_transfer :
  Squad -> string -> list Z -> string -> option Z -> option Z ->
  result (Squad * list Z * list Z).
Variable make_new_squad :
  Rng -> Z -> Z -> string -> list Z -> option Z -> option Z ->
  result (option Squad * Rng).

Local Abbreviation best_transfers :=
  (make_best_transfers CURRENT_SEASON NEXT_GAMEWEEK api_now_cost db_price
     calc_predicted_points get_predicted_points CandidatePlayer_init Rng
     get_squad_value make_optimum_double_transfer make_new_squad).

(** X26: for the wildcard ["W"] and the free hit ["F"],
    [make_best_transfers] has [make_new_squad] build a squad and lists its
    players under ["in"] and the players of the squad given under ["out"],
    but the squad it returns, and scores, is the squad it was given: same
    budget, same counters, same players, with only the line-up rewritten. *)
Theorem make_best_transfers_keeps_squad_on_new_squad
  (g g' : Rng) (d : Directive) (squad sq' : Squad) (tag season : string)
  (gameweeks : list Z) (num_iter : Z) (players_in players_out : list Z)
  (points : Q) :
  d = DStr "W" \/ d = DStr "F" ->
  best_transfers g d squad tag gameweeks season num_iter
  = ret (sq', (players_in, players_out), points, g') ->
  players_out = map player_id (players squad) /\
  budget sq' = budget squad /\
  num_position sq' = num_position squad /\
  map without_line_up (players sq')
  = map without_line_up (map (calc_predicted_points tag) (players squad)) /\
  exists value gws new_squad,
    make_new_squad g value num_iter tag gws None None
    = ret (Some new_squad, g') /\
    players_in = map player_id (players new_squad).
Proof.
  intros Hd H. unfold make_best_transfers in H.
  assert (Hs : strip_chip d gameweeks = ret (d, None, None))
    by (destruct Hd as [->| ->]; reflexivity).
  rewrite Hs in H. cbn [bind ret] in H.
  assert (H0 : Directive_eqb d (DInt 0) = false)
    by (destruct Hd as [->| ->]; reflexivity).
  assert (H1 : Directive_eqb d (DInt 1) = false)
    by (destruct Hd as [->| ->]; reflexivity).
  assert (H2 : Directive_eqb d (DInt 2) = false)
    by (destruct Hd as [->| ->]; reflexivity).
  assert (HW : Directive_eqb d (DStr "W") || Directive_eqb d (DStr "F") = true)
    by (destruct Hd as [->| ->]; reflexivity).
  rewrite H0, H1, H2, HW in H.
  destruct (get_squad_value (inl squad)) as [e|value]; [discriminate|].
  cbn [bind ret] in H.
  match type of H with
  | context [bind ?m _] =>
      match m with
      | (if _ then _ else _) => destruct m as [e|gws] eqn:Hg
      end
  end; [discriminate|]. cbn [bind ret] in H.
  destruct (make_new_squad g value num_iter tag gws None None)
    as [e|[[new_squad|] g1]] eqn:Hm; try discriminate.
  cbn [bind ret] in H.
  destruct (first_gameweek gws) as [e|gw]; [discriminate|].
  cbn [bind ret] in H.
  destruct (get_expected_points calc_predicted_points squad gw tag
              (is_set None) (is_set None)) as [e|[pts sq1]] eqn:He;
    [discriminate|]. cbn [bind ret] in H.
  injection H as <- <- <- <- <-.
  destruct (get_expected_points_frame _ _ _ _ _ _ _ _ He)
    as (Hb & Hn & _ & _ & Hp).
  repeat (split; [assumption || reflexivity|]).
  exists value, gws, new_squad. split; [exact Hm|reflexivity].
Qed.

(** X27: [make_best_transfers] returns only for the directives it has a
    branch for: 0, 1, 2, ["W"], ["F"], and a string that starts with ["T"]
    or ["B"] and whose second character is 0, 1 or 2; for any other value
    it raises. *)
Theorem make_best_transfers_returns_only_recognised
  (g : Rng) (d : Directive) (squad : Squad) (tag season : string)
  (gameweeks : list Z) (num_iter : Z)
  (r : Squad * (list Z * list Z) * Q * Rng) :
  best_transfers g d squad tag gameweeks season num_iter = ret r ->
  recognised d.
Proof.
  unfold make_best_transfers.
  destruct (strip_chip d gameweeks) as [e|[[d' tc] bb]] eqn:Hs; [discriminate|].
  cbn [bind ret].
  assert (Hd' : (Directive_eqb d' (DInt 0) = true \/
                 Directive_eqb d' (DInt 1) = true \/
                 Directive_eqb d' (DInt 2) = true \/
                 Directive_eqb d' (DStr "W") || Directive_eqb d' (DStr "F")
                 = true) ->
                recognised d).
  { unfold strip_chip in Hs. destruct d as [n|s].
    - injection Hs as <- _ _. cbn [Directive_eqb recognised].
      intros [H|[H|[H|H]]]; try discriminate; apply Z.eqb_eq in H; lia.
    - cbn [recognised]. destruct (startswith s "T") eqn:ET.
      + destruct (second_char s) as [e|c] eqn:Hc; [discriminate|].
        cbn [bind ret] in Hs.
        destruct (int_of_char c) as [e|n] eqn:Hn; [discriminate|].
        cbn [bind ret] in Hs.
        destruct (first_gameweek gameweeks); [discriminate|].
        injection Hs as <- _ _. cbn [Directive_eqb].
        intros H. right. right. split; [now left|]. exists c, n.
        split; [reflexivity|]. split; [exact Hn|].
        destruct H as [H|[H|[H|H]]]; try discriminate;
          apply Z.eqb_eq in H; lia.
      + destruct (startswith s "B") eqn:EB.
        * destruct (second_char s) as [e|c] eqn:Hc; [discriminate|].
          cbn [bind ret] in Hs.
          destruct (int_of_char c) as [e|n] eqn:Hn; [discriminate|].
          cbn [bind ret] in Hs.
          destruct (first_gameweek gameweeks); [discriminate|].
          injection Hs as <- _ _. cbn [Directive_eqb].
          intros H. right. right. split; [now right|]. exists c, n.
          split; [reflexivity|]. split; [exact Hn|].
          destruct H as [H|[H|[H|H]]]; try discriminate;
            apply Z.eqb_eq in H; lia.
        * injection Hs as <- _ _. cbn [Directive_eqb].
          intros [H|[H|[H|H]]]; try discriminate.
          apply orb_true_iff in H as [H|H]; apply String.eqb_eq in H; auto. }
  destruct (Directive_eqb d' (DInt 0)) eqn:E0; [intros _; apply Hd'; auto|].
  destruct (Directive_eqb d' (DInt 1)) eqn:E1; [intros _; apply Hd'; auto|].
  destruct (Directive_eqb d' (DInt 2)) eqn:E2; [intros _; apply Hd'; auto|].
  destruct (Directive_eqb d' (DStr "W") || Directive_eqb d' (DStr "F")) eqn:EW;
    [intros _; apply Hd'; auto|].
  cbn [bind ret]. discriminate.
Qed.

End BestTransfersProperties.

Local Abbreviation sample_wildcard :=
  (make_best_transfers (F := exact_arithmetic) "2021" 1 no_api no_db
     keep_predictions sample_ranking
     sample_candidate unit sample_squad_value sample_double_transfer
     sample_new_squad tt (DStr "W") full_squad "t" [1; 2] "2021" 1).

Lemma make_best_transfers_keeps_squad_on_new_squad_witness :
  match sample_wildcard with
  | inr (sq', (players_in, players_out), _, _) =>
      players_out = map player_id (players full_squad) /\
      players_in = map player_id (players rebuilt_squad) /\
      map without_line_up (players sq')
      = map without_line_up (players full_squad)
  | inl _ => False
  end.
Proof.
  destruct sample_wildcard as [e|[[[sq' [players_in players_out]] pts] g']]
    eqn:E.
  - vm_compute in E. discriminate E.
  - destruct (make_best_transfers_keeps_squad_on_new_squad
                (F := exact_arithmetic) "2021" 1 no_api no_db keep_predictions sample_ranking
                sample_candidate unit sample_squad_value
                sample_double_transfer sample_new_squad
                tt g' (DStr "W") full_squad sq' "t" "2021" [1; 2] 1
                players_in players_out pts (or_introl eq_refl) E)
      as (Hout & _ & _ & Hp & value & gws & new_squad & Hm & Hin).
    split; [exact Hout|]. split.
    + unfold sample_new_squad in Hm. injection Hm as <- _. exact Hin.
    + unfold keep_predictions in Hp. rewrite map_id in Hp. exact Hp.
Defined.

Local Abbreviation sample_triple_captain :=
  (make_best_transfers (F := exact_arithmetic) "2021" 1 no_api no_db
     keep_predictions sample_ranking
     sample_candidate unit sample_squad_value sample_double_transfer
     sample_new_squad tt (DStr "T0") full_squad "t" [1; 2] "2021" 1).

Lemma make_best_transfers_returns_only_recognised_witness :
  match sample_triple_captain with
  | inr _ => recognised (DStr "T0")
  | inl _ => False
  end.
Proof.
  destruct sample_triple_captain as [e|r] eqn:E.
  - vm_compute in E. discriminate E.
  - exact (make_best_transfers_returns_only_recognised
             (F := exact_arithmetic) "2021" 1 no_api no_db keep_predictions sample_ranking
             sample_candidate unit sample_squad_value
             sample_double_transfer sample_new_squad
             tt (DStr "T0") full_squad "t" "2021" [1; 2] 1 r E).
Defined.

(* ================================================================== *)
(** * [Player.team] *)
(* ================================================================== *)

Lemma truthy_str_slot o : slot_ok o -> truthy_str o = true <-> o <> None.
Proof.
  destruct o as [s|]; cbn; intros H.
  - split; [discriminate|]. intros _.
    destruct (String.eqb_spec s ""); [contradiction|reflexivity].
  - split; [discriminate|congruence].
Qed.

Lemma team_loop_nearest season gw attrs : forall gb ga tb ta,
  (forall r, In r attrs -> a_season r = season -> a_team r <> "") ->
  (forall r, In r attrs -> a_season r = season -> a_gameweek r <> gw) ->
  slot_ok tb -> slot_ok ta ->
  (tb <> None -> gb < gw) -> (ta <> None -> gw < ga) ->
  match team_loop attrs season gw gb ga tb ta with
  | Some t =>
      exists g,
        ((tb = Some t /\ g = gb) \/ (ta = Some t /\ g = ga) \/
         exists r, In r attrs /\ a_season r = season /\ a_team r = t /\
                   a_gameweek r = g /\ (gb < g < gw \/ gw < g < ga)) /\
        (tb <> None -> Z.abs (g - gw) <= Z.abs (gb - gw)) /\
        (ta <> None -> Z.abs (g - gw) <= Z.abs (ga - gw)) /\
        forall r', In r' attrs -> a_season r' = season ->
          gb < a_gameweek r' < gw \/ gw < a_gameweek r' < ga ->
          Z.abs (g - gw) <= Z.abs (a_gameweek r' - gw)
  | None =>
      tb = None /\ ta = None /\
      forall r, In r attrs -> a_season r = season ->
        ~ (gb < a_gameweek r < gw \/ gw < a_gameweek r < ga)
  end.
Proof.
  induction attrs as [|a attrs IH]; intros gb ga tb ta Hteam Hexact Sb Sa Hb Ha;
    cbn [team_loop].
  - pose proof (truthy_str_slot tb Sb) as Tb.
    pose proof (truthy_str_slot ta Sa) as Ta.
    destruct (truthy_str tb) eqn:Eb, (truthy_str ta) eqn:Ea; cbn [negb andb].
    + assert (Nb : tb <> None) by now apply Tb.
      assert (Na : ta <> None) by now apply Ta.
      specialize (Hb Nb). specialize (Ha Na).
      destruct (Z.leb_spec (gw - gb) (ga - gw)).
      * destruct tb as [t|]; [|contradiction]. exists gb.
        split; [now left|]. repeat split; intros; try lia. contradiction.
      * destruct ta as [t|]; [|contradiction]. exists ga.
        split; [right; now left|]. repeat split; intros; try lia.
        contradiction.
    + assert (Nb : tb <> None) by now apply Tb.
      assert (Na : ta = None).
      { destruct ta; [|reflexivity]. exfalso.
        assert (E : truthy_str (Some s) = true)
          by (apply (truthy_str_slot (Some s)); [exact Sa|discriminate]).
        congruence. }
      destruct tb as [t|]; [|contradiction]. exists gb.
      split; [now left|]. subst ta.
      repeat split; intros; try lia; contradiction.
    + assert (Na : ta <> None) by now apply Ta.
      assert (Nb : tb = None).
      { destruct tb; [|reflexivity]. exfalso.
        assert (E : truthy_str (Some s) = true)
          by (apply (truthy_str_slot (Some s)); [exact Sb|discriminate]).
        congruence. }
      destruct ta as [t|]; [|contradiction]. exists ga.
      split; [right; now left|]. subst tb.
      repeat split; intros; try lia; contradiction.
    + assert (Nb : tb = None).
      { destruct tb; [|reflexivity]. exfalso.
        assert (E : truthy_str (Some s) = true)
          by (apply (truthy_str_slot (Some s)); [exact Sb|discriminate]).
        congruence. }
      assert (Na : ta = None).
      { destruct ta; [|reflexivity]. exfalso.
        assert (E : truthy_str (Some s) = true)
          by (apply (truthy_str_slot (Some s)); [exact Sa|discriminate]).
        congruence. }
      repeat split; auto.
  - assert (Hteam' : forall r, In r attrs -> a_season r = season ->
                       a_team r <> "")
      by (intros r Hr; apply Hteam; now right).
    assert (Hexact' : forall r, In r attrs -> a_season r = season ->
                        a_gameweek r <> gw)
      by (intros r Hr; apply Hexact; now right).
    destruct (String.eqb_spec (a_season a) season) as [Es|Es]; cbn [negb].
    2:{ specialize (IH gb ga tb ta Hteam' Hexact' Sb Sa Hb Ha).
        destruct (team_loop attrs season gw gb ga tb ta) as [t|].
        - destruct IH as (g & Hsrc & Nb & Na & Hnear). exists g.
          split; [|split; [exact Nb|split; [exact Na|]]].
          + destruct Hsrc as [H|[H|(r & Hr & H)]]; auto.
            right. right. exists r. split; [now right|exact H].
          + intros r' [<-|Hr'] Hs; [contradiction|now apply Hnear].
        - destruct IH as (Nb & Na & Hnone). repeat split; auto.
          intros r [<-|Hr] Hs; [contradiction|now apply Hnone]. }
    assert (Hne : a_gameweek a <> gw) by (apply Hexact; [now left|exact Es]).
    assert (Hta : a_team a <> "") by (apply Hteam; [now left|exact Es]).
    destruct (Z.eqb_spec (a_gameweek a) gw) as [E|_]; [contradiction|].
    destruct (Z.ltb_spec (a_gameweek a) gw) as [L1|L1];
      destruct (Z.ltb_spec gb (a_gameweek a)) as [L2|L2]; cbn [andb].
    + (* a new nearest row before the gameweek *)
      specialize (IH (a_gameweek a) ga (Some (a_team a)) ta Hteam' Hexact'
                     Hta Sa (fun _ => L1) Ha).
      destruct (team_loop attrs season gw (a_gameweek a) ga
                          (Some (a_team a)) ta) as [t|].
      * destruct IH as (g & Hsrc & Nb & Na & Hnear).
        specialize (Nb ltac:(discriminate)).
        exists g. split; [|split; [|split; [exact Na|]]].
        -- destruct Hsrc as [[[= <-] ->]|[H|(r & Hr & Hs & Ht & Hg & Hrange)]].
           ++ right. right. exists a. split; [now left|].
              repeat split; auto; lia.
           ++ auto.
           ++ right. right. exists r. split; [now right|].
              repeat split; auto; lia.
        -- intros Htb. specialize (Hb Htb). lia.
        -- intros r' [<-|Hr'] Hs Hrange; [lia|].
           destruct (Z.ltb_spec (a_gameweek a) (a_gameweek r')).
           ++ apply Hnear; auto. lia.
           ++ lia.
      * destruct IH as (Nb & _). discriminate.
    + destruct (Z.ltb_spec gw (a_gameweek a)) as [L3|L3]; [lia|]. cbn [andb].
      specialize (IH gb ga tb ta Hteam' Hexact' Sb Sa Hb Ha).
      destruct (team_loop attrs season gw gb ga tb ta) as [t|].
      * destruct IH as (g & Hsrc & Nb & Na & Hnear). exists g.
        split; [|split; [exact Nb|split; [exact Na|]]].
        -- destruct Hsrc as [H|[H|(r & Hr & H)]]; auto.
           right. right. exists r. split; [now right|exact H].
        -- intros r' [<-|Hr'] Hs Hrange; [lia|now apply Hnear].
      * destruct IH as (Nb & Na & Hnone). repeat split; auto.
        intros r [<-|Hr] Hs; [lia|now apply Hnone].
    + destruct (Z.ltb_spec gw (a_gameweek a)) as [L3|L3]; [|lia].
      destruct (Z.ltb_spec (a_gameweek a) ga) as [L4|L4]; cbn [andb].
      * specialize (IH gb (a_gameweek a) tb (Some (a_team a)) Hteam' Hexact'
                       Sb Hta Hb (fun _ => L3)).
        destruct (team_loop attrs season gw gb (a_gameweek a) tb
                            (Some (a_team a))) as [t|].
        -- destruct IH as (g & Hsrc & Nb & Na & Hnear).
           specialize (Na ltac:(discriminate)).
           exists g. split; [|split; [exact Nb|split]].
           ++ destruct Hsrc
                as [H|[[[= <-] ->]|(r & Hr & Hs & Ht & Hg & Hrange)]].
              ** auto.
              ** right. right. exists a. split; [now left|].
                 repeat split; auto; lia.
              ** right. right. exists r. split; [now right|].
                 repeat split; auto; lia.
           ++ intros Hta'. specialize (Ha Hta'). lia.
           ++ intros r' [<-|Hr'] Hs Hrange; [lia|].
              destruct (Z.ltb_spec (a_gameweek r') (a_gameweek a)).
              ** apply Hnear; auto. lia.
              ** lia.
        -- destruct IH as (_ & Na & _). discriminate.
      * specialize (IH gb ga tb ta Hteam' Hexact' Sb Sa Hb Ha).
        destruct (team_loop attrs season gw gb ga tb ta) as [t|].
        -- destruct IH as (g & Hsrc & Nb & Na & Hnear). exists g.
           split; [|split; [exact Nb|split; [exact Na|]]].
           ++ destruct Hsrc as [H|[H|(r & Hr & H)]]; auto.
              right. right. exists r. split; [now right|exact H].
           ++ intros r' [<-|Hr'] Hs Hrange; [lia|now apply Hnear].
        -- destruct IH as (Nb & Na & Hnone). repeat split; auto.
           intros r [<-|Hr] Hs; [lia|now apply Hnone].
    + destruct (Z.ltb_spec gw (a_gameweek a)) as [L3|L3]; [|lia].
      destruct (Z.ltb_spec (a_gameweek a) ga) as [L4|L4]; cbn [andb].
      * specialize (IH gb (a_gameweek a) tb (Some (a_team a)) Hteam' Hexact'
                       Sb Hta Hb (fun _ => L3)).
        destruct (team_loop attrs season gw gb (a_gameweek a) tb
                            (Some (a_team a))) as [t|].
        -- destruct IH as (g & Hsrc & Nb & Na & Hnear).
           specialize (Na ltac:(discriminate)).
           exists g. split; [|split; [exact Nb|split]].
           ++ destruct Hsrc
                as [H|[[[= <-] ->]|(r & Hr & Hs & Ht & Hg & Hrange)]].
              ** auto.
              ** right. right. exists a. split; [now left|].
                 repeat split; auto; lia.
              ** right. right. exists r. split; [now right|].
                 repeat split; auto; lia.
           ++ intros Hta'. specialize (Ha Hta'). lia.
           ++ intros r' [<-|Hr'] Hs Hrange; [lia|].
              destruct (Z.ltb_spec (a_gameweek r') (a_gameweek a)).
              ** apply Hnear; auto. lia.
              ** lia.
        -- destruct IH as (_ & Na & _). discriminate.
      * specialize (IH gb ga tb ta Hteam' Hexact' Sb Sa Hb Ha).
        destruct (team_loop attrs season gw gb ga tb ta) as [t|].
        -- destruct IH as (g & Hsrc & Nb & Na & Hnear). exists g.
           split; [|split; [exact Nb|split; [exact Na|]]].
           ++ destruct Hsrc as [H|[H|(r & Hr & H)]]; auto.
              right. right. exists r. split; [now right|exact H].
           ++ intros r' [<-|Hr'] Hs Hrange; [lia|now apply Hnear].
        -- destruct IH as (Nb & Na & Hnone). repeat split; auto.
           intros r [<-|Hr] Hs; [lia|now apply Hnone].
Qed.

(** X28: when no row of the season is at the gameweek asked for (and no
    team name is empty), [Player.team] answers with the team of a row of
    the season whose gameweek is nearest to it among the rows within reach
    of the loop, and with [None] exactly when no row of the season is
    within reach. *)
Theorem Player_team_nearest_gameweek
  (attributes : list PlayerAttributes) (season : string) (gameweek : Z) :
  (forall r, In r attributes -> a_season r = season -> a_team r <> "") ->
  (forall r, In r attributes -> a_season r = season ->
     a_gameweek r <> gameweek) ->
  match Player_team attributes season gameweek with
  | Some t =>
      exists r, In r attributes /\ a_season r = season /\ a_team r = t /\
        in_reach gameweek (a_gameweek r) /\
        forall r', In r' attributes -> a_season r' = season ->
          in_reach gameweek (a_gameweek r') ->
          Z.abs (a_gameweek r - gameweek) <= Z.abs (a_gameweek r' - gameweek)
  | None =>
      forall r, In r attributes -> a_season r = season ->
        ~ in_reach gameweek (a_gameweek r)
  end.
Proof.
  intros Hteam Hexact. unfold Player_team, in_reach.
  pose proof (team_loop_nearest season gameweek attributes 0 100 None None
                Hteam Hexact I I) as H.
  destruct (team_loop attributes season gameweek 0 100 None None) as [t|].
  - destruct H as (g & Hsrc & _ & _ & Hnear); try congruence.
    destruct Hsrc as [[H _]|[[H _]|(r & Hr & Hs & Ht & Hg & Hrange)]];
      try discriminate.
    exists r. rewrite Hg. auto.
  - destruct H as (_ & _ & Hnone); try congruence. exact Hnone.
Qed.

Lemma Player_team_nearest_gameweek_witness :
  Player_team sample_attributes "2021" 5 = Some "ARS" /\
  match Player_team sample_attributes "2021" 5 with
  | Some t =>
      exists r, In r sample_attributes /\ a_season r = "2021" /\
        a_team r = t /\ in_reach 5 (a_gameweek r) /\
        forall r', In r' sample_attributes -> a_season r' = "2021" ->
          in_reach 5 (a_gameweek r') ->
          Z.abs (a_gameweek r - 5) <= Z.abs (a_gameweek r' - 5)
  | None =>
      forall r, In r sample_attributes -> a_season r = "2021" ->
        ~ in_reach 5 (a_gameweek r)
  end.
Proof.
  split; [reflexivity|].
  apply (Player_team_nearest_gameweek sample_attributes "2021" 5).
  - intros r Hr _. vm_compute in Hr.
    repeat (destruct Hr as [<-|Hr]; [discriminate|]). destruct Hr.
  - intros r Hr Hs. vm_compute in Hr.
    repeat (destruct Hr as [<-|Hr]; [discriminate|]). destruct Hr.
Defined.

Lemma team_loop_exact season gw r l2 l1 : forall gb ga tb ta,
  a_season r = season -> a_gameweek r = gw ->
  (forall r', In r' l1 -> a_season r' = season -> a_gameweek r' <> gw) ->
  team_loop (l1 ++ r :: l2) season gw gb ga tb ta = Some (a_team r).
Proof.
  intros gb ga tb ta Hs Hg. revert gb ga tb ta.
  induction l1 as [|a l1 IH]; intros gb ga tb ta Hl1;
    cbn [app team_loop].
  - rewrite Hs, String.eqb_refl, Hg, Z.eqb_refl. reflexivity.
  - assert (Hl1' : forall r', In r' l1 -> a_season r' = season ->
                     a_gameweek r' <> gw)
      by (intros r' Hr'; apply Hl1; now right).
    destruct (String.eqb_spec (a_season a) season) as [Es|Es]; cbn [negb];
      [|now apply IH].
    destruct (Z.eqb_spec (a_gameweek a) gw) as [E|_].
    + exfalso. apply (Hl1 a); auto. now left.
    + destruct (_ && _); [now apply IH|].
      destruct (_ && _); now apply IH.
Qed.

(** X29: [Player.team] returns at the first row of the season that is at
    the gameweek asked for, with the team of that row, whatever the rows
    before it made it remember and whatever rows follow. *)
Theorem Player_team_exact_gameweek
  (before after : list PlayerAttributes) (row : PlayerAttributes)
  (season : string) (gameweek : Z) :
  a_season row = season -> a_gameweek row = gameweek ->
  (forall r, In r before -> a_season r = season ->
     a_gameweek r <> gameweek) ->
  Player_team (before ++ row :: after) season gameweek = Some (a_team row).
Proof.
  intros Hs Hg Hbefore. unfold Player_team.
  now apply team_loop_exact.
Qed.

Lemma Player_team_exact_gameweek_witness :
  Player_team sample_attributes "2021" 9 = Some "CHE".
Proof.
  apply (Player_team_exact_gameweek
           [ mkAttributes "2021" 3 50 "ARS" "MID";
             mkAttributes "1920" 5 45 "LEE" "MID" ]
           [ mkAttributes "2021" 9 53 "EVE" "MID" ]
           (mkAttributes "2021" 9 52 "CHE" "MID") "2021" 9).
  - reflexivity.
  - reflexivity.
  - intros r Hr _. vm_compute in Hr.
    repeat (destruct Hr as [<-|Hr]; [discriminate|]). destruct Hr.
Defined.
